(** * EnergyGridR-D: the grid editor's topology store, metrics engine and
      assessment engine (scripts/UI.py), embedded and verified.

    The definitions follow the source file top to bottom:

    - [Py]             the fragment of the Python runtime the code relies on
                       (exceptions, true division, [min], [max], [sum],
                       [round], [next]);
    - [Tk]             the fragment of the tkinter canvas the editor draws on;
    - [Random]         the fragment of the [random] module the assessment uses;
    - [Node], [GridSimulator], [GridApp]
                       the three classes, generic in the arithmetic;
    - [Binary64]       IEEE 754 double precision, the arithmetic CPython runs:
                       concrete runs are evaluated in it, bit for bit, and
                       the bounds on the path efficiency and on the report
                       are proved in it;
    - [Ieee]           the vocabulary of those proofs: the value of a double
                       as an integer number of units, and what rounding an
                       exact result to a double guarantees;
    - [Rational]       exact rational arithmetic, for the properties that do
                       not depend on rounding;
    - [Spec]           what the specification says the path efficiency and
                       the edge invariant are;
    - [Editor]         the states an editing session reaches;
    - [Scenario]       the sessions used as concrete inputs.

    The theorems come after the definitions. *)

From Stdlib Require Import ZArith QArith Qabs Lqa Lia List String Bool.
From Stdlib Require Import Floats.SpecFloat.
From stdpp Require Import gmap strings list.
Import ListNotations.

Local Open Scope string_scope.
Local Open Scope Z_scope.

(* ===================================================================== *)
(** * The Python runtime fragment                                         *)
(* ===================================================================== *)

Module Py.

(** The exceptions the modelled code can raise. *)
Inductive exn : Type :=
| ZeroDivisionError
| ValueError
| IndexError
| OverflowError.

(** A call either returns a value or raises. *)
Inductive outcome (A : Type) : Type :=
| Returned (a : A)
| Raised (e : exn).
Arguments Returned {A} a.
Arguments Raised {A} e.

#[global] Instance outcome_ret : MRet outcome := fun A a => Returned a.
#[global] Instance outcome_bind : MBind outcome := fun A B k m =>
  match m with
  | Returned a => k a
  | Raised e => Raised e
  end.

Definition raises {A : Type} (m : outcome A) : Prop := exists e, m = Raised e.

(** The arithmetic of Python's [float] (and of the small [int]s mixed into
    it, which Python converts exactly).  [fdiv] is the bare quotient;
    Python's [/] is [truediv] below, which checks the divisor first;
    [fltb a b] is [a < b], [feqb a b] is [a == b] and [fround n x] is
    [round(x, n)]. *)
Class Float (F : Type) : Type := {
  of_Z : Z -> F;
  fadd : F -> F -> F;
  fsub : F -> F -> F;
  fmul : F -> F -> F;
  fdiv : F -> F -> F;
  fabs : F -> F;
  fltb : F -> F -> bool;
  feqb : F -> F -> bool;
  fround : nat -> F -> F
}.

Section Builtins.
Context {F : Type} `{Float F}.

(** The decimal literal [m]e-[k], e.g. [0.001] is [dec 1 3]: the value of
    the type nearest to m / 10^k. *)
Definition dec (m : Z) (k : nat) : F := fdiv (of_Z m) (of_Z (10 ^ Z.of_nat k)).

(** [x / y] on floats: ZeroDivisionError when [y == 0]. *)
Definition truediv (x y : F) : outcome F :=
  if feqb y (of_Z 0) then Raised ZeroDivisionError else Returned (fdiv x y).

(** [x / n] with an [int] divisor: ZeroDivisionError when [n == 0]. *)
Definition truediv_int (x : F) (n : Z) : outcome F :=
  if n =? 0 then Raised ZeroDivisionError else Returned (fdiv x (of_Z n)).

(** [min(a, b)]: the first argument unless a later one is smaller. *)
Definition min2 (a b : F) : F := if fltb b a then b else a.

(** [max(a, b, c)]: the first argument unless a later one is greater. *)
Definition max3 (a b c : F) : F :=
  let m := if fltb a b then b else a in
  if fltb m c then c else m.

(** [sum(xs)]: left to right, starting from the int 0.  (From CPython 3.12
    on, [sum] also compensates the rounding error of a float sum; on a sum
    of at most one float, and in exact arithmetic, that changes nothing.) *)
Definition sum (xs : list F) : F := fold_left fadd xs (of_Z 0).

End Builtins.

(** [round(x / d)] for integers [x] and [d > 0], computed exactly: the
    integer nearest to the quotient, ties to even.  The code rounds the
    quotient to a double first ([Binary64.round_quotient] below), which
    gives the same integer as long as [x] is a pointer coordinate (the two
    are compared for every [x] of magnitude up to 2^15); for [x] from about
    1.4e16 on the two differ. *)
Definition round_div (x d : Z) : Z :=
  let q := x / d in
  let r := x mod d in
  if 2 * r <? d then q
  else if d <? 2 * r then q + 1
  else if Z.even q then q else q + 1.

(** [next((x for x in xs if p(x)), None)] *)
Definition next {A : Type} (p : A -> bool) (xs : list A) : option A := List.find p xs.

(** [s in [s1, ..., sn]] on strings. *)
Definition str_in (s : string) (l : list string) : bool := existsb (String.eqb s) l.

End Py.


(* ===================================================================== *)
(** * The tkinter canvas fragment                                         *)
(* ===================================================================== *)

Module Tk.

(** Tags the editor attaches to canvas items.  [TagEnergyOf i] is the
    formatted tag [f"energy_{i}"]; [TagType t] is the node type used as a
    tag. *)
Inductive tag : Type :=
| TagType (t : string)
| TagNode
| TagEnergy
| TagEnergyOf (i : Z)
| TagConnection
| TagGrid.

#[global] Instance tag_eq_dec : EqDecision tag.
Proof. solve_decision. Defined.

(** What an item is, with the coordinates it was given. *)
Inductive shape : Type :=
| Image (x y : Z)
| Rectangle (x1 y1 x2 y2 : Z)
| Text (x y : Z)
| Line (x1 y1 x2 y2 : Z).

Record canvas_item : Type := { item_shape : shape; item_tags : list tag }.

(** A canvas hands out item ids from a counter that only grows (the first
    item is 1); a deleted id is never handed out again. *)
Record Canvas : Type := { next_id : Z; items : gmap Z canvas_item }.

Definition empty : Canvas := {| next_id := 1; items := ∅ |}.

Definition create (sh : shape) (tags : list tag) (c : Canvas) : Z * Canvas :=
  (next_id c,
   {| next_id := next_id c + 1;
      items := <[next_id c := {| item_shape := sh; item_tags := tags |}]> (items c) |}).

Definition create_image (x y : Z) := create (Image x y).
Definition create_rectangle (x1 y1 x2 y2 : Z) := create (Rectangle x1 y1 x2 y2).
Definition create_text (x y : Z) := create (Text x y).
Definition create_line (x1 y1 x2 y2 : Z) := create (Line x1 y1 x2 y2).

Definition shape_coords (sh : shape) : list Z :=
  match sh with
  | Image x y => [x; y]
  | Rectangle x1 y1 x2 y2 => [x1; y1; x2; y2]
  | Text x y => [x; y]
  | Line x1 y1 x2 y2 => [x1; y1; x2; y2]
  end.

(** [canvas.coords(i)]: the empty list when there is no such item. *)
Definition coords (i : Z) (c : Canvas) : list Z :=
  match items c !! i with
  | Some it => shape_coords (item_shape it)
  | None => []
  end.

(** [canvas.coords(i, x1, y1, x2, y2)] on a line. *)
Definition set_line_coords (i x1 y1 x2 y2 : Z) (c : Canvas) : Canvas :=
  {| next_id := next_id c;
     items := alter (fun it => {| item_shape := Line x1 y1 x2 y2;
                                  item_tags := item_tags it |}) i (items c) |}.

(** [canvas.delete(i)] by id and [canvas.delete(tag)] by tag. *)
Definition delete (i : Z) (c : Canvas) : Canvas :=
  {| next_id := next_id c; items := base.delete i (items c) |}.

Definition has_tag (t : tag) (it : canvas_item) : bool :=
  bool_decide (t ∈ item_tags it).

Definition delete_tag (t : tag) (c : Canvas) : Canvas :=
  {| next_id := next_id c;
     items := base.filter (fun kv => has_tag t kv.2 = false) (items c) |}.

(** [canvas.find_withtag(i)] by id and [canvas.find_withtag(tag)] by tag. *)
Definition find_withid (i : Z) (c : Canvas) : list Z :=
  match items c !! i with Some _ => [i] | None => [] end.

Definition find_withtag (t : tag) (c : Canvas) : list Z :=
  (map_to_list (base.filter (fun kv => has_tag t kv.2 = true) (items c))).*1.

End Tk.

(* ===================================================================== *)
(** * The [random] module fragment                                        *)
(* ===================================================================== *)

Module Random.

(** The process-wide generator, seen as the raw draws still to come: draw
    number [n] of a generator [g] is [g n].  Nothing is assumed about the
    draws, so a statement about every [source] covers every seed. *)
Definition source : Type := nat -> Z.

Definition draw (g : source) : Z * source := (g O, fun n => g (S n)).

(** [_randbelow(n)]: some integer in [0, n). *)
Definition randbelow (n : nat) (g : source) : nat * source :=
  let (raw, g') := draw g in (Z.to_nat (raw mod Z.of_nat n), g').

Section Floats.
Context {F : Type} `{Py.Float F}.

(** [random()]: a multiple of 2^-53 in [0, 1). *)
Definition random (g : source) : F * source :=
  let (raw, g') := draw g in
  (Py.fdiv (Py.of_Z (raw mod 2 ^ 53)) (Py.of_Z (2 ^ 53)), g').

(** [uniform(a, b)] is [a + (b - a) * random()]. *)
Definition uniform (a b : F) (g : source) : F * source :=
  let (r, g') := random g in
  (Py.fadd a (Py.fmul (Py.fsub b a) r), g').

End Floats.

(** The selection loop of [sample] for a population no larger than its
    [setsize] of 21 (the branch taken for [k] at most 5): with [m] = n - i
    slots of [pool] still unselected,
      j = randbelow(n - i); result[i] = pool[j]; pool[j] = pool[n - i - 1]. *)
Fixpoint sample_pool {A : Type} (k m : nat) (pool : list A) (g : source)
  : list A * source :=
  match k with
  | O => ([], g)
  | S k' =>
      let (j, g1) := randbelow m g in
      match pool !! j, pool !! (m - 1)%nat with
      | Some x, Some y =>
          let (rest, g2) := sample_pool k' (m - 1)%nat (<[j := y]> pool) g1 in
          (x :: rest, g2)
      | _, _ => ([], g1)
      end
  end.

(** [sample(population, k)] for [k] at most 5 and a population of at most
    21 elements, as in its one call here (3 elements, [k] = 2): ValueError
    when [k] exceeds the population, else the selection loop on a copy. *)
Definition sample {A : Type} (population : list A) (k : nat) (g : source)
  : Py.outcome (list A) * source :=
  let n := length population in
  if (n <? k)%nat then (Py.Raised Py.ValueError, g)
  else let (result, g') := sample_pool k n population g in
       (Py.Returned result, g').

End Random.

(* ===================================================================== *)
(** * class Node                                                          *)
(* ===================================================================== *)

Module Node.
Section Node.
Context {F : Type} `{Py.Float F}.

(** Whether the image file of that name opens and decodes. *)
Variable image_opens : string -> bool.

(** [GridApp.NODE_IMAGES] *)
Definition NODE_IMAGES : gmap string string :=
  list_to_map
    [("Generator", "generator.png"); ("Substation", "substation.png");
     ("City", "city.png"); ("Building", "building.png");
     ("Coal Plant", "coalplant.png"); ("Natural Gas", "naturalgas.png");
     ("Nuclear Plant", "nuclearplant.png"); ("Petroleum", "petroleum.png");
     ("Hydro", "hydro.png")].

(** A node object.  Its [canvas] attribute is the one canvas of the
    application, which the application state holds; [image] is the loaded
    picture, named by its file, or [None]. *)
Record Node : Type := {
  node_type : string;
  size : Z;
  energy : F;
  image : option string;
  item : Z
}.

Definition load_image (node_type : string) : option string :=
  match NODE_IMAGES !! node_type with
  | Some image_filename =>
      if image_opens image_filename then Some image_filename else None
  | None => None
  end.

(** [draw] puts the picture (or a grey square) and, under it, the energy
    label on the canvas, and returns the id of the former. *)
Definition draw (node_type : string) (size : Z) (image : option string)
    (x y : Z) (canvas : Tk.Canvas) : Z * Tk.Canvas :=
  let (item, canvas1) :=
    match image with
    | Some _ => Tk.create_image x y [Tk.TagType node_type; Tk.TagNode] canvas
    | None => Tk.create_rectangle x y (x + size) (y + size)
                [Tk.TagType node_type; Tk.TagNode] canvas
    end in
  let (_, canvas2) :=
    Tk.create_text (x + size / 2) (y + size + 10)
      [Tk.TagEnergy; Tk.TagEnergyOf item] canvas1 in
  (item, canvas2).

(** [Node(node_type, canvas, x, y, energy)] *)
Definition init (node_type : string) (x y : Z) (energy : F)
    (canvas : Tk.Canvas) : Node * Tk.Canvas :=
  let size := 50 in
  let image := load_image node_type in
  let (item, canvas') := draw node_type size image x y canvas in
  ({| node_type := node_type; size := size; energy := energy;
      image := image; item := item |}, canvas').

(** [update_energy] overwrites the energy (and the text of the label,
    which the canvas model does not record). *)
Definition update_energy (energy' : F) (self : Node) : Node :=
  {| node_type := node_type self; size := size self; energy := energy';
     image := image self; item := item self |}.

End Node.
End Node.

Arguments Node.Node F : clear implicits.

(* ===================================================================== *)
(** * class GridSimulator                                                 *)
(* ===================================================================== *)

Module GridSimulator.
Section GridSimulator.
Context {F : Type} `{Py.Float F}.

(** The dictionary [{'nodes': [...], 'connections': [...]}]. *)
Record topology : Type := {
  nodes : list (Node.Node F);
  connections : list (Z * Z)
}.

(** The dictionary [simulate_performance] returns. *)
Record performance : Type := {
  total_energy_output : F;
  total_energy_demand : F;
  average_efficiency : F;
  load_balance : F
}.

Definition producers : list string :=
  ["Generator"; "Coal Plant"; "Natural Gas"; "Nuclear Plant"; "Petroleum"; "Hydro"].

Definition consumers : list string := ["City"; "Building"].

(** [next((node for node in nodes if node.item == i), None)] *)
Definition node_with_item (i : Z) (ns : list (Node.Node F)) : option (Node.Node F) :=
  Py.next (fun node => Node.item node =? i) ns.

(** The body of [if start_node and end_node:]. *)
Definition connection_efficiency (start_node end_node : Node.Node F) : Py.outcome F :=
  let energy_diff := Py.fabs (Py.fsub (Node.energy start_node) (Node.energy end_node)) in
  q ← Py.truediv energy_diff
        (Py.max3 (Py.fabs (Node.energy start_node))
                 (Py.fabs (Node.energy end_node)) (Py.of_Z 1));
  mret (Py.fsub (Py.of_Z 1) q).

(** The [for start, end in connections] loop, carrying [total_efficiency]. *)
Fixpoint efficiency_loop (ns : list (Node.Node F)) (conns : list (Z * Z))
    (total_efficiency : F) : Py.outcome F :=
  match conns with
  | [] => mret total_efficiency
  | (start, end_) :: rest =>
      match node_with_item start ns, node_with_item end_ ns with
      | Some start_node, Some end_node =>
          e ← connection_efficiency start_node end_node;
          efficiency_loop ns rest (Py.fadd total_efficiency e)
      | _, _ => efficiency_loop ns rest total_efficiency
      end
  end.

Definition calculate_path_efficiency (grid_topology : topology) : Py.outcome F :=
  match connections grid_topology with
  | [] => mret (Py.dec 5 1)
  | _ =>
      let connection_count := Z.of_nat (length (connections grid_topology)) in
      total_efficiency ←
        efficiency_loop (nodes grid_topology) (connections grid_topology) (Py.of_Z 0);
      if 0 <? connection_count
      then Py.truediv_int total_efficiency connection_count
      else mret (Py.dec 5 1)
  end.

Definition energy_of (types : list string) (ns : list (Node.Node F)) : F :=
  Py.sum (map Node.energy
            (List.filter (fun node => Py.str_in (Node.node_type node) types) ns)).

Definition simulate_performance (grid_topology : topology) : Py.outcome performance :=
  let total_energy := energy_of producers (nodes grid_topology) in
  let total_demand := energy_of consumers (nodes grid_topology) in
  efficiency ← calculate_path_efficiency grid_topology;
  q ← Py.truediv total_energy (Py.fadd total_demand (Py.dec 1 3));
  let load_balance := Py.min2 (Py.of_Z 1) q in
  mret {| total_energy_output := Py.fmul total_energy efficiency;
          total_energy_demand := total_demand;
          average_efficiency := Py.fmul efficiency (Py.of_Z 100);
          load_balance := Py.fmul load_balance (Py.of_Z 100) |}.

(** The dictionary [perform_security_assessment] returns. *)
Record assessment : Type := {
  vulnerability_score : F;
  suggestions : list string
}.

Definition suggestion_catalog : list string :=
  ["Implement advanced encryption"; "Upgrade firewall systems";
   "Conduct regular security audits"].

Definition perform_security_assessment (g : Random.source)
    : Py.outcome assessment * Random.source :=
  let (vulnerability_score, g1) := Random.uniform (Py.of_Z 1) (Py.of_Z 10) g in
  let suggestions := suggestion_catalog in
  let (sampled, g2) := Random.sample suggestions 2 g1 in
  (chosen ← sampled;
   mret {| vulnerability_score := Py.fround 2 vulnerability_score;
           suggestions := chosen |}, g2).

End GridSimulator.
End GridSimulator.

Arguments GridSimulator.topology F : clear implicits.
Arguments GridSimulator.performance F : clear implicits.
Arguments GridSimulator.assessment F : clear implicits.

(* ===================================================================== *)
(** * class GridApp                                                       *)
(* ===================================================================== *)

Module GridApp.
Section GridApp.
Context {F : Type} `{Py.Float F}.

(** The outside world: which image files open, and tkinter's hit test
    [canvas.find_overlapping] applied to a list of coordinates, of which
    nothing is assumed. *)
Variable image_opens : string -> bool.
Variable find_overlapping : Tk.Canvas -> list Z -> list Z.

Definition GRID_SIZE : Z := 50.

(** The attributes of the application that the editing operations read or
    write.  The canvas is the single store all nodes draw on. *)
Record GridApp : Type := {
  canvas : Tk.Canvas;
  image_references : gmap Z string;
  grid_topology : GridSimulator.topology F;
  node_type_var : string;
  node_coords : gmap Z (Z * Z)
}.

Definition nodes (self : GridApp) := GridSimulator.nodes (grid_topology self).
Definition connections (self : GridApp) := GridSimulator.connections (grid_topology self).

(** [setup_variables], on a fresh canvas. *)
Definition setup_variables : GridApp :=
  {| canvas := Tk.empty;
     image_references := ∅;
     grid_topology := {| GridSimulator.nodes := []; GridSimulator.connections := [] |};
     node_type_var := "Generator";
     node_coords := ∅ |}.

(** Choosing a type in the combo box bound to [node_type_var]. *)
Definition choose (node_type : string) (self : GridApp) : GridApp :=
  {| canvas := canvas self;
     image_references := image_references self;
     grid_topology := grid_topology self;
     node_type_var := node_type;
     node_coords := node_coords self |}.

(** [add_node(event)], with the pointer at ([event_x], [event_y]).  The
    two roundings are the exact ones of [Py.round_div], which for pointer
    coordinates are what the code computes on doubles. *)
Definition add_node (event_x event_y : Z) (self : GridApp) : Py.outcome GridApp :=
  let snapped_x := Py.round_div event_x GRID_SIZE * GRID_SIZE in
  let snapped_y := Py.round_div event_y GRID_SIZE * GRID_SIZE in
  let (new_node, canvas') :=
    Node.init image_opens (node_type_var self) snapped_x snapped_y (Py.of_Z 0)
      (canvas self) in
  if Node.item new_node =? 0 then
    mret {| canvas := canvas';
            image_references := image_references self;
            grid_topology := grid_topology self;
            node_type_var := node_type_var self;
            node_coords := node_coords self |}
  else
    mret {| canvas := canvas';
            image_references :=
              match Node.image new_node with
              | Some img => <[Node.item new_node := img]> (image_references self)
              | None => image_references self
              end;
            grid_topology :=
              {| GridSimulator.nodes := nodes self ++ [new_node];
                 GridSimulator.connections := connections self |};
            node_type_var := node_type_var self;
            node_coords :=
              <[Node.item new_node := (snapped_x, snapped_y)]> (node_coords self) |}.

(** The connection lines whose extent the hit test says [item] overlaps. *)
Definition overlapping_connections (item : Z) (c : Tk.Canvas) : list Z :=
  List.filter
    (fun conn => bool_decide (item ∈ find_overlapping c (Tk.coords conn c)))
    (Tk.find_withtag Tk.TagConnection c).

(** [update_connections(item, x, y)] moves one end of each such line.
    Only lines are ever tagged as connections, so [coords] has the four
    entries the source indexes. *)
Definition update_connections (item x y : Z) (c : Tk.Canvas) : Tk.Canvas :=
  fold_left
    (fun c conn =>
       match Tk.coords conn c with
       | [c0; c1; c2; c3] =>
           if (c0 =? x) && (c1 =? y)
           then Tk.set_line_coords conn (x + GRID_SIZE / 2) (y + GRID_SIZE / 2) c2 c3 c
           else Tk.set_line_coords conn c0 c1 (x + GRID_SIZE / 2) (y + GRID_SIZE / 2) c
       | _ => c
       end)
    (overlapping_connections item c) c.

(** [update_node_position(item, x, y)]: the first node whose item is
    [item] is replaced, at its index, by a newly constructed node of the
    same type and energy. *)
Definition update_node_position (item x y : Z) (self : GridApp) : Py.outcome GridApp :=
  let '(nodes', canvas', node_coords') :=
    match list_find (fun node => Node.item node = item) (nodes self) with
    | Some (i, node) =>
        let node_type := Node.node_type node in
        let energy := Node.energy node in
        let (new_node, canvas') := Node.init image_opens node_type x y energy (canvas self) in
        (<[i := new_node]> (nodes self), canvas', <[item := (x, y)]> (node_coords self))
    | None => (nodes self, canvas self, node_coords self)
    end in
  mret {| canvas := update_connections item x y canvas';
          image_references := image_references self;
          grid_topology :=
            {| GridSimulator.nodes := nodes';
               GridSimulator.connections := connections self |};
          node_type_var := node_type_var self;
          node_coords := node_coords' |}.

(** [remove_connections(item)]: the canvas lines the hit test finds, and
    every connection with [item] at either end. *)
Definition remove_connections (item : Z) (self : GridApp) : Py.outcome GridApp :=
  let connections_to_remove := overlapping_connections item (canvas self) in
  mret {| canvas := fold_left (fun c conn => Tk.delete conn c) connections_to_remove (canvas self);
          image_references := image_references self;
          grid_topology :=
            {| GridSimulator.nodes := nodes self;
               GridSimulator.connections :=
                 List.filter (fun '(start, end_) => negb (start =? item) && negb (end_ =? item))
                   (connections self) |};
          node_type_var := node_type_var self;
          node_coords := node_coords self |}.

Definition remove_node (item : Z) (self : GridApp) : Py.outcome GridApp :=
  remove_connections item
    {| canvas := Tk.delete_tag (Tk.TagEnergyOf item) (Tk.delete item (canvas self));
       image_references := image_references self;
       grid_topology :=
         {| GridSimulator.nodes :=
              List.filter (fun node => negb (Node.item node =? item)) (nodes self);
            GridSimulator.connections := connections self |};
       node_type_var := node_type_var self;
       node_coords := delete item (node_coords self) |}.

(** [add_connection(start_item, end_item)].  ([tag_lower] changes the
    stacking order only, which the canvas model does not record.) *)
Definition add_connection (start_item end_item : Z) (self : GridApp) : Py.outcome GridApp :=
  if negb (start_item =? end_item) then
    let start_coords := Tk.coords start_item (canvas self) in
    let end_coords := Tk.coords end_item (canvas self) in
    match start_coords, end_coords with
    | s0 :: s1 :: _, e0 :: e1 :: _ =>
        let (start_x, start_y) := (s0 + GRID_SIZE / 2, s1 + GRID_SIZE / 2) in
        let (end_x, end_y) := (e0 + GRID_SIZE / 2, e1 + GRID_SIZE / 2) in
        let (line, canvas') :=
          Tk.create_line start_x start_y end_x end_y [Tk.TagConnection] (canvas self) in
        mret {| canvas := canvas';
                image_references := image_references self;
                grid_topology :=
                  {| GridSimulator.nodes := nodes self;
                     GridSimulator.connections := connections self ++ [(start_item, end_item)] |};
                node_type_var := node_type_var self;
                node_coords := node_coords self |}
    | _, _ => mret self
    end
  else mret self.

(** [remove_connection(item)] deletes the clicked line and keeps the
    connections whose two end items are still on the canvas. *)
Definition remove_connection (item : Z) (self : GridApp) : Py.outcome GridApp :=
  let canvas' := Tk.delete item (canvas self) in
  mret {| canvas := canvas';
          image_references := image_references self;
          grid_topology :=
            {| GridSimulator.nodes := nodes self;
               GridSimulator.connections :=
                 List.filter
                   (fun '(start, end_) =>
                      match Tk.find_withid start canvas', Tk.find_withid end_ canvas' with
                      | _ :: _, _ :: _ => true
                      | _, _ => false
                      end)
                   (connections self) |};
          node_type_var := node_type_var self;
          node_coords := node_coords self |}.

(** [set_node_energy()]: [current] is what [find_withtag("current")]
    answers (the item under the pointer, if any) and [answer] what the
    dialog returns ([None] when cancelled). *)
Definition set_node_energy (current : list Z) (answer : option F) (self : GridApp)
    : Py.outcome GridApp :=
  match current with
  | [] => Py.Raised Py.IndexError
  | item :: _ =>
      match list_find (fun n => Node.item n = item) (nodes self), answer with
      | Some (i, node), Some energy =>
          mret {| canvas := canvas self;
                  image_references := image_references self;
                  grid_topology :=
                    {| GridSimulator.nodes := <[i := Node.update_energy energy node]> (nodes self);
                       GridSimulator.connections := connections self |};
                  node_type_var := node_type_var self;
                  node_coords := node_coords self |}
      | _, _ => mret self
      end
  end.

(** [simulate_performance()] of the application: [None] stands for the
    warning box it shows instead of simulating when there are no nodes. *)
Definition simulate_performance (self : GridApp)
    : Py.outcome (option (GridSimulator.performance F)) :=
  match nodes self with
  | [] => mret None
  | _ => performance ← GridSimulator.simulate_performance (grid_topology self);
         mret (Some performance)
  end.

End GridApp.
End GridApp.

Arguments GridApp.GridApp F : clear implicits.

(* ===================================================================== *)
(** * The two arithmetics                                                 *)
(* ===================================================================== *)

(** IEEE 754 binary64 with round to nearest even, the [float] of CPython. *)
Module Binary64.

Definition prec : Z := 53.
Definition emax : Z := 1024.

Definition of_Z (z : Z) : spec_float := binary_normalize prec emax z 0 false.

(** [round(x, n)]: the double nearest to the n-digit decimal nearest to the
    exact value of [x] (ties to even); infinities, NaN and zeros are
    returned as they are. *)
Definition fround (n : nat) (x : spec_float) : spec_float :=
  match x with
  | S754_finite s m e =>
      let scaled := (Zpos m # 1) * (10 ^ Z.of_nat n # 1) * (2 # 1) ^ e in
      let r := SFdiv prec emax
                 (of_Z (Py.round_div (Qnum scaled) (Zpos (Qden scaled))))
                 (of_Z (10 ^ Z.of_nat n)) in
      if s then SFopp r else r
  | _ => x
  end%Q.



(** 2^1023, the greatest power of two of the format. *)
Definition huge : spec_float := S754_finite false 4503599627370496 971.

(** 2^970 (about 9.98e291): a sum of fewer than 2^53 doubles below it
    does not overflow. *)
Definition large : spec_float := S754_finite false 4503599627370496 918.

#[global] Instance binary64 : Py.Float spec_float := {|
  Py.of_Z := of_Z;
  Py.fadd := SFadd prec emax;
  Py.fsub := SFsub prec emax;
  Py.fmul := SFmul prec emax;
  Py.fdiv := SFdiv prec emax;
  Py.fabs := SFabs;
  Py.fltb := SFltb;
  Py.feqb := SFeqb;
  Py.fround := fround
|}.

End Binary64.

(** The values of binary64 as integers, to reason about the rounding of
    the operations.  [S754_finite s m e] stands for (-1)^s * m * 2^e. *)
Module Ieee.

Definition emin : Z := SpecFloat.emin Binary64.prec Binary64.emax.
Definition fexp (e : Z) : Z := SpecFloat.fexp Binary64.prec Binary64.emax e.

(** All finite values, and the exact results of the operations on them,
    are whole multiples of 2^-bias. *)
Definition bias : Z := 2200.

(** The value of a float with its sign, in units of 2^-bias (0 for the
    infinities and NaN). *)
Definition sval (x : spec_float) : Z :=
  match x with
  | S754_finite s m e => (if s then -1 else 1) * (Zpos m * 2 ^ (e + bias))
  | _ => 0
  end.

(** The value 1, in units. *)
Definition unit : Z := 2 ^ bias.

Definition is_fin (x : spec_float) : bool :=
  match x with
  | S754_zero _ | S754_finite _ _ _ => true
  | _ => false
  end.

Definition is_nan (x : spec_float) : bool :=
  match x with S754_nan => true | _ => false end.

Definition sign (x : spec_float) : bool :=
  match x with
  | S754_zero s | S754_infinity s | S754_finite s _ _ => s
  | S754_nan => false
  end.

(** A double as the machine has it, zero or finite: the mantissa and the
    exponent are the canonical ones. *)
Definition finite (x : spec_float) : Prop :=
  valid_binary Binary64.prec Binary64.emax x = true /\ is_fin x = true.

(** Zero or a finite value of the given sign. *)
Definition nonneg (x : spec_float) : bool :=
  match x with
  | S754_zero _ | S754_finite false _ _ => true
  | _ => false
  end.

Definition nonpos (x : spec_float) : bool :=
  match x with
  | S754_zero _ | S754_finite true _ _ => true
  | _ => false
  end.

(** Two finite values that are not of opposite sign. *)
Definition same_sign (a b : spec_float) : bool :=
  (nonneg a && nonneg b) || (nonpos a && nonpos b).

(** [V] units is a value of the format (below the overflow threshold or
    not). *)
Definition representable (V : Z) : Prop :=
  exists m u, V = m * 2 ^ (u + bias) /\ emin <= u /\ 0 <= m < 2 ^ Binary64.prec.

Definition overflow : Z := 2 ^ (Binary64.emax + bias).

(** [r] is the magnitude X/D units (D > 0) rounded to one of its two
    neighbours in the format and given the sign [sx]: whatever value of
    the format bounds X/D on one side bounds [r] on that side. *)
Definition rounded (sx : bool) (X D : Z) (r : spec_float) : Prop :=
  valid_binary Binary64.prec Binary64.emax r = true /\ is_nan r = false /\
  sign r = sx /\
  (forall V, representable V -> V < overflow -> X <= V * D ->
             is_fin r = true /\ Z.abs (sval r) <= V) /\
  (forall V, representable V -> V * D <= X ->
             is_fin r = false \/ V <= Z.abs (sval r)).

(** [r] is the exact value N/D units (D > 0) rounded to one of its two
    neighbours in the format, with the sign of N. *)
Definition faithful (N D : Z) (r : spec_float) : Prop :=
  valid_binary Binary64.prec Binary64.emax r = true /\ is_nan r = false /\
  (0 < N -> sign r = false) /\ (N < 0 -> sign r = true) /\
  (forall V, representable V -> V < overflow -> Z.abs N <= V * D ->
             is_fin r = true /\ Z.abs (sval r) <= V) /\
  (forall V, representable V -> V * D <= Z.abs N ->
             is_fin r = false \/ V <= Z.abs (sval r)).

(** The record [mrs] holds the quotient of [n] by [d], and flags nothing
    exactly when the division is exact. *)
Definition inv (n d : Z) (mrs : shr_record) : Prop :=
  0 <= n /\ 0 < d /\ shr_m mrs = n / d /\
  ((shr_r mrs = false /\ shr_s mrs = false) <-> n mod d = 0).

(** A value between 0 and 1. *)
Definition fraction (x : spec_float) : Prop :=
  finite x /\ 0 <= sval x <= unit.

End Ieee.

(** Exact rational arithmetic. *)
Module Rational.

Definition fround (n : nat) (x : Q) : Q :=
  let scaled := (x * (10 ^ Z.of_nat n # 1))%Q in
  Py.round_div (Qnum scaled) (Zpos (Qden scaled)) # Pos.of_nat (10 ^ n).

#[global] Instance rational : Py.Float Q := {|
  Py.of_Z := inject_Z;
  Py.fadd := Qplus;
  Py.fsub := Qminus;
  Py.fmul := Qmult;
  Py.fdiv := Qdiv;
  Py.fabs := Qabs;
  Py.fltb := fun a b => negb (Qle_bool b a);
  Py.feqb := Qeq_bool;
  Py.fround := fround
|}.

End Rational.


(* ===================================================================== *)
(** * What the path efficiency is specified to be                         *)
(* ===================================================================== *)

Module Spec.
Section Spec.
Context {F : Type} `{Py.Float F}.

(** The two end nodes of a connection, when both lookups succeed. *)
Definition endpoints (ns : list (Node.Node F)) (conn : Z * Z)
    : option (Node.Node F * Node.Node F) :=
  a ← GridSimulator.node_with_item conn.1 ns;
  b ← GridSimulator.node_with_item conn.2 ns;
  Some (a, b).

(** 1 - |energyA - energyB| / max(|energyA|, |energyB|, 1) *)
Definition edge_efficiency (ab : Node.Node F * Node.Node F) : F :=
  let a := Node.energy ab.1 in
  let b := Node.energy ab.2 in
  Py.fsub (Py.of_Z 1)
    (Py.fdiv (Py.fabs (Py.fsub a b)) (Py.max3 (Py.fabs a) (Py.fabs b) (Py.of_Z 1))).

(** The specification's formula for a topology with edges: the sum, over
    exactly the edges whose two lookups succeed, of the per-edge
    efficiency, divided by the number of all edges. *)
Definition path_efficiency (t : GridSimulator.topology F) : F :=
  Py.fdiv
    (Py.sum (map edge_efficiency
               (omap (endpoints (GridSimulator.nodes t)) (GridSimulator.connections t))))
    (Py.of_Z (Z.of_nat (length (GridSimulator.connections t)))).

(** A node carrying item [i] is present. *)
Definition has_node (i : Z) (ns : list (Node.Node F)) : bool :=
  existsb (fun node => Node.item node =? i) ns.

(** The connection has [i] at one of its ends. *)
Definition references (i : Z) (conn : Z * Z) : bool :=
  (conn.1 =? i) || (conn.2 =? i).

(** The invariant: both ends of every edge are present nodes. *)
Definition edges_closed (t : GridSimulator.topology F) : bool :=
  forallb (fun conn => has_node conn.1 (GridSimulator.nodes t) &&
                       has_node conn.2 (GridSimulator.nodes t))
          (GridSimulator.connections t).

End Spec.
End Spec.

(** The two facts about the arithmetic that the engine's divisions rest on. *)
Class FloatLaws (F : Type) `{Py.Float F} : Prop := {
  one_is_not_zero : Py.feqb (Py.of_Z 1) (Py.of_Z 0) = false;
  zero_is_below_one : forall m, Py.feqb m (Py.of_Z 0) = true -> Py.fltb m (Py.of_Z 1) = true
}.

(* ===================================================================== *)
(** * Editing sessions in general                                         *)
(* ===================================================================== *)

Module Editor.
Section Editor.
Context {F : Type} `{Py.Float F}.
Variable image_opens : string -> bool.
Variable find_overlapping : Tk.Canvas -> list Z -> list Z.

(** One user action that returns normally. *)
Inductive step : GridApp.GridApp F -> GridApp.GridApp F -> Prop :=
| step_choose app node_type :
    step app (GridApp.choose node_type app)
| step_add_node app app' x y :
    GridApp.add_node image_opens x y app = Py.Returned app' -> step app app'
| step_update_node_position app app' item x y :
    GridApp.update_node_position image_opens find_overlapping item x y app
      = Py.Returned app' -> step app app'
| step_remove_node app app' item :
    GridApp.remove_node find_overlapping item app = Py.Returned app' -> step app app'
| step_add_connection app app' start_item end_item :
    GridApp.add_connection start_item end_item app = Py.Returned app' -> step app app'
| step_remove_connection app app' item :
    GridApp.remove_connection item app = Py.Returned app' -> step app app'
| step_set_node_energy app app' current answer :
    GridApp.set_node_energy current answer app = Py.Returned app' -> step app app'.

(** The states an editing session can be in. *)
Definition reachable (app : GridApp.GridApp F) : Prop :=
  rtc step GridApp.setup_variables app.

(** No two nodes share an item, and every node's item was handed out by
    the canvas. *)
Definition items_fresh (app : GridApp.GridApp F) : Prop :=
  NoDup (map Node.item (GridApp.nodes app)) /\
  Forall (fun n => Node.item n < Tk.next_id (GridApp.canvas app)) (GridApp.nodes app).

End Editor.
End Editor.

(* ===================================================================== *)
(** * Editing sessions used as concrete inputs                            *)
(* ===================================================================== *)

Module Scenario.

(** A concrete outside world: every image file opens, and the hit test
    answers the items whose first coordinate pair lies in the rectangle. *)
Definition image_opens (filename : string) : bool := true.

Definition anchored_in (x1 y1 x2 y2 : Z) (it : Tk.canvas_item) : bool :=
  match Tk.shape_coords (Tk.item_shape it) with
  | x :: y :: _ =>
      (Z.min x1 x2 <=? x) && (x <=? Z.max x1 x2) &&
      (Z.min y1 y2 <=? y) && (y <=? Z.max y1 y2)
  | _ => false
  end.

Definition find_overlapping (c : Tk.Canvas) (cs : list Z) : list Z :=
  match cs with
  | [x1; y1; x2; y2] =>
      (map_to_list
         (base.filter (fun kv => anchored_in x1 y1 x2 y2 kv.2 = true) (Tk.items c))).*1
  | _ => []
  end.

Section Sessions.
Context {F : Type} `{Py.Float F}.

(** A generator (canvas item 1, its label 2) with energy [e_gen] and a
    city (item 3, label 4) with energy [e_city]. *)
Definition two_nodes (e_gen e_city : F) : Py.outcome (GridApp.GridApp F) :=
  app ← GridApp.add_node image_opens 110 90 GridApp.setup_variables;
  app ← GridApp.add_node image_opens 290 110 (GridApp.choose "City" app);
  app ← GridApp.set_node_energy [1] (Some e_gen) app;
  GridApp.set_node_energy [3] (Some e_city) app.

(** The same two nodes joined by a connection (canvas line 5). *)
Definition connected_pair (e_gen e_city : F) : Py.outcome (GridApp.GridApp F) :=
  app ← two_nodes e_gen e_city;
  GridApp.add_connection 1 3 app.

(** The generator of the connected pair dragged to (200, 100). *)
Definition generator_moved (e_gen e_city : F) : Py.outcome (GridApp.GridApp F) :=
  app ← connected_pair e_gen e_city;
  GridApp.update_node_position image_opens find_overlapping 1 200 100 app.

(** The generator of the connected pair deleted. *)
Definition generator_removed (e_gen e_city : F) : Py.outcome (GridApp.GridApp F) :=
  app ← connected_pair e_gen e_city;
  GridApp.remove_node find_overlapping 1 app.

(** A single city whose energy is set to [e]. *)
Definition lone_city (e : F) : Py.outcome (GridApp.GridApp F) :=
  app ← GridApp.add_node image_opens 100 100 (GridApp.choose "City" GridApp.setup_variables);
  GridApp.set_node_energy [1] (Some e) app.

(** The topology an outcome ends in (the empty one if it raised). *)
Definition topology_of (m : Py.outcome (GridApp.GridApp F)) : GridSimulator.topology F :=
  match m with
  | Py.Returned app => GridApp.grid_topology app
  | Py.Raised _ => {| GridSimulator.nodes := []; GridSimulator.connections := [] |}
  end.

(** The application an outcome ends in (the initial one if it raised). *)
Definition app_of (m : Py.outcome (GridApp.GridApp F)) : GridApp.GridApp F :=
  match m with
  | Py.Returned app => app
  | Py.Raised _ => GridApp.setup_variables
  end.

End Sessions.
End Scenario.

(* ===================================================================== *)
(** * More of the Python runtime                                          *)
(* ===================================================================== *)

Module Builtins.

(** [l[i]]: a negative index counts from the end; IndexError outside
    [-len(l), len(l)). *)
Definition getitem {A : Type} (l : list A) (i : Z) : Py.outcome A :=
  let n := Z.of_nat (length l) in
  let j := if i <? 0 then i + n else i in
  if (0 <=? j) && (j <? n) then
    match l !! Z.to_nat j with
    | Some x => Py.Returned x
    | None => Py.Raised Py.IndexError
    end
  else Py.Raised Py.IndexError.

(** An index Python accepts for a list of length [n]. *)
Definition index_ok (n : nat) (i : Z) : bool :=
  (- Z.of_nat n <=? i) && (i <? Z.of_nat n).

(** [max(a, b)]: the first argument unless the second is greater. *)
Definition max2 {F : Type} `{Py.Float F} (a b : F) : F := if Py.fltb a b then b else a.

(** [math.sqrt] on an [int]: the argument is converted to a float first,
    which raises OverflowError when it is too large for one; ValueError
    when it is negative. *)
Class Sqrt (F : Type) : Type := math_sqrt : Z -> Py.outcome F.

(** [range(0, stop, step)] for a positive step. *)
Definition range0 (stop step : Z) : list Z :=
  map (fun k => Z.of_nat k * step) (seq 0 (Z.to_nat ((stop + step - 1) / step))).

End Builtins.

#[global] Instance binary64_sqrt : Builtins.Sqrt spec_float := fun n =>
  let x := Binary64.of_Z n in
  if Ieee.is_fin x then
    if n <? 0 then Py.Raised Py.ValueError
    else Py.Returned (SFsqrt Binary64.prec Binary64.emax x)
  else Py.Raised Py.OverflowError.

(* ===================================================================== *)
(** * grid_simulation.py: class GridSimulator                             *)
(* ===================================================================== *)

(** The simulator of grid_simulation.py works on nodes that are tuples
    [(node_type, x, y)] and on connections that are pairs of indices into
    the node list.  Its writes to the log file are left out. *)
Module grid_simulation.
Section grid_simulation.
Context {F : Type} `{Py.Float F} `{Builtins.Sqrt F}.

Definition node : Type := string * Z * Z.

Record topology : Type := {
  nodes : list node;
  connections : list (Z * Z)
}.

Record performance : Type := {
  total_energy_output : F;
  average_efficiency : F;
  load_balance : F
}.

(** The pair (energy output, efficiency) of a node type, both [int]. *)
Definition get_node_performance (node_type : string) : Z * Z :=
  if String.eqb node_type "Generator" then (1000, 90)
  else if String.eqb node_type "Substation" then (500, 95)
  else if String.eqb node_type "City" then (-300, 85)
  else if String.eqb node_type "Building" then (-100, 80)
  else (0, 0).

(** The [for connection in connections] loop, carrying [total_loss]. *)
Fixpoint line_loss_loop (ns : list node) (conns : list (Z * Z)) (total_loss : F)
    : Py.outcome F :=
  match conns with
  | [] => mret total_loss
  | (start_node, end_node) :: rest =>
      s ← Builtins.getitem ns start_node;
      e ← Builtins.getitem ns end_node;
      let '(start_type, start_x, start_y) := s in
      let '(end_type, end_x, end_y) := e in
      distance ← Builtins.math_sqrt ((end_x - start_x) ^ 2 + (end_y - start_y) ^ 2);
      q ← Py.truediv_int distance 100;
      let loss_percentage := Py.fmul (Py.dec 5 2) q in
      line_loss_loop ns rest (Py.fadd total_loss (Py.fmul loss_percentage (Py.of_Z 1000)))
  end.

Definition calculate_line_loss (grid_topology : topology) : Py.outcome F :=
  line_loss_loop (nodes grid_topology) (connections grid_topology) (Py.of_Z 0).

(** [sum(1000 for node in nodes if node[0] == "Generator")] *)
Definition total_generation (ns : list node) : Z :=
  fold_left Z.add
    (map (fun _ => 1000) (List.filter (fun n : node => String.eqb n.1.1 "Generator") ns)) 0.

(** [sum(300 if node[0] == "City" else 100 for node in nodes
         if node[0] in ["City", "Building"])] *)
Definition total_consumption (ns : list node) : Z :=
  fold_left Z.add
    (map (fun n : node => if String.eqb n.1.1 "City" then 300 else 100)
         (List.filter (fun n : node => Py.str_in n.1.1 ["City"; "Building"]) ns)) 0.

Definition calculate_load_balance (grid_topology : topology) : Py.outcome F :=
  let total_generation := total_generation (nodes grid_topology) in
  let total_consumption := total_consumption (nodes grid_topology) in
  if 0 <? total_generation then
    q ← Py.truediv_int (Py.of_Z (Z.abs (total_generation - total_consumption)))
          total_generation;
    mret (Py.fmul (Py.fsub (Py.of_Z 1) q) (Py.of_Z 100))
  else mret (Py.of_Z 0).

(** The [for node in nodes] loop, carrying the two [int] totals. *)
Definition node_totals (ns : list node) : Z * Z :=
  fold_left
    (fun totals (n : node) =>
       let '(energy_output, efficiency) := get_node_performance n.1.1 in
       (totals.1 + energy_output, totals.2 + efficiency))
    ns (0, 0).

Definition simulate_performance (grid_topology : topology) : Py.outcome performance :=
  let '(total_energy_output, total_efficiency) := node_totals (nodes grid_topology) in
  total_line_loss ← calculate_line_loss grid_topology;
  let total_energy_output := Py.fsub (Py.of_Z total_energy_output) total_line_loss in
  average_efficiency ←
    match nodes grid_topology with
    | [] => mret (Py.of_Z 0)
    | _ =>
        mean ← Py.truediv_int (Py.of_Z total_efficiency)
                 (Z.of_nat (length (nodes grid_topology)));
        q ← Py.truediv total_line_loss total_energy_output;
        mret (Py.fmul mean (Py.fsub (Py.of_Z 1) q))
    end;
  load_balance ← calculate_load_balance grid_topology;
  mret {| total_energy_output := total_energy_output;
          average_efficiency := average_efficiency;
          load_balance := load_balance |}.

Definition calculate_vulnerability_score (grid_topology : topology) : F :=
  let score := Py.of_Z 5 in
  let num_nodes := Z.of_nat (length (nodes grid_topology)) in
  let num_connections := Z.of_nat (length (connections grid_topology)) in
  let score :=
    Py.fadd score (Py.fadd (Py.fmul (Py.of_Z num_nodes) (Py.dec 1 1))
                           (Py.fmul (Py.of_Z num_connections) (Py.dec 2 1))) in
  let critical_nodes :=
    Z.of_nat (length (List.filter
                        (fun n : node => Py.str_in n.1.1 ["Generator"; "Substation"])
                        (nodes grid_topology))) in
  let score := Py.fadd score (Py.fmul (Py.of_Z critical_nodes) (Py.dec 5 1)) in
  Py.min2 (Builtins.max2 score (Py.of_Z 0)) (Py.of_Z 10).

Definition base_suggestions : list string :=
  ["Implement advanced encryption for all communication channels";
   "Regularly update and patch all systems";
   "Conduct frequent security audits and penetration testing"].

Definition generator_suggestion : string :=
  "Enhance physical security measures for generator sites".

Definition segmentation_suggestion : string :=
  "Implement network segmentation to isolate critical systems".

Definition generate_security_suggestions (grid_topology : topology) : list string :=
  let suggestions := base_suggestions in
  let suggestions :=
    if existsb (fun n : node => String.eqb n.1.1 "Generator") (nodes grid_topology)
    then (suggestions ++ [generator_suggestion])%list else suggestions in
  if (5 <? length (connections grid_topology))%nat
  then (suggestions ++ [segmentation_suggestion])%list else suggestions.

Record security_data : Type := {
  vulnerability_score : F;
  suggestions : list string
}.

Definition perform_security_assessment (grid_topology : topology) : security_data :=
  {| vulnerability_score := calculate_vulnerability_score grid_topology;
     suggestions := generate_security_suggestions grid_topology |}.

End grid_simulation.
End grid_simulation.

(** Which exception, if any, one connection makes [calculate_line_loss]
    raise in binary64: IndexError when one of its two indices is outside
    [-len(nodes), len(nodes)), OverflowError when the squared distance of
    its two nodes is an [int] too large for a float. *)
Module LineLoss.

Definition coordinates (ns : list grid_simulation.node) (i : Z) : Z * Z :=
  match Builtins.getitem ns i with
  | Py.Returned (_, x, y) => (x, y)
  | Py.Raised _ => (0, 0)
  end.

Definition squared_length (ns : list grid_simulation.node) (c : Z * Z) : Z :=
  ((coordinates ns c.2).1 - (coordinates ns c.1).1) ^ 2
  + ((coordinates ns c.2).2 - (coordinates ns c.1).2) ^ 2.

Definition fault (ns : list grid_simulation.node) (c : Z * Z) : option Py.exn :=
  if Builtins.index_ok (length ns) c.1 && Builtins.index_ok (length ns) c.2 then
    if Ieee.is_fin (Binary64.of_Z (squared_length ns c)) then None
    else Some Py.OverflowError
  else Some Py.IndexError.

(** Coordinates of magnitude at most 2^510. *)
Definition moderate (n : grid_simulation.node) : Prop :=
  Z.abs n.1.2 <= 2 ^ 510 /\ Z.abs n.2 <= 2 ^ 510.

End LineLoss.

Arguments grid_simulation.performance F : clear implicits.
Arguments grid_simulation.security_data F : clear implicits.

(* ===================================================================== *)
(** * Properties of application states                                    *)
(* ===================================================================== *)

Module Invariants.
Section Invariants.
Context {F : Type} `{Py.Float F}.

(** The canvas has an item with id [i]. *)
Definition on_canvas (i : Z) (c : Tk.Canvas) : bool :=
  match Tk.items c !! i with Some _ => true | None => false end.

(** Every id in use was handed out by the canvas: canvas items, the ends
    of connections and the keys of [node_coords] all lie below its next
    id, which is at least 1. *)
Definition ids_handed_out (app : GridApp.GridApp F) : Prop :=
  1 <= Tk.next_id (GridApp.canvas app) /\
  (forall k, on_canvas k (GridApp.canvas app) = true ->
             k < Tk.next_id (GridApp.canvas app)) /\
  Forall (fun conn : Z * Z => conn.1 < Tk.next_id (GridApp.canvas app) /\
                              conn.2 < Tk.next_id (GridApp.canvas app))
         (GridApp.connections app) /\
  (forall k, is_Some (GridApp.node_coords app !! k) ->
             k < Tk.next_id (GridApp.canvas app)).



(** The connections whose two ends are both present nodes. *)
Definition resolved (t : GridSimulator.topology F) : list (Z * Z) :=
  List.filter (fun conn => Spec.has_node conn.1 (GridSimulator.nodes t) &&
                           Spec.has_node conn.2 (GridSimulator.nodes t))
              (GridSimulator.connections t).

(** Every position of a table of coordinates is a point of the grid. *)
Definition on_grid (m : gmap Z (Z * Z)) : Prop :=
  forall k p, m !! k = Some p ->
              p.1 mod GridApp.GRID_SIZE = 0 /\ p.2 mod GridApp.GRID_SIZE = 0.

End Invariants.
End Invariants.

(** How a canvas changes over time. *)
Module Growth.

(** [c'] came from [c] by creating, changing and deleting items: its next
    id is no smaller, and an item of [c'] is an item of [c] or was created
    since. *)
Definition grown_from (c c' : Tk.Canvas) : Prop :=
  Tk.next_id c <= Tk.next_id c' /\
  forall k, Invariants.on_canvas k c' = true ->
            Invariants.on_canvas k c = true \/ Tk.next_id c <= k < Tk.next_id c'.

End Growth.

(* ===================================================================== *)
(** * The event handlers of GridApp                                       *)
(* ===================================================================== *)

(** More of the canvas: what the handlers ask of it. *)
Module TkEvents.

(** [canvas.gettags(i)]: no tags when there is no such item. *)
Definition gettags (i : Z) (c : Tk.Canvas) : list Tk.tag :=
  match Tk.items c !! i with
  | Some it => Tk.item_tags it
  | None => []
  end.

(** [canvas.type(i) == "image"] *)
Definition is_image (i : Z) (c : Tk.Canvas) : bool :=
  match Tk.items c !! i with
  | Some {| Tk.item_shape := Tk.Image _ _ |} => true
  | _ => false
  end.

Definition move_shape (dx dy : Z) (sh : Tk.shape) : Tk.shape :=
  match sh with
  | Tk.Image x y => Tk.Image (x + dx) (y + dy)
  | Tk.Rectangle x1 y1 x2 y2 => Tk.Rectangle (x1 + dx) (y1 + dy) (x2 + dx) (y2 + dy)
  | Tk.Text x y => Tk.Text (x + dx) (y + dy)
  | Tk.Line x1 y1 x2 y2 => Tk.Line (x1 + dx) (y1 + dy) (x2 + dx) (y2 + dy)
  end.

Definition move_item (dx dy : Z) (it : Tk.canvas_item) : Tk.canvas_item :=
  {| Tk.item_shape := move_shape dx dy (Tk.item_shape it); Tk.item_tags := Tk.item_tags it |}.

(** [canvas.move(i, dx, dy)] by id and [canvas.move(tag, dx, dy)] by tag. *)
Definition move (i dx dy : Z) (c : Tk.Canvas) : Tk.Canvas :=
  {| Tk.next_id := Tk.next_id c; Tk.items := alter (move_item dx dy) i (Tk.items c) |}.

Definition move_tag (t : Tk.tag) (dx dy : Z) (c : Tk.Canvas) : Tk.Canvas :=
  {| Tk.next_id := Tk.next_id c;
     Tk.items := (fun it => if Tk.has_tag t it then move_item dx dy it else it) <$> Tk.items c |}.

(** A picture or a label put at a point; other items are given points
    only by mistake and are left alone here. *)
Definition put_at (x y : Z) (it : Tk.canvas_item) : Tk.canvas_item :=
  {| Tk.item_shape :=
       match Tk.item_shape it with
       | Tk.Image _ _ => Tk.Image x y
       | Tk.Text _ _ => Tk.Text x y
       | sh => sh
       end;
     Tk.item_tags := Tk.item_tags it |}.

(** [canvas.coords(i, x, y)] by id, and [canvas.coords(tag, x, y)] by tag,
    which acts on the first item carrying the tag (the earliest created,
    for items that were never restacked, as labels are not). *)
Definition set_point (i x y : Z) (c : Tk.Canvas) : Tk.Canvas :=
  {| Tk.next_id := Tk.next_id c; Tk.items := alter (put_at x y) i (Tk.items c) |}.

Definition first_with_tag (t : Tk.tag) (c : Tk.Canvas) : option Z :=
  match Tk.find_withtag t c with
  | [] => None
  | i :: rest => Some (fold_left Z.min rest i)
  end.

Definition set_point_tag (t : Tk.tag) (x y : Z) (c : Tk.Canvas) : Tk.Canvas :=
  match first_with_tag t c with
  | Some i => set_point i x y c
  | None => c
  end.

End TkEvents.

Module Shell.
Section Shell.
Context {F : Type} `{Py.Float F}.

(** The outside world: which image files open, the hit test, and
    [canvas.find_closest(x, y)], a tuple that is empty on an empty canvas. *)
Variable image_opens : string -> bool.
Variable find_overlapping : Tk.Canvas -> list Z -> list Z.
Variable find_closest : Tk.Canvas -> Z -> Z -> list Z.

(** The dictionary [drag_data]. *)
Record drag : Type := { drag_x : Z; drag_y : Z; drag_item : option Z }.

(** The application with the attributes its event handlers use. *)
Record Window : Type := {
  app : GridApp.GridApp F;
  drag_data : drag;
  connection_mode : bool;
  delete_mode : bool;
  delete_connection_mode : bool;
  connection_start : option Z;
  output_label : string
}.

(** [setup_variables] and the label of [create_output_label]. *)
Definition setup : Window :=
  {| app := GridApp.setup_variables;
     drag_data := {| drag_x := 0; drag_y := 0; drag_item := None |};
     connection_mode := false;
     delete_mode := false;
     delete_connection_mode := false;
     connection_start := None;
     output_label := "Output will appear here" |}.

Definition with_app (w : Window) (app' : GridApp.GridApp F) : Window :=
  {| app := app'; drag_data := drag_data w; connection_mode := connection_mode w;
     delete_mode := delete_mode w; delete_connection_mode := delete_connection_mode w;
     connection_start := connection_start w; output_label := output_label w |}.

Definition with_canvas (a : GridApp.GridApp F) (c : Tk.Canvas) : GridApp.GridApp F :=
  {| GridApp.canvas := c;
     GridApp.image_references := GridApp.image_references a;
     GridApp.grid_topology := GridApp.grid_topology a;
     GridApp.node_type_var := GridApp.node_type_var a;
     GridApp.node_coords := GridApp.node_coords a |}.

(** [self.output_label.config(text=...)] *)
Definition with_output (w : Window) (text : string) : Window :=
  {| app := app w; drag_data := drag_data w; connection_mode := connection_mode w;
     delete_mode := delete_mode w; delete_connection_mode := delete_connection_mode w;
     connection_start := connection_start w; output_label := text |}.

Definition on_off (b : bool) : string := if b then "ON" else "OFF".

Definition toggle_add_mode (self : Window) : Window :=
  {| app := app self; drag_data := drag_data self;
     connection_mode := false;
     delete_mode := false;
     delete_connection_mode := false;
     connection_start := connection_start self;
     output_label := "Click on the canvas to add a node" |}.

Definition toggle_connection_mode (self : Window) : Window :=
  {| app := app self; drag_data := drag_data self;
     connection_mode := negb (connection_mode self);
     delete_mode := false;
     delete_connection_mode := false;
     connection_start := None;
     output_label := "Connection mode: " ++ on_off (negb (connection_mode self)) |}.

Definition toggle_delete_mode (self : Window) : Window :=
  {| app := app self; drag_data := drag_data self;
     connection_mode := false;
     delete_mode := negb (delete_mode self);
     delete_connection_mode := false;
     connection_start := connection_start self;
     output_label := "Delete node mode: " ++ on_off (negb (delete_mode self)) |}.

Definition toggle_delete_connection_mode (self : Window) : Window :=
  {| app := app self; drag_data := drag_data self;
     connection_mode := false;
     delete_mode := false;
     delete_connection_mode := negb (delete_connection_mode self);
     connection_start := connection_start self;
     output_label :=
       "Delete connection mode: " ++ on_off (negb (delete_connection_mode self)) |}.

(** [canvas.find_closest(event.x, event.y)[0]] *)
Definition closest (x y : Z) (self : Window) : Py.outcome Z :=
  match find_closest (GridApp.canvas (app self)) x y with
  | [] => Py.Raised Py.IndexError
  | item :: _ => Py.Returned item
  end.

Definition handle_connection_click (x y : Z) (self : Window) : Py.outcome Window :=
  item ← closest x y self;
  match connection_start self with
  | None =>
      mret {| app := app self; drag_data := drag_data self;
              connection_mode := connection_mode self; delete_mode := delete_mode self;
              delete_connection_mode := delete_connection_mode self;
              connection_start := Some item;
              output_label := output_label self |}
  | Some start =>
      app' ← GridApp.add_connection start item (app self);
      mret {| app := app'; drag_data := drag_data self;
              connection_mode := connection_mode self; delete_mode := delete_mode self;
              delete_connection_mode := delete_connection_mode self;
              connection_start := None;
              output_label := output_label self |}
  end.

(** The node types are the nine keys of [NODE_IMAGES], none of which is
    "node" or "connection": the membership tests on tags look for the
    dedicated tags. *)
Definition handle_delete_click (x y : Z) (self : Window) : Py.outcome Window :=
  item ← closest x y self;
  let tags := TkEvents.gettags item (GridApp.canvas (app self)) in
  if bool_decide (Tk.TagNode ∈ tags) then
    app' ← GridApp.remove_node find_overlapping item (app self);
    mret (with_app self app')
  else mret self.

Definition handle_delete_connection_click (x y : Z) (self : Window) : Py.outcome Window :=
  item ← closest x y self;
  let tags := TkEvents.gettags item (GridApp.canvas (app self)) in
  if bool_decide (Tk.TagConnection ∈ tags) then
    app' ← GridApp.remove_connection item (app self);
    mret (with_app self app')
  else mret self.

Definition handle_node_click (x y : Z) (self : Window) : Py.outcome Window :=
  item ← closest x y self;
  if TkEvents.is_image item (GridApp.canvas (app self)) then
    mret {| app := app self;
            drag_data := {| drag_x := x; drag_y := y; drag_item := Some item |};
            connection_mode := connection_mode self; delete_mode := delete_mode self;
            delete_connection_mode := delete_connection_mode self;
            connection_start := connection_start self;
            output_label := output_label self |}
  else
    app' ← GridApp.add_node image_opens x y (app self);
    mret (with_app self app').

Definition on_canvas_click (x y : Z) (self : Window) : Py.outcome Window :=
  if connection_mode self then handle_connection_click x y self
  else if delete_mode self then handle_delete_click x y self
  else if delete_connection_mode self then handle_delete_connection_click x y self
  else handle_node_click x y self.

(** [if self.drag_data["item"]:] holds for an item other than 0. *)
Definition dragged (self : Window) : option Z :=
  match drag_item (drag_data self) with
  | Some item => if item =? 0 then None else Some item
  | None => None
  end.

Definition on_drag (x y : Z) (self : Window) : Py.outcome Window :=
  match dragged self with
  | Some item =>
      let dx := x - drag_x (drag_data self) in
      let dy := y - drag_y (drag_data self) in
      let canvas1 := TkEvents.move item dx dy (GridApp.canvas (app self)) in
      let canvas2 := TkEvents.move_tag (Tk.TagEnergyOf item) dx dy canvas1 in
      mret {| app := with_canvas (app self) canvas2;
              drag_data := {| drag_x := x; drag_y := y;
                              drag_item := drag_item (drag_data self) |};
              connection_mode := connection_mode self; delete_mode := delete_mode self;
              delete_connection_mode := delete_connection_mode self;
              connection_start := connection_start self;
              output_label := output_label self |}
  | None => mret self
  end.

Definition on_release (x y : Z) (self : Window) : Py.outcome Window :=
  app' ←
    match dragged self with
    | Some item =>
        let snapped_x := Py.round_div x GridApp.GRID_SIZE * GridApp.GRID_SIZE in
        let snapped_y := Py.round_div y GridApp.GRID_SIZE * GridApp.GRID_SIZE in
        let canvas1 := TkEvents.set_point item snapped_x snapped_y (GridApp.canvas (app self)) in
        let canvas2 :=
          TkEvents.set_point_tag (Tk.TagEnergyOf item)
            (snapped_x + GridApp.GRID_SIZE / 2) (snapped_y + GridApp.GRID_SIZE + 10) canvas1 in
        GridApp.update_node_position image_opens find_overlapping item snapped_x snapped_y
          (with_canvas (app self) canvas2)
    | None => mret (app self)
    end;
  mret {| app := app';
          drag_data := {| drag_x := drag_x (drag_data self); drag_y := drag_y (drag_data self);
                          drag_item := None |};
          connection_mode := connection_mode self; delete_mode := delete_mode self;
          delete_connection_mode := delete_connection_mode self;
          connection_start := connection_start self;
          output_label := output_label self |}.

(** [draw_grid()] on a canvas [width] by [height]: the old grid lines go
    and new ones are drawn every [GRID_SIZE] pixels.  (Its guard
    [is_drawing_grid] is set and cleared inside the call, so it is never
    found set when a call starts.) *)
Definition grid_lines (width height : Z) : list Tk.shape :=
  map (fun x => Tk.Line x 0 x height) (Builtins.range0 width GridApp.GRID_SIZE) ++
  map (fun y => Tk.Line 0 y width y) (Builtins.range0 height GridApp.GRID_SIZE).

Definition draw_grid (width height : Z) (self : Window) : Window :=
  with_app self
    (with_canvas (app self)
       (fold_left (fun c line => (Tk.create line [Tk.TagGrid] c).2)
          (grid_lines width height)
          (Tk.delete_tag Tk.TagGrid (GridApp.canvas (app self))))).

(** One event of the user interface that is handled without an error: a
    mode button of the menu, a click, a drag or a release on the canvas,
    the Set Energy button, a redraw of the grid (at start-up and after a
    resize), the choice of a node type in the combo box, or a Simulate or
    Security Check, which write their result (whatever it is) to the
    output label and change nothing else. *)
Inductive event : Window -> Window -> Prop :=
| ev_add_mode w : event w (toggle_add_mode w)
| ev_connection_mode w : event w (toggle_connection_mode w)
| ev_delete_mode w : event w (toggle_delete_mode w)
| ev_delete_connection_mode w : event w (toggle_delete_connection_mode w)
| ev_click w w' x y : on_canvas_click x y w = Py.Returned w' -> event w w'
| ev_drag w w' x y : on_drag x y w = Py.Returned w' -> event w w'
| ev_release w w' x y : on_release x y w = Py.Returned w' -> event w w'
| ev_set_node_energy w app' current answer :
    GridApp.set_node_energy current answer (app w) = Py.Returned app' ->
    event w (with_app w app')
| ev_draw_grid w width height : event w (draw_grid width height w)
| ev_choose w node_type : event w (with_app w (GridApp.choose node_type (app w)))
| ev_output w text : event w (with_output w text).

Definition reachable (w : Window) : Prop := rtc event setup w.

(** At most one of the three mode flags is set. *)
Definition one_mode_at_most (w : Window) : bool :=
  match connection_mode w, delete_mode w, delete_connection_mode w with
  | true, true, _ | true, _, true | _, true, true => false
  | _, _, _ => true
  end.

(** The three mode flags of a window. *)
Definition modes (w : Window) : bool * bool * bool :=
  (connection_mode w, delete_mode w, delete_connection_mode w).

(** Every position recorded in [node_coords] is a point of the grid. *)
Definition positions_on_grid (w : Window) : Prop :=
  Invariants.on_grid (GridApp.node_coords (app w)).

End Shell.
End Shell.

Arguments Shell.Window F : clear implicits.

(** A concrete [find_closest] for the sessions: the item whose first
    coordinate pair is nearest to the pointer. *)
Module Pointer.

Definition distance2 (x y : Z) (it : Tk.canvas_item) : Z :=
  match Tk.shape_coords (Tk.item_shape it) with
  | ax :: ay :: _ => (ax - x) ^ 2 + (ay - y) ^ 2
  | _ => 0
  end.

Definition find_closest (c : Tk.Canvas) (x y : Z) : list Z :=
  match map_to_list (Tk.items c) with
  | [] => []
  | kv :: rest =>
      [(fold_left (fun best kv' => if distance2 x y kv'.2 <? distance2 x y best.2
                                   then kv' else best) rest kv).1]
  end.

(** The connected pair of [Scenario], in a window in connection mode. *)
Definition connecting : Shell.Window spec_float :=
  Shell.toggle_connection_mode
    (Shell.with_app Shell.setup
       (Scenario.app_of (Scenario.connected_pair (Binary64.of_Z 100) (Binary64.of_Z 40)))).

(** The window after start-up on a canvas 100 by 100: the grid is drawn. *)
Definition started : Shell.Window spec_float := Shell.draw_grid 100 100 Shell.setup.

(** A click at (60, 60) in the started window. *)
Definition first_click : Py.outcome (Shell.Window spec_float) :=
  Shell.on_canvas_click Scenario.image_opens Scenario.find_overlapping find_closest
    60 60 started.

Definition first_node : Shell.Window spec_float :=
  match first_click with Py.Returned w => w | Py.Raised _ => started end.

End Pointer.

(** Topologies in exact arithmetic, used as concrete inputs. *)
Module Sample.

Definition node (node_type : string) (energy : Q) (item : Z) : Node.Node Q :=
  {| Node.node_type := node_type; Node.size := 50; Node.energy := energy;
     Node.image := None; Node.item := item |}.

Definition generator : Node.Node Q := node "Generator" 100%Q 1.
Definition substation : Node.Node Q := node "Substation" 0%Q 3.
Definition city : Node.Node Q := node "City" 40%Q 5.

End Sample.

(** Topologies in binary64, used as concrete inputs. *)
Module Sample64.

Definition node (node_type : string) (energy : Z) (item : Z) : Node.Node spec_float :=
  {| Node.node_type := node_type; Node.size := 50; Node.energy := Binary64.of_Z energy;
     Node.image := None; Node.item := item |}.

(** A generator and a city, with one connection, to the missing item 9. *)
Definition dangling : GridSimulator.topology spec_float :=
  {| GridSimulator.nodes := [node "Generator" 100 1; node "City" 40 5];
     GridSimulator.connections := [(1, 9)] |}.

(** A generator and a city, not connected. *)
Definition unconnected : GridSimulator.topology spec_float :=
  {| GridSimulator.nodes := [node "Generator" 100 1; node "City" 40 5];
     GridSimulator.connections := [] |}.

(** A generator and a city of the same energy, connected. *)
Definition level_pair : GridSimulator.topology spec_float :=
  {| GridSimulator.nodes := [node "Generator" 100 1; node "City" 100 5];
     GridSimulator.connections := [(1, 5)] |}.

End Sample64.

(* ===================================================================== *)
(** * The arithmetic laws hold in both arithmetics                        *)
(* ===================================================================== *)

#[global] Instance binary64_laws : FloatLaws spec_float.
Proof.
  split.
  - reflexivity.
  - intros m Hm. destruct m as [s | s | | s m e].
    + destruct s; reflexivity.
    + destruct s; discriminate Hm.
    + discriminate Hm.
    + destruct s; discriminate Hm.
Qed.

#[global] Instance rational_laws : FloatLaws Q.
Proof.
  split.
  - reflexivity.
  - intros m Hm. cbn in *. apply Qeq_bool_iff in Hm.
    apply negb_true_iff, not_true_is_false. intros E.
    apply Qle_bool_iff in E. rewrite Hm in E. now apply E.
Qed.

(* ===================================================================== *)
(** * Binary64: each operation is the exact result, rounded               *)
(* ===================================================================== *)

Section IeeeCore.

Lemma pow2_pos (k : Z) : 0 <= k -> 0 < 2 ^ k.
Proof. intros Hk. apply Z.pow_pos_nonneg; lia. Qed.

Lemma pow2_add (a b : Z) : 0 <= a -> 0 <= b -> 2 ^ (a + b) = 2 ^ a * 2 ^ b.
Proof. intros. apply Z.pow_add_r; assumption. Qed.

Lemma pow2_le (a b : Z) : 0 <= a <= b -> 2 ^ a <= 2 ^ b.
Proof. intros. apply Z.pow_le_mono_r; lia. Qed.

Lemma pow2_lt (a b : Z) : 0 <= a < b -> 2 ^ a < 2 ^ b.
Proof. intros. apply Z.pow_lt_mono_r; lia. Qed.

Lemma pow2_succ (a : Z) : 0 <= a -> 2 ^ (a + 1) = 2 * 2 ^ a.
Proof. intros. rewrite pow2_add by lia. change (2 ^ 1) with 2. lia. Qed.

Lemma digits2_pos_bounds (p : positive) :
  2 ^ (Zpos (digits2_pos p) - 1) <= Zpos p < 2 ^ Zpos (digits2_pos p).
Proof.
  induction p as [p IH | p IH |]; cbn [digits2_pos].
  - rewrite Pos2Z.inj_succ. replace (Z.succ (Zpos (digits2_pos p)) - 1) with (Zpos (digits2_pos p)) by lia.
    replace (Z.succ (Zpos (digits2_pos p))) with (Zpos (digits2_pos p) + 1) by lia.
    rewrite pow2_succ by lia.
    replace (2 ^ Zpos (digits2_pos p)) with (2 * 2 ^ (Zpos (digits2_pos p) - 1)) in *
      by (rewrite <- pow2_succ by lia; f_equal; lia).
    lia.
  - rewrite Pos2Z.inj_succ. replace (Z.succ (Zpos (digits2_pos p)) - 1) with (Zpos (digits2_pos p)) by lia.
    replace (Z.succ (Zpos (digits2_pos p))) with (Zpos (digits2_pos p) + 1) by lia.
    rewrite pow2_succ by lia.
    replace (2 ^ Zpos (digits2_pos p)) with (2 * 2 ^ (Zpos (digits2_pos p) - 1)) in *
      by (rewrite <- pow2_succ by lia; f_equal; lia).
    lia.
  - cbn. lia.
Qed.

Lemma Zdigits2_bounds (m : Z) :
  0 < m -> 0 < Zdigits2 m /\ 2 ^ (Zdigits2 m - 1) <= m < 2 ^ Zdigits2 m.
Proof.
  destruct m as [|p|p]; try lia. intros _. cbn [Zdigits2].
  split; [lia | apply digits2_pos_bounds].
Qed.

Lemma Zdigits2_unique (m k : Z) : 2 ^ (k - 1) <= m < 2 ^ k -> 0 < k -> Zdigits2 m = k.
Proof.
  intros [Hlo Hhi] Hk.
  assert (Hm : 0 < m) by (pose proof (pow2_pos (k - 1)); lia).
  destruct (Zdigits2_bounds m Hm) as (Hd & Hdlo & Hdhi).
  destruct (Z.lt_trichotomy (Zdigits2 m) k) as [Hlt | [Heq | Hgt]]; [|exact Heq|].
  - exfalso. pose proof (pow2_le (Zdigits2 m) (k - 1)). lia.
  - exfalso. pose proof (pow2_le k (Zdigits2 m - 1)). lia.
Qed.

Lemma Zdigits2_nonneg (m : Z) : 0 <= Zdigits2 m.
Proof. destruct m; cbn; lia. Qed.

Lemma Zdigits2_le (m k : Z) : 0 <= m < 2 ^ k -> 0 <= k -> Zdigits2 m <= k.
Proof.
  intros [Hm Hlt] Hk. destruct (Z.eq_dec m 0) as [-> | Hne]; [cbn; lia|].
  destruct (Zdigits2_bounds m ltac:(lia)) as (Hd & Hdlo & _).
  destruct (Z_le_gt_dec (Zdigits2 m) k) as [Hle | Hgt]; [exact Hle|].
  exfalso. pose proof (pow2_le k (Zdigits2 m - 1)). lia.
Qed.

Lemma Zdigits2_ge (m k : Z) : 2 ^ k <= m -> 0 <= k -> k + 1 <= Zdigits2 m.
Proof.
  intros Hle Hk. pose proof (pow2_pos k Hk).
  destruct (Zdigits2_bounds m ltac:(lia)) as (Hd & _ & Hdhi).
  destruct (Z_le_gt_dec (k + 1) (Zdigits2 m)) as [H1 | H1]; [exact H1|].
  exfalso. pose proof (pow2_le (Zdigits2 m) k). lia.
Qed.

(** ** Shifting right *)

Lemma inv_shr_1 (n d : Z) (mrs : shr_record) : Ieee.inv n d mrs -> Ieee.inv n (2 * d) (shr_1 mrs).
Proof.
  intros (Hn & Hd & Hm & Hex). destruct mrs as [m r s]. cbn [shr_m shr_r shr_s] in *.
  pose proof (Z.div_mod n d ltac:(lia)) as Hdm.
  pose proof (Z.mod_pos_bound n d Hd) as Hr.
  assert (Hm0 : 0 <= m) by (subst m; apply Z.div_pos; lia).
  assert (Hdiv : n / (2 * d) = m / 2).
  { subst m. rewrite (Z.mul_comm 2 d), <- Z.div_div by lia. reflexivity. }
  pose proof (Z.div_mod n (2 * d) ltac:(lia)) as Hdm2.
  pose proof (Z.mod_pos_bound n (2 * d) ltac:(lia)) as Hr2.
  pose proof (Z.div_mod m 2 ltac:(lia)) as Hm2.
  pose proof (Z.mod_pos_bound m 2 ltac:(lia)) as Hb.
  assert (Hmod : n mod (2 * d) = (m mod 2) * d + n mod d).
  { rewrite Hdiv in Hdm2. subst m. nia. }
  unfold Ieee.inv. split; [exact Hn|]. split; [lia|].
  assert (Hrs : (r = false /\ s = false) <-> (r || s = false)).
  { destruct r, s; cbn; intuition congruence. }
  destruct m as [|[p|p|]|p]; cbn [shr_1 shr_m shr_r shr_s]; try lia.
  - change (0 mod 2) with 0 in Hmod. change (0 / 2) with 0 in Hdiv.
    split; [lia|]. rewrite Hmod, <- Hex. rewrite <- Hrs. intuition (auto; lia).
  - assert (Zpos p~1 / 2 = Zpos p /\ Zpos p~1 mod 2 = 1) as [Hq Hbit].
    { rewrite Pos2Z.inj_xI. split; [|].
      - symmetry. apply (Z.div_unique _ 2 _ 1); lia.
      - symmetry. apply (Z.mod_unique _ 2 (Zpos p) 1); lia. }
    rewrite Hbit in Hmod. split; [lia|]. split; [intros [H1 _]; discriminate H1 | lia].
  - assert (Zpos p~0 / 2 = Zpos p /\ Zpos p~0 mod 2 = 0) as [Hq Hbit].
    { rewrite Pos2Z.inj_xO. split; [|].
      - symmetry. apply (Z.div_unique _ 2 _ 0); lia.
      - symmetry. apply (Z.mod_unique _ 2 (Zpos p) 0); lia. }
    rewrite Hbit in Hmod. split; [lia|]. rewrite Hmod, <- Hex, <- Hrs. intuition (auto; lia).
Qed.

Lemma inv_iter_pos (n : Z) (p : positive) : forall d mrs,
  Ieee.inv n d mrs -> Ieee.inv n (d * 2 ^ Zpos p) (SpecFloat.iter_pos shr_1 p mrs).
Proof.
  induction p as [p IH | p IH |]; intros d mrs Hinv; cbn [SpecFloat.iter_pos].
  - apply inv_shr_1 in Hinv. apply IH in Hinv. apply IH in Hinv.
    assert (E : 2 ^ Zpos p~1 = 2 * (2 ^ Zpos p * 2 ^ Zpos p)).
    { rewrite <- pow2_add, <- pow2_succ by lia. f_equal. lia. }
    rewrite E. replace (d * (2 * (2 ^ Zpos p * 2 ^ Zpos p)))
      with (2 * d * 2 ^ Zpos p * 2 ^ Zpos p) by ring. exact Hinv.
  - apply IH in Hinv. apply IH in Hinv.
    assert (E : 2 ^ Zpos p~0 = 2 ^ Zpos p * 2 ^ Zpos p).
    { rewrite <- pow2_add by lia. f_equal. lia. }
    rewrite E. replace (d * (2 ^ Zpos p * 2 ^ Zpos p)) with (d * 2 ^ Zpos p * 2 ^ Zpos p) by ring.
    exact Hinv.
  - apply inv_shr_1 in Hinv. change (2 ^ 1) with 2. replace (d * 2) with (2 * d) by ring.
    exact Hinv.
Qed.

Lemma inv_shr (n d : Z) (mrs : shr_record) (e k : Z) :
  Ieee.inv n d mrs -> 0 <= k ->
  Ieee.inv n (d * 2 ^ k) (shr mrs e k).1 /\ (shr mrs e k).2 = e + k.
Proof.
  intros Hinv Hk. unfold shr. destruct k as [|p|p]; try lia; cbn [fst snd].
  - change (2 ^ 0) with 1. rewrite Z.mul_1_r. split; [exact Hinv | lia].
  - split; [apply inv_iter_pos, Hinv | reflexivity].
Qed.

Lemma inv_of_loc (n d m : Z) (l : location) :
  0 <= n -> 0 < d -> m = n / d -> (l = loc_Exact <-> n mod d = 0) ->
  Ieee.inv n d (shr_record_of_loc m l).
Proof.
  intros Hn Hd Hm Hl. unfold Ieee.inv. split; [exact Hn|]. split; [exact Hd|].
  destruct l as [|[| |]]; cbn; (split; [exact Hm|]); rewrite <- Hl;
    intuition (auto; discriminate).
Qed.

End IeeeCore.

Section RoundAux.

Lemma fexp_eq (e : Z) : Ieee.fexp e = Z.max (e - 53) (-1074).
Proof. reflexivity. Qed.

Lemma fexp_unfold (e : Z) : SpecFloat.fexp Binary64.prec Binary64.emax e = Ieee.fexp e.
Proof. reflexivity. Qed.

(** The first shift: the mantissa is cut at the exponent the format gives
    to the magnitude of the value. *)
Lemma first_shift (n d m e : Z) (l : location) :
  0 <= n -> 0 < d -> m = n / d -> (l = loc_Exact <-> n mod d = 0) ->
  e <= Ieee.fexp (Zdigits2 m + e) -> 0 <= e + Ieee.bias ->
  exists mrs e1 m1,
    shr_fexp Binary64.prec Binary64.emax m e l = (mrs, e1) /\
    e1 = Ieee.fexp (Zdigits2 m + e) /\ e <= e1 /\ -1074 <= e1 /\
    shr_m mrs = m1 /\ 0 <= m1 < 2 ^ 53 /\
    (-1074 < e1 -> 2 ^ 52 <= m1) /\
    m1 * d * 2 ^ (e1 + Ieee.bias) <= n * 2 ^ (e + Ieee.bias)
      < (m1 + 1) * d * 2 ^ (e1 + Ieee.bias) /\
    (loc_of_shr_record mrs <> loc_Exact ->
       m1 * d * 2 ^ (e1 + Ieee.bias) < n * 2 ^ (e + Ieee.bias)) /\
    (-1074 < e1 -> 2 ^ (52 + e1 + Ieee.bias) <= m * 2 ^ (e + Ieee.bias)).
Proof.
  intros Hn Hd Hm Hl HP Hb.
  remember (Ieee.fexp (Zdigits2 m + e)) as e1 eqn:Ee1.
  remember (e1 - e) as k eqn:Ek.
  assert (Hk : 0 <= k) by lia.
  pose proof (inv_of_loc n d m l Hn Hd Hm Hl) as Hinv0.
  destruct (inv_shr n d _ e k Hinv0 Hk) as [Hinv He].
  unfold shr_fexp. rewrite fexp_unfold, <- Ee1, <- Ek.
  destruct (shr (shr_record_of_loc m l) e k) as [mrs e'] eqn:Eshr. cbn [fst snd] in Hinv, He.
  exists mrs, e1, (shr_m mrs).
  destruct Hinv as (_ & HdK & Hm1 & Hex).
  assert (Hm0 : 0 <= m) by (subst m; apply Z.div_pos; lia).
  assert (HK : 0 < 2 ^ k) by (apply pow2_pos; lia).
  assert (Hm1' : shr_m mrs = m / 2 ^ k).
  { rewrite Hm1, Hm. rewrite Z.div_div by lia. reflexivity. }
  rewrite fexp_eq in Ee1.
  assert (He1 : -1074 <= e1) by lia.
  assert (HG : 2 ^ (e1 + Ieee.bias) = 2 ^ k * 2 ^ (e + Ieee.bias)).
  { rewrite <- pow2_add by lia. f_equal. lia. }
  assert (HPe : 0 < 2 ^ (e + Ieee.bias)) by (apply pow2_pos; lia).
  pose proof (Z.div_mod n (d * 2 ^ k) ltac:(nia)) as Hdm.
  pose proof (Z.mod_pos_bound n (d * 2 ^ k) ltac:(nia)) as Hr.
  pose proof (Z.div_mod m (2 ^ k) ltac:(lia)) as Hdm'.
  pose proof (Z.mod_pos_bound m (2 ^ k) ltac:(lia)) as Hr'.
  assert (Hdg : m <> 0 -> 0 < Zdigits2 m /\ 2 ^ (Zdigits2 m - 1) <= m < 2 ^ Zdigits2 m).
  { intros Hne. apply Zdigits2_bounds. lia. }
  split; [f_equal; lia|]. split; [reflexivity|]. split; [lia|].
  split; [exact He1|].
  split; [reflexivity|].
  assert (Hnorm : -1074 < e1 -> m <> 0 /\ k = Zdigits2 m - 53 /\ e1 = Zdigits2 m + e - 53).
  { intros Hgt.
    destruct (Z.eq_dec m 0) as [-> | Hne]; [cbn [Zdigits2] in *; lia|].
    split; [exact Hne|]. lia. }
  split.
  { split; [rewrite Hm1'; apply Z.div_pos; lia|].
    rewrite Hm1'. apply Z.div_lt_upper_bound; [lia|].
    destruct (Z.eq_dec m 0) as [-> | Hne]; [nia|].
    destruct (Hdg Hne) as (Hd0 & _ & Hhi).
    assert (Zdigits2 m <= k + 53) by lia.
    pose proof (pow2_le (Zdigits2 m) (k + 53) ltac:(lia)) as Hle.
    rewrite pow2_add in Hle by lia. lia. }
  assert (Hlow : -1074 < e1 -> 2 ^ 52 * 2 ^ k <= m).
  { intros Hgt. destruct (Hnorm Hgt) as (Hne & Hkk & _).
    destruct (Hdg Hne) as (Hd0 & Hlo & _).
    rewrite <- pow2_add by lia. replace (52 + k) with (Zdigits2 m - 1) by lia. exact Hlo. }
  split.
  { intros Hgt. specialize (Hlow Hgt). rewrite Hm1'.
    apply Z.div_le_lower_bound; lia. }
  split.
  { rewrite HG, Hm1. set (q := n / (d * 2 ^ k)) in *. set (r := n mod (d * 2 ^ k)) in *.
    split; nia. }
  split.
  { intros Hloc. assert (Hflags : n mod (d * 2 ^ k) <> 0).
    { intros Hz. apply Hex in Hz. destruct Hz as [Hr0 Hs0]. apply Hloc.
      destruct mrs as [mm rr ss]. cbn in Hr0, Hs0. subst rr ss. reflexivity. }
    rewrite HG, Hm1. set (q := n / (d * 2 ^ k)) in *. set (r := n mod (d * 2 ^ k)) in *.
    nia. }
  intros Hgt. specialize (Hlow Hgt).
  replace (52 + e1 + Ieee.bias) with (52 + k + (e + Ieee.bias)) by lia.
  rewrite pow2_add, pow2_add by lia. nia.
Qed.

End RoundAux.

Section RoundFinish.

Lemma shr_no_shift (mrs : shr_record) (e k : Z) : k <= 0 -> shr mrs e k = (mrs, e).
Proof. intros Hk. destruct k as [|p|p]; try reflexivity. lia. Qed.

Lemma pow2_split (a b : Z) : 0 <= a -> 0 <= b -> 2 ^ a * 2 ^ b = 2 ^ (a + b).
Proof. intros. symmetry. apply pow2_add; assumption. Qed.

(** The second shift and the overflow test. *)
Lemma round_finish (sx : bool) (m2 e1 : Z) :
  0 <= m2 <= 2 ^ 53 -> -1074 <= e1 -> (-1074 < e1 -> 2 ^ 52 <= m2) ->
  0 <= e1 + Ieee.bias ->
  let r :=
    let '(mrs, e2) := shr_fexp Binary64.prec Binary64.emax m2 e1 loc_Exact in
    match shr_m mrs with
    | Z0 => S754_zero sx
    | Zpos m => if e2 <=? Binary64.emax - Binary64.prec
                then S754_finite sx m e2 else S754_infinity sx
    | Zneg _ => S754_nan
    end in
  valid_binary Binary64.prec Binary64.emax r = true /\ Ieee.is_nan r = false /\
  Ieee.sign r = sx /\
  (Ieee.is_fin r = true -> Z.abs (Ieee.sval r) = m2 * 2 ^ (e1 + Ieee.bias)) /\
  (Ieee.is_fin r = false -> Ieee.overflow <= m2 * 2 ^ (e1 + Ieee.bias)).
Proof.
  intros Hm2 He1 Hnorm Hb. unfold shr_fexp. rewrite fexp_unfold, fexp_eq.
  assert (HG : 0 < 2 ^ (e1 + Ieee.bias)) by (apply pow2_pos; lia).
  destruct (Z.eq_dec m2 (2 ^ 53)) as [-> | Hne].
  - (* the rounding carried into a new digit *)
    change (Zdigits2 (2 ^ 53)) with 54.
    replace (Z.max (54 + e1 - 53) (-1074) - e1) with 1 by lia.
    cbn [shr shr_record_of_loc SpecFloat.iter_pos]. 
    change (shr_m (shr_1 {| shr_m := 2 ^ 53; shr_r := false; shr_s := false |}))
      with (Zpos (Z.to_pos (2 ^ 52))).
    cbv zeta. change (Binary64.emax - Binary64.prec) with 971.
    destruct (e1 + 1 <=? 971) eqn:Ele.
    + apply Z.leb_le in Ele. cbn [valid_binary Ieee.is_nan Ieee.sign Ieee.is_fin Ieee.sval].
      split.
      { unfold bounded, canonical_mantissa. rewrite fexp_unfold, fexp_eq.
        change (Zpos (digits2_pos (Z.to_pos (2 ^ 52)))) with 53.
        apply andb_true_intro.
        change (Binary64.emax - Binary64.prec) with 971.
        split; [apply Z.eqb_eq; lia | apply Z.leb_le; lia]. }
      split; [reflexivity|]. split; [reflexivity|]. split; [|discriminate].
      intros _. change (Zpos (Z.to_pos (2 ^ 52))) with (2 ^ 52).
      replace (e1 + 1 + Ieee.bias) with (1 + (e1 + Ieee.bias)) by lia.
      rewrite (pow2_add 1) by lia. change (2 ^ 1) with 2. change (2 ^ 53) with (2 * 2 ^ 52).
      destruct sx; lia.
    + apply Z.leb_gt in Ele. cbn [valid_binary Ieee.is_nan Ieee.sign Ieee.is_fin Ieee.sval].
      split; [reflexivity|]. split; [reflexivity|]. split; [reflexivity|].
      split; [discriminate|]. intros _. unfold Ieee.overflow.
      change Binary64.emax with 1024. replace (1024 + Ieee.bias) with (53 + (971 + Ieee.bias)) by lia.
      rewrite (pow2_add 53) by (unfold Ieee.bias; lia).
      pose proof (pow2_le (971 + Ieee.bias) (e1 + Ieee.bias) ltac:(unfold Ieee.bias in *; lia)).
      assert (0 < 2 ^ 53) by (apply pow2_pos; lia). nia.
  - assert (Hlt : m2 < 2 ^ 53) by lia.
    assert (Hdg : Zdigits2 m2 <= 53) by (apply Zdigits2_le; lia).
    pose proof (Zdigits2_nonneg m2) as Hdg0.
    rewrite shr_no_shift by lia. cbn [shr_m shr_record_of_loc].
    destruct m2 as [|p|p]; [| |lia].
    + cbn. repeat split; try reflexivity; try discriminate.
    + cbv zeta. change (Binary64.emax - Binary64.prec) with 971.
      assert (Hcanon : Z.max (Zdigits2 (Zpos p) + e1 - 53) (-1074) = e1).
      { destruct (Z.eq_dec e1 (-1074)) as [-> | Hgt]; [lia|].
        assert (2 ^ 52 <= Zpos p) by (apply Hnorm; lia).
        pose proof (Zdigits2_ge (Zpos p) 52 ltac:(lia) ltac:(lia)). lia. }
      destruct (e1 <=? 971) eqn:Ele.
      * apply Z.leb_le in Ele. cbn [valid_binary Ieee.is_nan Ieee.sign Ieee.is_fin Ieee.sval].
        split.
        { unfold bounded, canonical_mantissa. rewrite fexp_unfold, fexp_eq.
          cbn [Zdigits2] in Hcanon. rewrite Hcanon.
          apply andb_true_intro.
        change (Binary64.emax - Binary64.prec) with 971.
        split; [apply Z.eqb_eq; lia | apply Z.leb_le; lia]. }
        split; [reflexivity|]. split; [reflexivity|]. split; [|discriminate].
        intros _. destruct sx; lia.
      * apply Z.leb_gt in Ele. cbn [valid_binary Ieee.is_nan Ieee.sign Ieee.is_fin Ieee.sval].
        split; [reflexivity|]. split; [reflexivity|]. split; [reflexivity|].
        split; [discriminate|]. intros _. unfold Ieee.overflow.
        assert (2 ^ 52 <= Zpos p) by (apply Hnorm; lia).
        change Binary64.emax with 1024. replace (1024 + Ieee.bias) with (52 + (972 + Ieee.bias)) by lia.
        rewrite (pow2_add 52) by (unfold Ieee.bias; lia).
        pose proof (pow2_le (972 + Ieee.bias) (e1 + Ieee.bias) ltac:(unfold Ieee.bias in *; lia)).
        assert (0 < 2 ^ 52) by (apply pow2_pos; lia). nia.
Qed.

End RoundFinish.

Section Rounded.

Lemma round_nearest_even_near (m : Z) (l : location) :
  m <= round_nearest_even m l <= m + 1 /\
  (l = loc_Exact -> round_nearest_even m l = m).
Proof.
  unfold round_nearest_even.
  destruct l as [|[| |]];
    [ split; [lia | reflexivity]
    | destruct (Z.even m); split; try lia; discriminate
    | split; [lia | discriminate]
    | split; [lia | discriminate] ].
Qed.

(** A value of the format is a multiple of the grid step at any exponent
    not above its own, and below the binade of any exponent above. *)
Lemma representable_grid (V e1 : Z) :
  Ieee.representable V -> -1074 <= e1 -> 0 <= e1 + Ieee.bias ->
  (exists c, V = c * 2 ^ (e1 + Ieee.bias)) \/
  (-1074 < e1 /\ V < 2 ^ (52 + e1 + Ieee.bias)).
Proof.
  intros (mf & uf & -> & Huf & Hmf) He1 Hb. unfold Ieee.emin in Huf.
  change (SpecFloat.emin Binary64.prec Binary64.emax) with (-1074) in Huf.
  assert (Hbias : Ieee.bias = 2200) by reflexivity.
  destruct (Z_le_gt_dec e1 uf) as [Hle | Hgt].
  - left. exists (mf * 2 ^ (uf - e1)). rewrite <- Z.mul_assoc, <- pow2_add by lia.
    f_equal. f_equal. lia.
  - right. split; [lia|].
    assert (0 < 2 ^ (uf + Ieee.bias)) by (apply pow2_pos; lia).
    pose proof (pow2_le (53 + (uf + Ieee.bias)) (52 + e1 + Ieee.bias) ltac:(lia)) as Hle.
    rewrite pow2_add in Hle by lia. change Binary64.prec with 53 in Hmf. nia.
Qed.

Lemma round_aux_rounded (sx : bool) (n d m e : Z) (l : location) :
  0 <= n -> 0 < d -> m = n / d -> (l = loc_Exact <-> n mod d = 0) ->
  e <= Ieee.fexp (Zdigits2 m + e) -> 0 <= e + Ieee.bias ->
  Ieee.rounded sx (n * 2 ^ (e + Ieee.bias)) d
    (binary_round_aux Binary64.prec Binary64.emax sx m e l).
Proof.
  intros Hn Hd Hm Hl HP Hb.
  destruct (first_shift n d m e l Hn Hd Hm Hl HP Hb)
    as (mrs & e1 & m1 & Hshift & He1 & Hee1 & Hmin & Hm1 & Hm1r & Hnorm & Hcell & Hstrict & Hbin).
  unfold binary_round_aux. rewrite Hshift, Hm1.
  destruct (round_nearest_even_near m1 (loc_of_shr_record mrs)) as [Hm2 Hexact].
  set (m2 := round_nearest_even m1 (loc_of_shr_record mrs)) in *.
  assert (Hb1 : 0 <= e1 + Ieee.bias) by lia.
  pose proof (round_finish sx m2 e1 ltac:(lia) Hmin ltac:(lia) Hb1)
    as (Hvalid & Hnan & Hsign & Hfin & Hinf).
  cbv zeta in Hvalid, Hnan, Hsign, Hfin, Hinf.
  set (r := let '(mrs0, e2) := shr_fexp Binary64.prec Binary64.emax m2 e1 loc_Exact in _) in *.
  assert (HG : 0 < 2 ^ (e1 + Ieee.bias)) by (apply pow2_pos; lia).
  assert (HPe : 0 < 2 ^ (e + Ieee.bias)) by (apply pow2_pos; lia).
  set (G := 2 ^ (e1 + Ieee.bias)) in *. set (X := n * 2 ^ (e + Ieee.bias)) in *.
  assert (Hmn : m * d <= n).
  { subst m. pose proof (Z.div_mod n d ltac:(lia)). pose proof (Z.mod_pos_bound n d Hd). nia. }
  assert (Hbin' : -1074 < e1 -> 2 ^ (52 + e1 + Ieee.bias) * d <= X).
  { intros Hgt. specialize (Hbin Hgt). unfold X. nia. }
  assert (Hnorm' : -1074 < e1 -> 2 ^ (52 + e1 + Ieee.bias) <= m1 * G).
  { intros Hgt. specialize (Hnorm Hgt). unfold G.
    replace (52 + e1 + Ieee.bias) with (52 + (e1 + Ieee.bias)) by lia.
    rewrite pow2_add by lia. nia. }
  split; [exact Hvalid|]. split; [exact Hnan|]. split; [exact Hsign|]. split.
  - intros V HV Hover HX.
    assert (HR : m2 * G <= V).
    { destruct (representable_grid V e1 HV Hmin Hb1) as [[c ->] | [Hgt Hsmall]].
      - fold G in HX |- *.
        assert (HdG : 0 < d * G) by nia.
        apply Z.mul_le_mono_nonneg_r; [lia|].
        destruct (Z.eq_dec m2 m1) as [-> | Hne].
        + apply (Z.mul_le_mono_pos_r _ _ (d * G) HdG). lia.
        + assert (Hloc : loc_of_shr_record mrs <> loc_Exact)
            by (intros E; apply Hne, Hexact, E).
          specialize (Hstrict Hloc).
          assert (m1 < c) by (apply (Z.mul_lt_mono_pos_r (d * G) _ _ HdG); lia).
          lia.
      - specialize (Hbin' Hgt). exfalso.
        assert (2 ^ (52 + e1 + Ieee.bias) * d <= V * d) by lia.
        assert (2 ^ (52 + e1 + Ieee.bias) <= V)
          by (apply (Z.mul_le_mono_pos_r _ _ d Hd); lia).
        lia. }
    destruct (Ieee.is_fin r) eqn:Efin.
    + split; [reflexivity|]. rewrite Hfin by reflexivity. exact HR.
    + specialize (Hinf eq_refl). lia.
  - intros V HV HX.
    assert (HR : V <= m2 * G).
    { destruct (representable_grid V e1 HV Hmin Hb1) as [[c ->] | [Hgt Hsmall]].
      - fold G in HX |- *.
        assert (HdG : 0 < d * G) by nia.
        assert (c < m1 + 1) by (apply (Z.mul_lt_mono_pos_r (d * G) _ _ HdG); lia).
        assert (c * G <= m1 * G) by (apply Z.mul_le_mono_nonneg_r; lia).
        assert (m1 * G <= m2 * G) by (apply Z.mul_le_mono_nonneg_r; lia).
        lia.
      - specialize (Hnorm' Hgt).
        assert (m1 * G <= m2 * G) by (apply Z.mul_le_mono_nonneg_r; lia).
        lia. }
    destruct (Ieee.is_fin r) eqn:Efin.
    + right. rewrite Hfin by reflexivity. exact HR.
    + left. reflexivity.
Qed.

End Rounded.

Section Operations.

Lemma bias_eq : Ieee.bias = 2200.
Proof. reflexivity. Qed.

Lemma pos_iter_xO (m d : positive) : Zpos (Pos.iter xO m d) = Zpos m * 2 ^ Zpos d.
Proof.
  induction d as [|d IH] using Pos.peano_ind.
  - cbn [Pos.iter]. change (2 ^ 1) with 2. lia.
  - rewrite Pos.iter_succ, Pos2Z.inj_xO, IH, Pos2Z.inj_succ.
    replace (Z.succ (Zpos d)) with (Zpos d + 1) by lia.
    rewrite pow2_succ by lia. ring.
Qed.

Lemma shl_align_spec (mx : positive) (ex ex' : Z) :
  exists k, 0 <= k /\ (shl_align mx ex ex').2 = ex - k /\
            Zpos (shl_align mx ex ex').1 = Zpos mx * 2 ^ k /\
            (ex' <= ex -> k = ex - ex') /\ (ex <= ex' -> k = 0).
Proof.
  unfold shl_align. destruct (ex' - ex) as [|p|p] eqn:E; cbn [fst snd].
  - exists 0. change (2 ^ 0) with 1. repeat split; lia.
  - exists 0. change (2 ^ 0) with 1. repeat split; lia.
  - exists (Zpos p). rewrite pos_iter_xO. repeat split; lia.
Qed.

Lemma Zdigits2_shift (m k : Z) : 0 < m -> 0 <= k -> Zdigits2 (m * 2 ^ k) = Zdigits2 m + k.
Proof.
  intros Hm Hk. destruct (Zdigits2_bounds m Hm) as (Hd & Hlo & Hhi).
  pose proof (pow2_pos k Hk) as HK.
  apply Zdigits2_unique; [|lia].
  replace (Zdigits2 m + k - 1) with (Zdigits2 m - 1 + k) by lia.
  rewrite !pow2_add by lia. nia.
Qed.

Lemma valid_finite (s : bool) (m : positive) (e : Z) :
  valid_binary Binary64.prec Binary64.emax (S754_finite s m e) = true ->
  -1074 <= e <= 971 /\ Zdigits2 (Zpos m) <= 53 /\ Ieee.fexp (Zdigits2 (Zpos m) + e) = e /\
  (-1074 < e -> Zdigits2 (Zpos m) = 53).
Proof.
  cbn [valid_binary]. unfold bounded, canonical_mantissa. intros H.
  apply andb_prop in H as [Hc Hb]. apply Z.eqb_eq in Hc. apply Z.leb_le in Hb.
  rewrite fexp_unfold in Hc. pose proof Hc as Hc'. rewrite fexp_eq in Hc'.
  change (Binary64.emax - Binary64.prec) with 971 in Hb. cbn [Zdigits2].
  repeat split; lia.
Qed.

Lemma representable_nonneg (V : Z) : Ieee.representable V -> 0 <= V.
Proof.
  intros (m & u & -> & Hu & Hm). change Ieee.emin with (-1074) in Hu.
  pose proof bias_eq. pose proof (pow2_pos (u + Ieee.bias) ltac:(lia)). nia.
Qed.

(** [binary_round] rounds the value it is given. *)
Lemma binary_round_rounded (sx : bool) (mx : positive) (ex : Z) :
  0 <= ex + Ieee.bias ->
  Ieee.rounded sx (Zpos mx * 2 ^ (ex + Ieee.bias)) 1
    (binary_round Binary64.prec Binary64.emax sx mx ex).
Proof.
  intros Hb. pose proof bias_eq as Hbias. unfold binary_round.
  rewrite fexp_unfold.
  destruct (shl_align_spec mx ex (Ieee.fexp (Zpos (digits2_pos mx) + ex)))
    as (k & Hk & He & Hm & Hdown & Hup).
  destruct (shl_align mx ex _) as [mz ez]. cbn [fst snd] in He, Hm.
  assert (Hfe : -1074 <= Ieee.fexp (Zpos (digits2_pos mx) + ex)) by (rewrite fexp_eq; lia).
  assert (Hdz : Zdigits2 (Zpos mz) + ez = Zpos (digits2_pos mx) + ex).
  { rewrite Hm, Zdigits2_shift by lia. cbn [Zdigits2]. lia. }
  assert (HP : ez <= Ieee.fexp (Zdigits2 (Zpos mz) + ez)).
  { rewrite Hdz.
    destruct (Z_le_gt_dec (Ieee.fexp (Zpos (digits2_pos mx) + ex)) ex) as [Hle | Hgt].
    - specialize (Hdown Hle). lia.
    - specialize (Hup ltac:(lia)). lia. }
  assert (Hbz : 0 <= ez + Ieee.bias).
  { destruct (Z_le_gt_dec (Ieee.fexp (Zpos (digits2_pos mx) + ex)) ex) as [Hle | Hgt].
    - specialize (Hdown Hle). lia.
    - specialize (Hup ltac:(lia)). lia. }
  replace (Zpos mx * 2 ^ (ex + Ieee.bias)) with (Zpos mz * 2 ^ (ez + Ieee.bias)).
  - apply round_aux_rounded; try lia.
    + rewrite Z.div_1_r. reflexivity.
    + rewrite Z.mod_1_r. split; reflexivity.
  - rewrite Hm, <- Z.mul_assoc, <- pow2_add by lia. f_equal. f_equal. lia.
Qed.

Lemma sval_sign (x : spec_float) :
  valid_binary Binary64.prec Binary64.emax x = true ->
  (Ieee.sign x = false -> 0 <= Ieee.sval x) /\ (Ieee.sign x = true -> Ieee.sval x <= 0) /\
  (Ieee.is_fin x = true -> Ieee.sval x = 0 -> exists s, x = S754_zero s).
Proof.
  intros Hv. pose proof bias_eq as Hbias.
  destruct x as [s | s | | s m e]; cbn; try (repeat split; intros; try lia; eauto; discriminate).
  destruct (valid_finite s m e Hv) as (He & _).
  pose proof (pow2_pos (e + Ieee.bias) ltac:(lia)) as Hp.
  split; [intros ->; nia|]. split; [intros ->; nia|].
  intros _ Hz. destruct s; nia.
Qed.

Lemma rounded_faithful (sx : bool) (X D N D' K : Z) (r : spec_float) :
  Ieee.rounded sx X D r -> 0 < K -> Z.abs N = X * K -> D' = D * K ->
  (0 < N -> sx = false) -> (N < 0 -> sx = true) ->
  Ieee.faithful N D' r.
Proof.
  intros (Hv & Hnan & Hs & Hup & Hlo) HK HN -> Hpos Hneg.
  split; [exact Hv|]. split; [exact Hnan|].
  split; [intros H; rewrite Hs; auto|]. split; [intros H; rewrite Hs; auto|]. split.
  - intros V HV Hover Hle. apply Hup; [exact HV | exact Hover |].
    apply (Z.mul_le_mono_pos_r _ _ K HK). lia.
  - intros V HV Hle. apply Hlo; [exact HV|].
    apply (Z.mul_le_mono_pos_r _ _ K HK). lia.
Qed.

Lemma faithful_self (x : spec_float) : Ieee.finite x -> Ieee.faithful (Ieee.sval x) 1 x.
Proof.
  intros [Hv Hfin]. destruct (sval_sign x Hv) as (Hp & Hn & _).
  split; [exact Hv|]. split; [destruct x; cbn in *; congruence|].
  split; [intros H; destruct (Ieee.sign x); [specialize (Hn eq_refl); lia | reflexivity]|].
  split; [intros H; destruct (Ieee.sign x); [reflexivity | specialize (Hp eq_refl); lia]|].
  split.
  - intros V _ _ Hle. split; [exact Hfin | lia].
  - intros V _ Hle. right. lia.
Qed.

Lemma faithful_zero (s : bool) (D : Z) : 0 < D -> Ieee.faithful 0 D (S754_zero s).
Proof.
  intros HD.
  split; [reflexivity|]. split; [reflexivity|]. split; [lia|]. split; [lia|]. split.
  - intros V HV _ _. split; [reflexivity|]. cbn. apply representable_nonneg, HV.
  - intros V HV Hle. right. cbn. cbn in Hle.
    pose proof (representable_nonneg V HV). nia.
Qed.

(** [binary_normalize] rounds the integer multiple of a power of two that
    it is given. *)
Lemma binary_normalize_faithful (m e : Z) :
  0 <= e + Ieee.bias ->
  Ieee.faithful (m * 2 ^ (e + Ieee.bias)) 1
    (binary_normalize Binary64.prec Binary64.emax m e false).
Proof.
  intros Hb. pose proof (pow2_pos (e + Ieee.bias) Hb) as Hp.
  destruct m as [|p|p]; cbn [binary_normalize].
  - rewrite Z.mul_0_l. apply faithful_zero. lia.
  - apply (rounded_faithful false (Zpos p * 2 ^ (e + Ieee.bias)) 1 _ _ 1);
      [apply binary_round_rounded, Hb | lia | nia | lia | reflexivity | nia].
  - apply (rounded_faithful true (Zpos p * 2 ^ (e + Ieee.bias)) 1 _ _ 1);
      [apply binary_round_rounded, Hb | lia | nia | lia | nia | reflexivity].
Qed.

End Operations.

Section Arithmetic.

Lemma finite_zero (s : bool) : Ieee.finite (S754_zero s).
Proof. split; reflexivity. Qed.

Lemma aligned (s : bool) (m : positive) (e ez : Z) :
  ez <= e -> 0 <= ez + Ieee.bias ->
  cond_Zopp s (Zpos (shl_align m e ez).1) * 2 ^ (ez + Ieee.bias)
  = Ieee.sval (S754_finite s m e).
Proof.
  intros Hle Hb. destruct (shl_align_spec m e ez) as (k & Hk & _ & Hm & Hdown & _).
  specialize (Hdown Hle). rewrite Hm. cbn [Ieee.sval].
  replace (e + Ieee.bias) with (k + (ez + Ieee.bias)) by lia.
  rewrite (pow2_add k) by lia. destruct s; cbn [cond_Zopp]; ring.
Qed.

Lemma SFadd_faithful (x y : spec_float) :
  Ieee.finite x -> Ieee.finite y ->
  Ieee.faithful (Ieee.sval x + Ieee.sval y) 1 (SFadd Binary64.prec Binary64.emax x y).
Proof.
  intros Hx Hy. pose proof bias_eq as Hbias.
  destruct x as [sx | sx | | sx mx ex]; try (destruct Hx as [_ Hx]; discriminate Hx);
    destruct y as [sy | sy | | sy my ey]; try (destruct Hy as [_ Hy]; discriminate Hy).
  - cbn [Ieee.sval SFadd]. destruct sx, sy; apply faithful_zero; lia.
  - cbn [SFadd]. change (Ieee.sval (S754_zero sx)) with 0. rewrite Z.add_0_l.
    apply faithful_self, Hy.
  - cbn [SFadd]. change (Ieee.sval (S754_zero sy)) with 0. rewrite Z.add_0_r.
    apply faithful_self, Hx.
  - cbn [SFadd]. destruct (valid_finite sx mx ex (proj1 Hx)) as (Hex & _).
    destruct (valid_finite sy my ey (proj1 Hy)) as (Hey & _).
    set (ez := Z.min ex ey).
    assert (Hez : ez <= ex /\ ez <= ey /\ 0 <= ez + Ieee.bias) by (unfold ez; lia).
    rewrite <- (aligned sx mx ex ez), <- (aligned sy my ey ez) by lia.
    rewrite <- Z.mul_add_distr_r. apply binary_normalize_faithful. lia.
Qed.

Lemma SFsub_faithful (x y : spec_float) :
  Ieee.finite x -> Ieee.finite y ->
  Ieee.faithful (Ieee.sval x - Ieee.sval y) 1 (SFsub Binary64.prec Binary64.emax x y).
Proof.
  intros Hx Hy. pose proof bias_eq as Hbias.
  destruct x as [sx | sx | | sx mx ex]; try (destruct Hx as [_ Hx]; discriminate Hx);
    destruct y as [sy | sy | | sy my ey]; try (destruct Hy as [_ Hy]; discriminate Hy).
  - cbn [Ieee.sval SFsub]. destruct sx, sy; apply faithful_zero; lia.
  - cbn [SFsub]. change (Ieee.sval (S754_zero sx)) with 0.
    replace (0 - Ieee.sval (S754_finite sy my ey))
      with (Ieee.sval (S754_finite (negb sy) my ey)) by (cbn; destruct sy; cbn; lia).
    apply faithful_self. split; [exact (proj1 Hy) | reflexivity].
  - cbn [SFsub]. change (Ieee.sval (S754_zero sy)) with 0. rewrite Z.sub_0_r.
    apply faithful_self, Hx.
  - cbn [SFsub]. destruct (valid_finite sx mx ex (proj1 Hx)) as (Hex & _).
    destruct (valid_finite sy my ey (proj1 Hy)) as (Hey & _).
    set (ez := Z.min ex ey).
    assert (Hez : ez <= ex /\ ez <= ey /\ 0 <= ez + Ieee.bias) by (unfold ez; lia).
    rewrite <- (aligned sx mx ex ez), <- (aligned sy my ey ez) by lia.
    rewrite <- Z.mul_sub_distr_r. apply binary_normalize_faithful. lia.
Qed.

Lemma of_Z_faithful (z : Z) : Ieee.faithful (z * 2 ^ Ieee.bias) 1 (Binary64.of_Z z).
Proof.
  unfold Binary64.of_Z. replace Ieee.bias with (0 + Ieee.bias) at 1 by lia.
  apply binary_normalize_faithful. pose proof bias_eq. lia.
Qed.

Lemma Zdigits2_mul (a b : positive) :
  Zdigits2 (Zpos a) + Zdigits2 (Zpos b) - 1 <= Zdigits2 (Zpos (a * b)).
Proof.
  destruct (Zdigits2_bounds (Zpos a) ltac:(lia)) as (Ha & Hal & _).
  destruct (Zdigits2_bounds (Zpos b) ltac:(lia)) as (Hb & Hbl & _).
  pose proof (pow2_pos (Zdigits2 (Zpos a) - 1) ltac:(lia)).
  pose proof (pow2_pos (Zdigits2 (Zpos b) - 1) ltac:(lia)).
  assert (Hprod : 2 ^ (Zdigits2 (Zpos a) - 1 + (Zdigits2 (Zpos b) - 1)) <= Zpos (a * b)).
  { rewrite pow2_add by lia. rewrite Pos2Z.inj_mul. nia. }
  pose proof (Zdigits2_ge _ _ Hprod ltac:(lia)). lia.
Qed.

Lemma SFmul_faithful (x y : spec_float) :
  Ieee.finite x -> Ieee.finite y ->
  Ieee.faithful (Ieee.sval x * Ieee.sval y) (2 ^ Ieee.bias)
    (SFmul Binary64.prec Binary64.emax x y).
Proof.
  intros Hx Hy. pose proof bias_eq as Hbias.
  assert (HB : 0 < 2 ^ Ieee.bias) by (apply pow2_pos; lia).
  destruct x as [sx | sx | | sx mx ex]; try (destruct Hx as [_ Hx]; discriminate Hx);
    destruct y as [sy | sy | | sy my ey]; try (destruct Hy as [_ Hy]; discriminate Hy);
    cbn [SFmul].
  - cbn [Ieee.sval]. apply faithful_zero, HB.
  - change (Ieee.sval (S754_zero sx)) with 0. rewrite Z.mul_0_l. apply faithful_zero, HB.
  - change (Ieee.sval (S754_zero sy)) with 0. rewrite Z.mul_0_r. apply faithful_zero, HB.
  - destruct (valid_finite sx mx ex (proj1 Hx)) as (Hex & Hdx & _ & Hnx).
    destruct (valid_finite sy my ey (proj1 Hy)) as (Hey & Hdy & _ & Hny).
    pose proof (Zdigits2_mul mx my) as Hd.
    destruct (Zdigits2_bounds (Zpos mx) ltac:(lia)) as (Hdx0 & _).
    destruct (Zdigits2_bounds (Zpos my) ltac:(lia)) as (Hdy0 & _).
    pose proof (pow2_pos (ex + Ieee.bias) ltac:(lia)) as Hpx.
    pose proof (pow2_pos (ey + Ieee.bias) ltac:(lia)) as Hpy.
    assert (Hpow : 2 ^ (ex + Ieee.bias) * 2 ^ (ey + Ieee.bias)
                   = 2 ^ (ex + ey + Ieee.bias) * 2 ^ Ieee.bias).
    { rewrite <- !pow2_add by lia. f_equal. lia. }
    apply (rounded_faithful (xorb sx sy) (Zpos (mx * my) * 2 ^ (ex + ey + Ieee.bias)) 1
             _ _ (2 ^ Ieee.bias)); [| exact HB | | lia | |].
    + apply round_aux_rounded; try lia.
      * rewrite Z.div_1_r. reflexivity.
      * rewrite Z.mod_1_r. split; reflexivity.
      * rewrite fexp_eq.
        destruct (Z_le_gt_dec ex (-1074)) as [Hxs | Hxn];
          destruct (Z_le_gt_dec ey (-1074)) as [Hys | Hyn];
          try (specialize (Hnx ltac:(lia))); try (specialize (Hny ltac:(lia))); lia.
    + cbn [Ieee.sval]. rewrite Pos2Z.inj_mul.
      replace (Z.abs _) with (Zpos mx * Zpos my * (2 ^ (ex + Ieee.bias) * 2 ^ (ey + Ieee.bias)))
        by (destruct sx, sy; nia).
      rewrite Hpow. ring.
    + cbn [Ieee.sval]. destruct sx, sy; cbn [xorb]; try reflexivity; intros; nia.
    + cbn [Ieee.sval]. destruct sx, sy; cbn [xorb]; try reflexivity; intros; nia.
Qed.

End Arithmetic.

Section Division.

Lemma new_location_exact (d r : Z) : new_location d r = loc_Exact <-> r = 0.
Proof.
  unfold new_location, new_location_even, new_location_odd.
  destruct (Z.even d); destruct (Z.eqb_spec r 0) as [E | E];
    split; intros H; try reflexivity; try assumption; try discriminate; contradiction.
Qed.

(** The quotient of two finite values that are not zero. *)
Lemma SFdiv_rounded (sx sy : bool) (mx my : positive) (ex ey : Z) :
  valid_binary Binary64.prec Binary64.emax (S754_finite sx mx ex) = true ->
  valid_binary Binary64.prec Binary64.emax (S754_finite sy my ey) = true ->
  Ieee.rounded (xorb sx sy) (Zpos mx * 2 ^ (ex - ey + Ieee.bias)) (Zpos my)
    (SFdiv Binary64.prec Binary64.emax (S754_finite sx mx ex) (S754_finite sy my ey)).
Proof.
  intros Hx Hy. pose proof bias_eq as Hbias.
  destruct (valid_finite sx mx ex Hx) as (Hex & Hdx & _).
  destruct (valid_finite sy my ey Hy) as (Hey & Hdy & _).
  destruct (Zdigits2_bounds (Zpos mx) ltac:(lia)) as (Hdx0 & Hxlo & Hxhi).
  destruct (Zdigits2_bounds (Zpos my) ltac:(lia)) as (Hdy0 & Hylo & Hyhi).
  cbn [SFdiv]. unfold SFdiv_core_binary. rewrite fexp_unfold.
  remember (Zdigits2 (Zpos mx)) as d1 eqn:Ed1. remember (Zdigits2 (Zpos my)) as d2 eqn:Ed2.
  remember (Z.min (Ieee.fexp (d1 + ex - (d2 + ey))) (ex - ey)) as e' eqn:Ee'.
  rewrite fexp_eq in Ee'.
  remember (ex - ey - e') as s eqn:Es.
  assert (Hs : 0 <= s) by lia.
  assert (Hm' : match s with
                | Zpos _ => Z.shiftl (Zpos mx) s
                | Z0 => Zpos mx
                | Zneg _ => 0
                end = Zpos mx * 2 ^ s).
  { destruct s as [|p|p]; [change (2 ^ 0) with 1; lia | | lia].
    rewrite Z.shiftl_mul_pow2 by lia. reflexivity. }
  rewrite Hm'. pose proof (pow2_pos s Hs) as HS.
  set (m' := Zpos mx * 2 ^ s) in *.
  destruct (Z.div_eucl m' (Zpos my)) as [q r] eqn:Ediv.
  assert (Hq : q = m' / Zpos my) by (unfold Z.div; rewrite Ediv; reflexivity).
  assert (Hr : r = m' mod Zpos my) by (unfold Z.modulo; rewrite Ediv; reflexivity).
  pose proof (Z.div_mod m' (Zpos my) ltac:(lia)) as Hdm.
  pose proof (Z.mod_pos_bound m' (Zpos my) ltac:(lia)) as Hrb.
  rewrite <- Hq, <- Hr in Hdm. rewrite <- Hr in Hrb.
  assert (Hq0 : 0 <= q) by (rewrite Hq; apply Z.div_pos; unfold m'; nia).
  assert (Hlow : 2 ^ (d1 - 1 + s) <= m').
  { unfold m'. rewrite pow2_add by lia. nia. }
  replace (Zpos mx * 2 ^ (ex - ey + Ieee.bias)) with (m' * 2 ^ (e' + Ieee.bias)).
  2:{ unfold m'. rewrite <- Z.mul_assoc, <- pow2_add by lia. f_equal. f_equal. lia. }
  apply round_aux_rounded; try lia.
  - rewrite new_location_exact. split; intros H; lia.
  - rewrite fexp_eq.
    destruct (Z.eq_dec q 0) as [-> | Hne].
    + cbn [Zdigits2]. destruct (Z_le_gt_dec e' (-1074)) as [Hle | Hgt]; [lia|]. exfalso.
      assert (Hbig : d2 <= d1 - 1 + s) by lia.
      pose proof (pow2_le d2 (d1 - 1 + s) ltac:(lia)). lia.
    + destruct (Zdigits2_bounds q ltac:(lia)) as (Hdq & _).
      destruct (Z_lt_ge_dec (d1 - 1 + s - d2) 0) as [Hneg | Hpos']; [lia|].
      assert (Hpos : 0 <= d1 - 1 + s - d2) by lia.
      assert (Hqlow : 2 ^ (d1 - 1 + s - d2) <= q).
      { rewrite Hq. apply Z.div_le_lower_bound; [lia|].
        pose proof (pow2_pos (d1 - 1 + s - d2) Hpos).
        assert (Zpos my * 2 ^ (d1 - 1 + s - d2) <= 2 ^ d2 * 2 ^ (d1 - 1 + s - d2)) by nia.
        rewrite <- pow2_add in H0 by lia.
        replace (d2 + (d1 - 1 + s - d2)) with (d1 - 1 + s) in H0 by lia. lia. }
      pose proof (Zdigits2_ge q _ Hqlow Hpos). lia.
Qed.

Lemma SFdiv_faithful (x y : spec_float) :
  Ieee.finite x -> Ieee.finite y -> 0 < Ieee.sval y ->
  Ieee.faithful (Ieee.sval x * 2 ^ Ieee.bias) (Ieee.sval y)
    (SFdiv Binary64.prec Binary64.emax x y).
Proof.
  intros Hx Hy Hpos. pose proof bias_eq as Hbias.
  assert (HB : 0 < 2 ^ Ieee.bias) by (apply pow2_pos; lia).
  destruct y as [sy | sy | | sy my ey]; try (cbn in Hpos; lia).
  destruct (valid_finite sy my ey (proj1 Hy)) as (Hey & _).
  pose proof (pow2_pos (ey + Ieee.bias) ltac:(lia)) as Hpy.
  destruct sy; [cbn in Hpos; nia|].
  destruct x as [sx | sx | | sx mx ex]; try (destruct Hx as [_ Hx]; discriminate Hx).
  - cbn [SFdiv]. change (Ieee.sval (S754_zero sx)) with 0. rewrite Z.mul_0_l.
    apply faithful_zero, Hpos.
  - destruct (valid_finite sx mx ex (proj1 Hx)) as (Hex & _).
    pose proof (pow2_pos (ex + Ieee.bias) ltac:(lia)) as Hpx.
    apply (rounded_faithful (xorb sx false) (Zpos mx * 2 ^ (ex - ey + Ieee.bias)) (Zpos my)
             _ _ (2 ^ (ey + Ieee.bias))).
    + apply SFdiv_rounded; [exact (proj1 Hx) | exact (proj1 Hy)].
    + exact Hpy.
    + cbn [Ieee.sval].
      replace (Z.abs _) with (Zpos mx * (2 ^ (ex + Ieee.bias) * 2 ^ Ieee.bias))
        by (destruct sx; nia).
      rewrite <- Z.mul_assoc, <- !pow2_add by lia. f_equal. f_equal. lia.
    + cbn [Ieee.sval]. lia.
    + cbn [Ieee.sval]. destruct sx; [intros; nia | reflexivity].
    + cbn [Ieee.sval]. destruct sx; [reflexivity | intros; nia].
Qed.

End Division.

Section Comparison.

Lemma canonical_order (s1 s2 : bool) (m1 m2 : positive) (e1 e2 : Z) :
  valid_binary Binary64.prec Binary64.emax (S754_finite s1 m1 e1) = true ->
  valid_binary Binary64.prec Binary64.emax (S754_finite s2 m2 e2) = true ->
  e1 < e2 -> Zpos m1 * 2 ^ (e1 + Ieee.bias) < Zpos m2 * 2 ^ (e2 + Ieee.bias).
Proof.
  intros H1 H2 Hlt. pose proof bias_eq as Hbias.
  destruct (valid_finite s1 m1 e1 H1) as (He1 & Hd1 & _).
  destruct (valid_finite s2 m2 e2 H2) as (He2 & Hd2 & _ & Hn2).
  specialize (Hn2 ltac:(lia)).
  destruct (Zdigits2_bounds (Zpos m1) ltac:(lia)) as (Hd1' & _ & Hhi).
  destruct (Zdigits2_bounds (Zpos m2) ltac:(lia)) as (_ & Hlo & _).
  rewrite Hn2 in Hlo. change (53 - 1) with 52 in Hlo.
  pose proof (pow2_le (Zdigits2 (Zpos m1)) 53 ltac:(lia)) as Hm1.
  pose proof (pow2_pos (e1 + Ieee.bias) ltac:(lia)) as Hp1.
  pose proof (pow2_pos (e2 + Ieee.bias) ltac:(lia)) as Hp2.
  pose proof (pow2_le (53 + (e1 + Ieee.bias)) (52 + (e2 + Ieee.bias)) ltac:(lia)) as Hle.
  rewrite (pow2_add 53), (pow2_add 52) in Hle by lia.
  assert (Zpos m1 * 2 ^ (e1 + Ieee.bias) < 2 ^ 53 * 2 ^ (e1 + Ieee.bias))
    by (apply Z.mul_lt_mono_pos_r; lia).
  assert (2 ^ 52 * 2 ^ (e2 + Ieee.bias) <= Zpos m2 * 2 ^ (e2 + Ieee.bias))
    by (apply Z.mul_le_mono_nonneg_r; lia).
  lia.
Qed.

Lemma compare_scaled (a b k : Z) : 0 < k -> (a * k ?= b * k) = (a ?= b).
Proof.
  intros Hk. destruct (Z.compare_spec a b) as [-> | Hlt | Hgt].
  - apply Z.compare_refl.
  - apply Z.compare_lt_iff. apply Z.mul_lt_mono_pos_r; assumption.
  - apply Z.compare_gt_iff. apply Z.mul_lt_mono_pos_r; assumption.
Qed.

(** The comparison of the format is the comparison of the values. *)
Lemma SFcompare_sval (x y : spec_float) :
  Ieee.finite x -> Ieee.finite y ->
  SFcompare x y = Some (Ieee.sval x ?= Ieee.sval y).
Proof.
  intros Hx Hy. pose proof bias_eq as Hbias.
  destruct x as [sx | sx | | sx mx ex]; try (destruct Hx as [_ Hx]; discriminate Hx);
    destruct y as [sy | sy | | sy my ey]; try (destruct Hy as [_ Hy]; discriminate Hy).
  - reflexivity.
  - destruct (valid_finite sy my ey (proj1 Hy)) as (Hey & _).
    pose proof (pow2_pos (ey + Ieee.bias) ltac:(lia)) as Hp.
    cbn [SFcompare Ieee.sval]. f_equal. symmetry.
    destruct sy; [apply Z.compare_gt_iff | apply Z.compare_lt_iff]; nia.
  - destruct (valid_finite sx mx ex (proj1 Hx)) as (Hex & _).
    pose proof (pow2_pos (ex + Ieee.bias) ltac:(lia)) as Hp.
    cbn [SFcompare Ieee.sval]. f_equal. symmetry.
    destruct sx; [apply Z.compare_lt_iff | apply Z.compare_gt_iff]; nia.
  - destruct (valid_finite sx mx ex (proj1 Hx)) as (Hex & _).
    destruct (valid_finite sy my ey (proj1 Hy)) as (Hey & _).
    pose proof (pow2_pos (ex + Ieee.bias) ltac:(lia)) as Hpx.
    pose proof (pow2_pos (ey + Ieee.bias) ltac:(lia)) as Hpy.
    cbn [SFcompare Ieee.sval]. f_equal. symmetry.
    destruct (Z.compare_spec ex ey) as [Heq | Hlt | Hgt].
    + subst ey. change (Pos.compare_cont Eq mx my) with (Zpos mx ?= Zpos my).
      destruct sx, sy.
      * rewrite Z.compare_antisym.
        replace (-1 * (Zpos my * 2 ^ (ex + Ieee.bias)) ?= -1 * (Zpos mx * 2 ^ (ex + Ieee.bias)))
          with (Zpos mx * 2 ^ (ex + Ieee.bias) ?= Zpos my * 2 ^ (ex + Ieee.bias)).
        -- rewrite compare_scaled by exact Hpx. reflexivity.
        -- rewrite <- Z.compare_opp. f_equal; lia.
      * apply Z.compare_lt_iff. nia.
      * apply Z.compare_gt_iff. nia.
      * rewrite !Z.mul_1_l. apply compare_scaled, Hpx.
    + pose proof (canonical_order sx sy mx my ex ey (proj1 Hx) (proj1 Hy) Hlt).
      destruct sx, sy; [apply Z.compare_gt_iff | apply Z.compare_lt_iff
                       | apply Z.compare_gt_iff | apply Z.compare_lt_iff]; nia.
    + pose proof (canonical_order sy sx my mx ey ex (proj1 Hy) (proj1 Hx) Hgt).
      destruct sx, sy; [apply Z.compare_lt_iff | apply Z.compare_lt_iff
                       | apply Z.compare_gt_iff | apply Z.compare_gt_iff]; nia.
Qed.

Lemma SFltb_sval (x y : spec_float) :
  Ieee.finite x -> Ieee.finite y -> SFltb x y = (Ieee.sval x <? Ieee.sval y).
Proof.
  intros Hx Hy. unfold SFltb, Z.ltb. rewrite (SFcompare_sval x y Hx Hy).
  destruct (Ieee.sval x ?= Ieee.sval y); reflexivity.
Qed.

Lemma SFleb_sval (x y : spec_float) :
  Ieee.finite x -> Ieee.finite y -> SFleb x y = (Ieee.sval x <=? Ieee.sval y).
Proof.
  intros Hx Hy. unfold SFleb, Z.leb. rewrite (SFcompare_sval x y Hx Hy).
  destruct (Ieee.sval x ?= Ieee.sval y); reflexivity.
Qed.

Lemma SFeqb_sval (x y : spec_float) :
  Ieee.finite x -> Ieee.finite y -> SFeqb x y = (Ieee.sval x =? Ieee.sval y).
Proof.
  intros Hx Hy. unfold SFeqb. rewrite (SFcompare_sval x y Hx Hy).
  destruct (Z.compare_spec (Ieee.sval x) (Ieee.sval y)) as [E | E | E]; symmetry;
    [apply Z.eqb_eq | apply Z.eqb_neq | apply Z.eqb_neq]; lia.
Qed.

End Comparison.

(* ===================================================================== *)
(** * The metrics engine                                                  *)
(* ===================================================================== *)

Section Engine.
Context {F : Type} `{FloatLaws F}.

Lemma max3_one_not_zero (a b : F) :
  Py.feqb (Py.max3 a b (Py.of_Z 1)) (Py.of_Z 0) = false.
Proof.
  unfold Py.max3. set (m := if Py.fltb a b then b else a).
  destruct (Py.fltb m (Py.of_Z 1)) eqn:E.
  - apply one_is_not_zero.
  - destruct (Py.feqb m (Py.of_Z 0)) eqn:Z0; [|reflexivity].
    apply zero_is_below_one in Z0. congruence.
Qed.

(** The division inside the loop never raises. *)
Lemma connection_efficiency_returns (a b : Node.Node F) :
  GridSimulator.connection_efficiency a b = Py.Returned (Spec.edge_efficiency (a, b)).
Proof.
  unfold GridSimulator.connection_efficiency, Py.truediv.
  rewrite max3_one_not_zero. reflexivity.
Qed.

Lemma efficiency_loop_sum (ns : list (Node.Node F)) (conns : list (Z * Z)) (acc : F) :
  GridSimulator.efficiency_loop ns conns acc =
  Py.Returned (fold_left Py.fadd
                 (map Spec.edge_efficiency (omap (Spec.endpoints ns) conns)) acc).
Proof.
  revert acc. induction conns as [|[start end_] rest IH]; intros acc; [reflexivity|].
  cbn [GridSimulator.efficiency_loop omap list_omap].
  unfold Spec.endpoints at 1. cbn [fst snd].
  destruct (GridSimulator.node_with_item start ns) as [a|]; cbn.
  - destruct (GridSimulator.node_with_item end_ ns) as [b|]; cbn.
    + rewrite connection_efficiency_returns. cbn. apply IH.
    + apply IH.
  - apply IH.
Qed.

(** With no connection the efficiency is the literal 0.5. *)
Lemma path_efficiency_no_connections (t : GridSimulator.topology F) :
  GridSimulator.connections t = [] ->
  GridSimulator.calculate_path_efficiency t = Py.Returned (Py.dec 5 1).
Proof. intros E. unfold GridSimulator.calculate_path_efficiency. rewrite E. reflexivity. Qed.

(** What the code computes when there is a first connection [c]. *)
Lemma path_efficiency_of_nonempty (t : GridSimulator.topology F) (c : Z * Z) (cs : list (Z * Z)) :
  GridSimulator.connections t = c :: cs ->
  GridSimulator.calculate_path_efficiency t
  = Py.Returned
      (Py.fdiv
         (fold_left Py.fadd
            (map Spec.edge_efficiency (omap (Spec.endpoints (GridSimulator.nodes t)) (c :: cs)))
            (Py.of_Z 0))
         (Py.of_Z (Z.of_nat (S (length cs))))).
Proof.
  intros E. unfold GridSimulator.calculate_path_efficiency. rewrite E.
  rewrite efficiency_loop_sum. cbn [mbind Py.outcome_bind length].
  replace (0 <? Z.of_nat (S (length cs))) with true by (symmetry; apply Z.ltb_lt; lia).
  unfold Py.truediv_int.
  replace (Z.of_nat (S (length cs)) =? 0) with false by (symmetry; apply Z.eqb_neq; lia).
  reflexivity.
Qed.

(** C4. With at least one connection, [calculate_path_efficiency] returns
    the sum of 1 - |eA - eB| / max(|eA|, |eB|, 1) over the connections both
    of whose end lookups succeed (added left to right), divided by the
    number of all connections, skipped ones included.  This holds in any
    arithmetic satisfying [FloatLaws], binary64 and the rationals alike. *)
Theorem path_efficiency_is_resolved_sum_over_all_edges (t : GridSimulator.topology F) :
  GridSimulator.connections t <> [] ->
  GridSimulator.calculate_path_efficiency t = Py.Returned (Spec.path_efficiency t).
Proof.
  intros Hne. destruct (GridSimulator.connections t) as [|c cs] eqn:E; [congruence|].
  rewrite (path_efficiency_of_nonempty t c cs E).
  unfold Spec.path_efficiency, Py.sum. rewrite E. reflexivity.
Qed.

End Engine.

(** The connected pair of the editing session, in binary64. *)
Lemma path_efficiency_is_resolved_sum_over_all_edges_witness :
  GridSimulator.calculate_path_efficiency
    (Scenario.topology_of (Scenario.connected_pair (Binary64.of_Z 100) (Binary64.of_Z 40)))
  = Py.Returned
      (Spec.path_efficiency
         (Scenario.topology_of
            (Scenario.connected_pair (Binary64.of_Z 100) (Binary64.of_Z 40)))).
Proof.
  apply (path_efficiency_is_resolved_sum_over_all_edges (F := spec_float)).
  vm_compute. discriminate.
Defined.

(** With no connection, whatever [simulate_performance] returns carries
    the percentage of the literal 0.5. *)
Lemma no_connections_efficiency_percent {F : Type} `{Py.Float F}
    (t : GridSimulator.topology F) (r : GridSimulator.performance F) :
  GridSimulator.connections t = [] ->
  GridSimulator.simulate_performance t = Py.Returned r ->
  GridSimulator.average_efficiency r = Py.fmul (Py.dec 5 1) (Py.of_Z 100).
Proof.
  intros E. unfold GridSimulator.simulate_performance, GridSimulator.calculate_path_efficiency.
  rewrite E. cbn [mbind mret Py.outcome_bind Py.outcome_ret].
  destruct (Py.truediv _ _); cbn; [|discriminate].
  intros [= <-]. reflexivity.
Qed.

(** ... and it does return unless the demand is the negated epsilon. *)
Lemma no_connections_returns {F : Type} `{Py.Float F} (t : GridSimulator.topology F) :
  GridSimulator.connections t = [] ->
  Py.feqb (Py.fadd (GridSimulator.energy_of GridSimulator.consumers (GridSimulator.nodes t))
                   (Py.dec 1 3)) (Py.of_Z 0) = false ->
  exists r, GridSimulator.simulate_performance t = Py.Returned r.
Proof.
  intros E Hd. unfold GridSimulator.simulate_performance, GridSimulator.calculate_path_efficiency.
  rewrite E. cbn [mbind mret Py.outcome_bind Py.outcome_ret].
  unfold Py.truediv. rewrite Hd. eexists. reflexivity.
Qed.

(* ===================================================================== *)
(** * Concrete runs in binary64                                           *)
(* ===================================================================== *)

Section Binary64Runs.

Lemma fifty_percent_binary64 : Py.fmul (Py.dec 5 1) (Py.of_Z 100) = Binary64.of_Z 50.
Proof. reflexivity. Qed.

(** C10. On the empty topology the engine returns without error: output 0,
    demand 0, efficiency 50.0 per cent and load balance 0.0 per cent; the
    application itself shows a warning instead of calling the engine. *)
Theorem empty_topology_performance :
  GridSimulator.simulate_performance
    {| GridSimulator.nodes := []; GridSimulator.connections := [] |}
  = Py.Returned {| GridSimulator.total_energy_output := Binary64.of_Z 0;
                   GridSimulator.total_energy_demand := Binary64.of_Z 0;
                   GridSimulator.average_efficiency := Binary64.of_Z 50;
                   GridSimulator.load_balance := Binary64.of_Z 0 |}
  /\ (GridApp.simulate_performance (F := spec_float) GridApp.setup_variables
      = Py.Returned None).
Proof. split; reflexivity. Qed.

(** C3. One generator with energy 100 and one city with energy 40, joined
    by one connection whose two lookups find them (in either order of the
    node list and either direction of the connection): output 40, demand
    40, efficiency 40.0 per cent, load balance 100.0 per cent, exactly, in
    binary64. *)
Theorem generator_100_city_40_connected
    (g c : Node.Node spec_float) (t : GridSimulator.topology spec_float) :
  Node.node_type g = "Generator" -> Node.energy g = Binary64.of_Z 100 ->
  Node.node_type c = "City" -> Node.energy c = Binary64.of_Z 40 ->
  Node.item g <> Node.item c ->
  GridSimulator.nodes t = [g; c] \/ GridSimulator.nodes t = [c; g] ->
  GridSimulator.connections t = [(Node.item g, Node.item c)] \/
  GridSimulator.connections t = [(Node.item c, Node.item g)] ->
  GridSimulator.simulate_performance t
  = Py.Returned {| GridSimulator.total_energy_output := Binary64.of_Z 40;
                   GridSimulator.total_energy_demand := Binary64.of_Z 40;
                   GridSimulator.average_efficiency := Binary64.of_Z 40;
                   GridSimulator.load_balance := Binary64.of_Z 100 |}.
Proof.
  destruct g as [gty gsize ge gimg gi], c as [cty csize ce cimg ci], t as [ns conns].
  cbn [Node.node_type Node.energy Node.item GridSimulator.nodes GridSimulator.connections].
  intros -> -> -> -> Hne Hn Hc.
  assert (Hgc : (gi =? ci) = false) by (apply Z.eqb_neq; exact Hne).
  assert (Hcg : (ci =? gi) = false) by (apply Z.eqb_neq; congruence).
  unfold GridSimulator.simulate_performance, GridSimulator.calculate_path_efficiency.
  cbn [GridSimulator.nodes GridSimulator.connections].
  destruct Hn as [-> | ->], Hc as [-> | ->];
    cbn [GridSimulator.efficiency_loop GridSimulator.node_with_item Py.next List.find
         Node.item];
    rewrite ?Z.eqb_refl, ?Hgc, ?Hcg; reflexivity.
Qed.

(** The connected pair of the editing session is such a topology. *)
Lemma generator_100_city_40_connected_witness :
  GridSimulator.simulate_performance
    (Scenario.topology_of
       (Scenario.connected_pair (Binary64.of_Z 100) (Binary64.of_Z 40)))
  = Py.Returned {| GridSimulator.total_energy_output := Binary64.of_Z 40;
                   GridSimulator.total_energy_demand := Binary64.of_Z 40;
                   GridSimulator.average_efficiency := Binary64.of_Z 40;
                   GridSimulator.load_balance := Binary64.of_Z 100 |}.
Proof.
  apply (generator_100_city_40_connected
           {| Node.node_type := "Generator"; Node.size := 50;
              Node.energy := Binary64.of_Z 100; Node.image := Some "generator.png";
              Node.item := 1 |}
           {| Node.node_type := "City"; Node.size := 50;
              Node.energy := Binary64.of_Z 40; Node.image := Some "city.png";
              Node.item := 3 |});
    [reflexivity | reflexivity | reflexivity | reflexivity | discriminate
    | left; vm_compute; reflexivity | left; vm_compute; reflexivity].
Defined.

(** C5 (the code at the failing input).  A single city whose energy is set
    to -0.001: the demand is -0.001, the divisor [total_demand + 0.001] is
    zero, and [simulate_performance] raises ZeroDivisionError. *)
Theorem demand_minus_epsilon_divides_by_zero :
  let t := Scenario.topology_of (Scenario.lone_city (Py.dec (-1) 3)) in
  map Node.node_type (GridSimulator.nodes t) = ["City"] /\
  GridSimulator.connections t = [] /\
  GridSimulator.energy_of GridSimulator.consumers (GridSimulator.nodes t)
    = SFopp (Py.dec 1 3) /\
  Py.fadd (GridSimulator.energy_of GridSimulator.consumers (GridSimulator.nodes t))
          (Py.dec 1 3) = S754_zero false /\
  GridSimulator.simulate_performance t = Py.Raised Py.ZeroDivisionError.
Proof. cbv zeta. repeat split; vm_compute; reflexivity. Qed.

(** C8 (the code at the failing input).  The application with that single
    city and no connection: pressing Simulate raises ZeroDivisionError, so
    no efficiency of 50.0 per cent is returned. *)
Theorem no_edges_yet_no_efficiency_returned :
  exists app : GridApp.GridApp spec_float,
    Scenario.lone_city (Py.dec (-1) 3) = Py.Returned app /\
    length (GridApp.nodes app) = 1%nat /\
    GridApp.connections app = [] /\
    GridSimulator.calculate_path_efficiency (GridApp.grid_topology app)
      = Py.Returned (Py.dec 5 1) /\
    GridApp.simulate_performance app = Py.Raised Py.ZeroDivisionError.
Proof. eexists. split; [vm_compute; reflexivity|]. repeat split; vm_compute; reflexivity. Qed.

(** C1 (the code at the failing input).  Generator 1 and city 3 joined by
    the connection (1, 3); the generator is then moved.  The connection
    list is unchanged and type and energy are kept, but the generator is
    now a new node whose item is 6: no node has item 1 any more, the
    connection's start lookup fails, and the path efficiency drops from
    0.4 to 0. *)
Theorem move_gives_the_node_a_new_item :
  exists before after : GridApp.GridApp spec_float,
    Scenario.connected_pair (Binary64.of_Z 100) (Binary64.of_Z 40) = Py.Returned before /\
    GridApp.update_node_position Scenario.image_opens Scenario.find_overlapping
      1 200 100 before = Py.Returned after /\
    GridApp.connections before = [(1, 3)] /\
    GridApp.connections after = [(1, 3)] /\
    map Node.item (GridApp.nodes before) = [1; 3] /\
    map Node.item (GridApp.nodes after) = [6; 3] /\
    map Node.energy (GridApp.nodes after) = map Node.energy (GridApp.nodes before) /\
    map Node.node_type (GridApp.nodes after) = map Node.node_type (GridApp.nodes before) /\
    GridSimulator.node_with_item 1 (GridApp.nodes after) = None /\
    GridSimulator.calculate_path_efficiency (GridApp.grid_topology before)
      = Py.Returned (Py.dec 4 1) /\
    GridSimulator.calculate_path_efficiency (GridApp.grid_topology after)
      = Py.Returned (Binary64.of_Z 0).
Proof.
  do 2 eexists. split; [vm_compute; reflexivity|]. split; [vm_compute; reflexivity|].
  repeat split; vm_compute; reflexivity.
Qed.

End Binary64Runs.

(* ===================================================================== *)
(** * The topology store                                                  *)
(* ===================================================================== *)

Section Store.
Context {F : Type} `{Py.Float F}.
Variable image_opens : string -> bool.
Variable find_overlapping : Tk.Canvas -> list Z -> list Z.

Lemma has_node_filter_other (i j : Z) (ns : list (Node.Node F)) :
  i <> j ->
  Spec.has_node i (List.filter (fun node => negb (Node.item node =? j)) ns)
  = Spec.has_node i ns.
Proof.
  intros Hij. unfold Spec.has_node. induction ns as [|n ns IH]; [reflexivity|].
  cbn [List.filter existsb]. destruct (Node.item n =? j) eqn:Ej; cbn [negb existsb].
  - rewrite IH. apply Z.eqb_eq in Ej.
    replace (Node.item n =? i) with false; [reflexivity|].
    symmetry. apply Z.eqb_neq. congruence.
  - rewrite IH. reflexivity.
Qed.

Lemma has_node_filter_same (i : Z) (ns : list (Node.Node F)) :
  Spec.has_node i (List.filter (fun node => negb (Node.item node =? i)) ns) = false.
Proof.
  unfold Spec.has_node. induction ns as [|n ns IH]; [reflexivity|].
  cbn [List.filter]. destruct (Node.item n =? i) eqn:E; cbn [negb existsb].
  - exact IH.
  - rewrite E, IH. reflexivity.
Qed.

Lemma remove_node_returns (item : Z) (app : GridApp.GridApp F) :
  exists app',
    GridApp.remove_node find_overlapping item app = Py.Returned app' /\
    GridApp.nodes app'
      = List.filter (fun node => negb (Node.item node =? item)) (GridApp.nodes app) /\
    GridApp.connections app'
      = List.filter (fun '(start, end_) => negb (start =? item) && negb (end_ =? item))
          (GridApp.connections app) /\
    GridApp.node_coords app' = delete item (GridApp.node_coords app).
Proof. eexists. repeat split. Qed.

(** C6. [remove_node(N)] returns, and afterwards no node carries N (nor is
    N a key of [node_coords]), no connection has N at either end, and, if
    every connection's two ends were present nodes before, they still are:
    the cascade keeps the invariant that removing the node alone would
    break. *)
Theorem remove_node_cascades (N : Z) (app : GridApp.GridApp F) :
  exists app',
    GridApp.remove_node find_overlapping N app = Py.Returned app' /\
    Spec.has_node N (GridApp.nodes app') = false /\
    GridApp.node_coords app' !! N = None /\
    List.filter (Spec.references N) (GridApp.connections app') = [] /\
    (Spec.edges_closed (GridApp.grid_topology app) = true ->
     Spec.edges_closed (GridApp.grid_topology app') = true).
Proof.
  destruct (remove_node_returns N app) as (app' & Hret & Hn & Hc & Hk).
  exists app'. split; [exact Hret|].
  unfold GridApp.nodes, GridApp.connections in *.
  split; [rewrite Hn; apply has_node_filter_same|].
  split; [rewrite Hk; apply lookup_delete_eq|].
  split.
  - rewrite Hc. clear.
    induction (GridSimulator.connections (GridApp.grid_topology app))
      as [|[a b] cs IH]; [reflexivity|].
    cbn [List.filter]. destruct (a =? N) eqn:Ea; cbn [negb andb]; [exact IH|].
    destruct (b =? N) eqn:Eb; cbn [negb]; [exact IH|].
    cbn [List.filter]. unfold Spec.references at 1. cbn [fst snd].
    rewrite Ea, Eb. exact IH.
  - unfold Spec.edges_closed. rewrite Hn, Hc.
    rewrite !forallb_forall. intros Hall [a b] Hin.
    apply filter_In in Hin as [Hin Hkeep]. cbn [fst snd].
    apply andb_true_iff in Hkeep as [Ha Hb].
    apply negb_true_iff, Z.eqb_neq in Ha, Hb.
    specialize (Hall _ Hin). cbn [fst snd] in Hall.
    rewrite !has_node_filter_other by assumption. exact Hall.
Qed.

(** C7 (as the code has it).  [add_connection(x, x)] returns normally,
    raising nothing, and leaves the application as it was: connections,
    nodes and canvas; whether or not x is the item of a node. *)
Theorem add_connection_self_is_silent_noop (x : Z) (app : GridApp.GridApp F) :
  GridApp.add_connection x x app = Py.Returned app.
Proof. unfold GridApp.add_connection. rewrite Z.eqb_refl. reflexivity. Qed.



End Store.

(** The generator of the connected pair removed, in binary64. *)
Lemma remove_node_cascades_witness :
  exists app',
    GridApp.remove_node Scenario.find_overlapping 1
      (Scenario.app_of (Scenario.connected_pair (Binary64.of_Z 100) (Binary64.of_Z 40)))
      = Py.Returned app' /\
    Spec.has_node 1 (GridApp.nodes app') = false /\
    List.filter (Spec.references 1) (GridApp.connections app') = [] /\
    Spec.edges_closed (GridApp.grid_topology app') = true.
Proof.
  destruct (remove_node_cascades Scenario.find_overlapping 1
              (Scenario.app_of
                 (Scenario.connected_pair (Binary64.of_Z 100) (Binary64.of_Z 40))))
    as (app' & Hret & Hnode & _ & Hconn & Hinv).
  exists app'. repeat split; try assumption.
  apply Hinv. vm_compute. reflexivity.
Defined.

(** C7 (the claim at a concrete input).  With nodes 1 and 3 on the canvas,
    [add_connection(1, 1)] (a node) and [add_connection(9, 9)] (no such
    item) both return normally with the application unchanged: nothing is
    raised. *)
Lemma add_connection_self_returns_normally :
  exists app : GridApp.GridApp spec_float,
    Scenario.two_nodes (Binary64.of_Z 100) (Binary64.of_Z 40) = Py.Returned app /\
    Spec.has_node 1 (GridApp.nodes app) = true /\
    Spec.has_node 9 (GridApp.nodes app) = false /\
    GridApp.add_connection 1 1 app = Py.Returned app /\
    GridApp.add_connection 9 9 app = Py.Returned app /\
    ~ Py.raises (GridApp.add_connection 1 1 app) /\
    ~ Py.raises (GridApp.add_connection 9 9 app).
Proof.
  eexists. split; [vm_compute; reflexivity|].
  repeat split; try (vm_compute; reflexivity); intros [e He]; vm_compute in He; discriminate He.
Qed.

(* ===================================================================== *)
(** * An invariant of every editing session                               *)
(* ===================================================================== *)

Section Reachability.
Context {F : Type} `{Py.Float F}.
Variable image_opens : string -> bool.
Variable find_overlapping : Tk.Canvas -> list Z -> list Z.

Lemma fold_keeps_next_id {A : Type} (f : Tk.Canvas -> A -> Tk.Canvas) (l : list A) :
  (forall c a, Tk.next_id (f c a) = Tk.next_id c) ->
  forall c, Tk.next_id (fold_left f l c) = Tk.next_id c.
Proof.
  intros Hf. induction l as [|a l IH]; intros c; [reflexivity|].
  cbn [fold_left]. rewrite IH. apply Hf.
Qed.

Lemma update_connections_next_id (item x y : Z) (c : Tk.Canvas) :
  Tk.next_id (GridApp.update_connections find_overlapping item x y c) = Tk.next_id c.
Proof.
  unfold GridApp.update_connections. apply fold_keeps_next_id. intros c' conn.
  destruct (Tk.coords conn c') as [|c0 [|c1 [|c2 [|c3 [|]]]]]; try reflexivity.
  destruct ((c0 =? x) && (c1 =? y)); reflexivity.
Qed.

(** A newly constructed node takes the next id of the canvas, which moves
    on by two (the picture and its label). *)
Lemma init_takes_next_id (node_type : string) (x y : Z) (e : F) (c : Tk.Canvas) :
  Node.item (Node.init image_opens node_type x y e c).1 = Tk.next_id c /\
  Tk.next_id (Node.init image_opens node_type x y e c).2 = Tk.next_id c + 2.
Proof.
  unfold Node.init, Node.draw.
  destruct (Node.load_image image_opens node_type); cbn; split; lia.
Qed.

Lemma items_below_weaken (ns : list (Node.Node F)) (a b : Z) :
  a <= b -> Forall (fun n => Node.item n < a) ns -> Forall (fun n => Node.item n < b) ns.
Proof. intros Hab Hall. eapply Forall_impl; [exact Hall|]. intros n Hn. cbn in Hn. lia. Qed.

(** Putting a node with a fresh item at any index keeps the items distinct. *)
Lemma insert_fresh_item (ns : list (Node.Node F)) (new : Node.Node F) (nid : Z) :
  Node.item new = nid ->
  Forall (fun n => Node.item n < nid) ns ->
  NoDup (map Node.item ns) ->
  forall k, NoDup (map Node.item (<[k := new]> ns)) /\
            Forall (fun n => Node.item n < nid + 1) (<[k := new]> ns).
Proof.
  intros Hnew Hbelow. induction Hbelow as [|a ns Ha Hbelow IH]; intros Hnd k.
  - split; [exact Hnd | constructor].
  - cbn [map] in Hnd. apply NoDup_cons in Hnd as [Hnotin Hnd].
    destruct k as [|k]; cbn [insert list_insert map].
    + split.
      * apply NoDup_cons. split; [|exact Hnd].
        intros Hin. apply list_elem_of_fmap in Hin as (n & Hn & Hin).
        rewrite Forall_forall in Hbelow. specialize (Hbelow n Hin). lia.
      * constructor; [lia|]. apply (items_below_weaken ns nid); [lia | exact Hbelow].
    + destruct (IH Hnd k) as [IHnd IHbelow]. split.
      * apply NoDup_cons. split; [|exact IHnd].
        intros Hin. apply list_elem_of_fmap in Hin as (n & Hn & Hin).
        apply list_elem_of_lookup in Hin as [i Hi].
        apply list_lookup_insert_Some in Hi as [(_ & <- & _) | (_ & Hi)].
        -- lia.
        -- apply Hnotin. apply list_elem_of_fmap. exists n.
           split; [exact Hn | apply (list_elem_of_lookup_2 _ i), Hi].
      * constructor; [lia | exact IHbelow].
Qed.

Lemma filter_keeps_items_distinct (p : Node.Node F -> bool) (ns : list (Node.Node F)) :
  NoDup (map Node.item ns) -> NoDup (map Node.item (List.filter p ns)).
Proof.
  induction ns as [|a ns IH]; intros Hnd; [exact Hnd|].
  cbn [map] in Hnd. apply NoDup_cons in Hnd as [Hnotin Hnd].
  cbn [List.filter]. destruct (p a); [|apply IH, Hnd].
  cbn [map]. apply NoDup_cons. split; [|apply IH, Hnd].
  intros Hin. apply Hnotin. apply list_elem_of_fmap in Hin as (n & Hn & Hin).
  apply list_elem_of_fmap. exists n. split; [exact Hn|].
  apply list_elem_of_In. apply list_elem_of_In, filter_In in Hin. tauto.
Qed.

Lemma filter_keeps_items_below (p : Node.Node F -> bool) (ns : list (Node.Node F)) (nid : Z) :
  Forall (fun n => Node.item n < nid) ns ->
  Forall (fun n => Node.item n < nid) (List.filter p ns).
Proof.
  rewrite !Forall_forall. intros Hall n Hin. apply Hall.
  apply list_elem_of_In. apply list_elem_of_In, filter_In in Hin. tauto.
Qed.

(** Every action keeps the items of the nodes distinct and below the next
    id of the canvas. *)
Lemma step_keeps_items_fresh (app app' : GridApp.GridApp F) :
  Editor.step image_opens find_overlapping app app' ->
  Editor.items_fresh app -> Editor.items_fresh app'.
Proof.
  unfold Editor.items_fresh, GridApp.nodes.
  intros Hstep [Hnd Hbelow]. destruct Hstep as
    [app ty | app app' x y Hret | app app' item x y Hret | app app' item Hret
    | app app' a b Hret | app app' item Hret | app app' current answer Hret].
  - split; assumption.
  - unfold GridApp.add_node in Hret.
    pose proof (init_takes_next_id (GridApp.node_type_var app)
                  (Py.round_div x GridApp.GRID_SIZE * GridApp.GRID_SIZE)
                  (Py.round_div y GridApp.GRID_SIZE * GridApp.GRID_SIZE)
                  (Py.of_Z 0) (GridApp.canvas app)) as [Hitem Hnext].
    destruct (Node.init _ _ _ _ _ _) as [new_node canvas']. cbn [fst snd] in Hitem, Hnext.
    destruct (Node.item new_node =? 0); injection Hret as <-;
      cbn [GridApp.grid_topology GridApp.canvas GridSimulator.nodes]; rewrite Hnext.
    + split; [exact Hnd|]. apply (items_below_weaken _ (Tk.next_id (GridApp.canvas app)));
        [lia | exact Hbelow].
    + unfold GridApp.nodes. split.
      * rewrite map_app. apply NoDup_app. split; [exact Hnd|]. split.
        -- intros i Hi Hin. cbn in Hin. apply list_elem_of_singleton in Hin. subst i.
           apply list_elem_of_fmap in Hi as (n & Hn & Hi).
           rewrite Forall_forall in Hbelow. specialize (Hbelow n Hi). lia.
        -- cbn. apply NoDup_singleton.
      * apply Forall_app. split.
        -- apply (items_below_weaken _ (Tk.next_id (GridApp.canvas app))); [lia | exact Hbelow].
        -- constructor; [lia | constructor].
  - unfold GridApp.update_node_position, GridApp.nodes in Hret.
    destruct (list_find _ _) as [[k node]|].
    + pose proof (init_takes_next_id (Node.node_type node) x y (Node.energy node)
                    (GridApp.canvas app)) as [Hitem Hnext].
      destruct (Node.init _ _ _ _ _ _) as [new_node canvas']. cbn [fst snd] in Hitem, Hnext.
      injection Hret as <-. cbn [GridApp.grid_topology GridApp.canvas GridSimulator.nodes].
      rewrite update_connections_next_id, Hnext.
      destruct (insert_fresh_item _ new_node _ Hitem Hbelow Hnd k) as [Hnd' Hbelow'].
      split; [exact Hnd'|].
      apply (items_below_weaken _ (Tk.next_id (GridApp.canvas app) + 1)); [lia | exact Hbelow'].
    + injection Hret as <-. cbn [GridApp.grid_topology GridApp.canvas GridSimulator.nodes].
      rewrite update_connections_next_id. split; assumption.
  - unfold GridApp.remove_node, GridApp.remove_connections in Hret. injection Hret as <-.
    cbn [GridApp.grid_topology GridApp.canvas GridSimulator.nodes GridApp.nodes].
    rewrite (fold_keeps_next_id (fun c conn => Tk.delete conn c)) by reflexivity.
    cbn [Tk.next_id Tk.delete_tag Tk.delete]. unfold GridApp.nodes.
    split; [apply filter_keeps_items_distinct, Hnd | apply filter_keeps_items_below, Hbelow].
  - unfold GridApp.add_connection in Hret.
    destruct (negb (a =? b)); [|injection Hret as <-; split; assumption].
    destruct (Tk.coords a (GridApp.canvas app)) as [|s0 [|s1 srest]];
      try (injection Hret as <-; split; assumption).
    destruct (Tk.coords b (GridApp.canvas app)) as [|e0 [|e1 erest]];
      try (injection Hret as <-; split; assumption).
    injection Hret as <-. cbn. split; [exact Hnd|].
    apply (items_below_weaken _ (Tk.next_id (GridApp.canvas app))); [lia | exact Hbelow].
  - unfold GridApp.remove_connection in Hret. injection Hret as <-. split; assumption.
  - unfold GridApp.set_node_energy, GridApp.nodes in Hret.
    destruct current as [|item rest]; [discriminate Hret|].
    destruct (list_find _ _) as [[i node]|] eqn:Hfind;
      [|injection Hret as <-; split; assumption].
    destruct answer as [energy|]; [|injection Hret as <-; split; assumption].
    injection Hret as <-. cbn [GridApp.grid_topology GridApp.canvas GridSimulator.nodes].
    apply list_find_Some in Hfind as (Hi & _ & _).
    split.
    + change (map Node.item ?l) with (Node.item <$> l). rewrite list_fmap_insert.
      cbn [Node.update_energy Node.item]. rewrite list_insert_id; [exact Hnd|].
      rewrite list_lookup_fmap, Hi. reflexivity.
    + rewrite Forall_forall in *. intros n Hn.
      apply list_elem_of_lookup in Hn as [j Hj].
      apply list_lookup_insert_Some in Hj as [(_ & <- & _) | (_ & Hj)].
      * cbn. apply Hbelow, (list_elem_of_lookup_2 _ i), Hi.
      * apply Hbelow, (list_elem_of_lookup_2 _ j), Hj.
Qed.


End Reachability.



(* ===================================================================== *)
(** * Sampling without replacement                                        *)
(* ===================================================================== *)

Section Sampling.
Context {A : Type}.
Implicit Types (pool : list A) (g : Random.source).
Local Open Scope nat_scope.

Lemma randbelow_lt (n : nat) g : (0 < n) -> ((Random.randbelow n g).1 < n).
Proof.
  intros Hn. unfold Random.randbelow, Random.draw. cbn [fst].
  pose proof (Z.mod_pos_bound (g O) (Z.of_nat n) ltac:(lia)). lia.
Qed.

(** One step of the selection loop: after [pool[j] = pool[m-1]] the first
    m-1 slots hold what the first m held, without the selected element. *)
Lemma vacancy_filled pool (m j : nat) (x y : A) :
  (j < m) -> (pool !! j = Some x) -> (pool !! (m - 1) = Some y) ->
  NoDup (take m pool) ->
  (x ∉ take (m - 1) (<[j := y]> pool)) /\
  NoDup (take (m - 1) (<[j := y]> pool)) /\
  (forall z, z ∈ take (m - 1) (<[j := y]> pool) -> z ∈ take m pool).
Proof.
  intros Hj Hx Hy Hnd.
  assert (Hinj : forall i1 i2 z, (i1 < m) -> (i2 < m) ->
                   pool !! i1 = Some z -> pool !! i2 = Some z -> i1 = i2).
  { intros i1 i2 z H1 H2 E1 E2.
    apply (proj1 (NoDup_alt _) Hnd i1 i2 z); rewrite lookup_take_lt; assumption. }
  assert (Hlook : forall i z, <[j := y]> pool !! i = Some z ->
                    (i = j /\ z = y) \/ (i <> j /\ pool !! i = Some z)).
  { intros i z E. apply list_lookup_insert_Some in E.
    destruct E as [(Hi & Hz & _) | (Hi & E)]; [left | right]; auto. }
  split; [|split].
  - intros Hin. apply elem_of_take in Hin as (i & E & Hi).
    destruct (Hlook _ _ E) as [[Hij Hxy] | [Hne E']].
    + subst i. rewrite Hxy in Hx.
      assert (j = (m - 1)) by (apply (Hinj _ _ y); [lia | lia | assumption..]). lia.
    + apply Hne. apply (Hinj _ _ x); [lia | lia | assumption..].
  - apply NoDup_alt. intros i1 i2 z E1 E2.
    apply lookup_take_Some in E1 as [E1 H1], E2 as [E2 H2].
    destruct (Hlook _ _ E1) as [[Hi1 Hz1] | [N1 E1']],
             (Hlook _ _ E2) as [[Hi2 Hz2] | [N2 E2']].
    + congruence.
    + subst z. assert (i2 = (m - 1)) by (apply (Hinj _ _ y); [lia | lia | assumption..]). lia.
    + subst z. assert (i1 = (m - 1)) by (apply (Hinj _ _ y); [lia | lia | assumption..]). lia.
    + apply (Hinj _ _ z); [lia | lia | assumption..].
  - intros z Hin. apply elem_of_take in Hin as (i & E & Hi). apply elem_of_take.
    destruct (Hlook _ _ E) as [[Hij Hzy] | [Hne E']].
    + subst z. exists (m - 1). split; [assumption | lia].
    + exists i. split; [assumption | lia].
Qed.

(** The selection loop draws [k] distinct elements of the first [m] slots. *)
Lemma sample_pool_distinct (k : nat) : forall (m : nat) pool g,
  (k <= m) -> (m <= length pool) -> NoDup (take m pool) ->
  length (Random.sample_pool k m pool g).1 = k /\
  NoDup (Random.sample_pool k m pool g).1 /\
  (forall z, z ∈ (Random.sample_pool k m pool g).1 -> z ∈ take m pool).
Proof.
  induction k as [|k IH]; intros m pool g Hk Hm Hnd.
  - cbn. split; [reflexivity|]. split; [constructor|]. intros z Hz. inversion Hz.
  - cbn [Random.sample_pool].
    pose proof (randbelow_lt m g ltac:(lia)) as Hj.
    destruct (Random.randbelow m g) as [j g1]. cbn [fst] in Hj.
    destruct (lookup_lt_is_Some_2 pool j ltac:(lia)) as [x Hx].
    destruct (lookup_lt_is_Some_2 pool (m - 1) ltac:(lia)) as [y Hy].
    rewrite Hx, Hy.
    destruct (vacancy_filled pool m j x y Hj Hx Hy Hnd) as (Hfresh & Hnd' & Hsub).
    specialize (IH (m - 1) (<[j := y]> pool) g1 ltac:(lia)
                  ltac:(rewrite length_insert; lia) Hnd').
    destruct (Random.sample_pool k (m - 1) (<[j := y]> pool) g1) as [rest g2].
    cbn [fst] in *. destruct IH as (Hlen & Hndr & Hin).
    split; [cbn; lia|]. split.
    + apply NoDup_cons. split; [|assumption]. intros Hx'. apply Hfresh, Hin, Hx'.
    + intros z Hz. apply elem_of_cons in Hz as [-> | Hz].
      * apply elem_of_take. exists j. split; [assumption | lia].
      * apply Hsub, Hin, Hz.
Qed.

(** [sample(population, k)] with [k] within range returns [k] distinct
    elements of a duplicate-free population. *)
Lemma sample_without_replacement (population : list A) (k : nat) g :
  (k <= length population) -> NoDup population ->
  exists result,
    (Random.sample population k g).1 = Py.Returned result /\
    length result = k /\ NoDup result /\ (forall z, z ∈ result -> z ∈ population).
Proof.
  intros Hk Hnd. unfold Random.sample.
  replace (length population <? k) with false by (symmetry; apply Nat.ltb_ge; lia).
  pose proof (sample_pool_distinct k (length population) population g Hk (le_n _)) as Hs.
  rewrite firstn_all in Hs. specialize (Hs Hnd).
  destruct (Random.sample_pool k (length population) population g) as [result g'].
  exists result. split; [reflexivity | exact Hs].
Qed.

End Sampling.

(* ===================================================================== *)
(** * The assessment engine                                               *)
(* ===================================================================== *)

Lemma suggestion_catalog_NoDup : NoDup GridSimulator.suggestion_catalog.
Proof.
  apply NoDup_ListNoDup.
  repeat (constructor; [cbn; intuition discriminate|]). constructor.
Qed.

(** C9. Whatever the random source draws, [perform_security_assessment]
    returns, and its suggestions are exactly two, each from the catalog of
    three, and different from each other. *)
Theorem assessment_suggests_two_distinct_catalog_items
    {F : Type} `{Py.Float F} (g : Random.source) :
  exists a : GridSimulator.assessment F,
    (GridSimulator.perform_security_assessment g).1 = Py.Returned a /\
    length (GridSimulator.suggestions a) = 2%nat /\
    Forall (fun s => s ∈ GridSimulator.suggestion_catalog) (GridSimulator.suggestions a) /\
    NoDup (GridSimulator.suggestions a).
Proof.
  unfold GridSimulator.perform_security_assessment.
  destruct (Random.uniform (Py.of_Z 1) (Py.of_Z 10) g) as [score g1].
  destruct (sample_without_replacement GridSimulator.suggestion_catalog 2 g1
              ltac:(cbn; lia) suggestion_catalog_NoDup)
    as (result & Hret & Hlen & Hnd & Hin).
  destruct (Random.sample GridSimulator.suggestion_catalog 2 g1) as [sampled g2].
  cbn [fst] in Hret. subst sampled.
  eexists. split; [reflexivity|]. cbn [GridSimulator.suggestions].
  split; [assumption|]. split; [|assumption].
  apply Forall_forall. exact Hin.
Qed.

(* ===================================================================== *)
(** * The load balance, in exact arithmetic                               *)
(* ===================================================================== *)

Section RationalBounds.
Local Open Scope Q_scope.

Lemma omap_shorter {A B : Type} (f : A -> option B) (l : list A) :
  (length (omap f l) <= length l)%nat.
Proof. induction l as [|x l IH]; cbn; [lia|]. destruct (f x); cbn; lia. Qed.

(** Whenever [simulate_performance] returns, the load balance it reports
    is at most 100 per cent, whatever the signs of output and demand. *)
Theorem load_balance_is_capped (t : GridSimulator.topology Q)
    (r : GridSimulator.performance Q) :
  GridSimulator.simulate_performance t = Py.Returned r ->
  GridSimulator.load_balance r <= 100.
Proof.
  unfold GridSimulator.simulate_performance.
  destruct (GridSimulator.calculate_path_efficiency t) as [p|e];
    cbn [mbind mret Py.outcome_bind Py.outcome_ret]; [|discriminate].
  destruct (Py.truediv _ _) as [q|e]; cbn [mbind mret Py.outcome_bind Py.outcome_ret];
    [|discriminate].
  intros [= <-]. cbn [GridSimulator.load_balance Py.fmul Py.of_Z Rational.rational].
  unfold Py.min2. cbn [Py.fltb Py.of_Z Rational.rational].
  change (inject_Z 100) with 100. change (inject_Z 1) with 1.
  destruct (Qle_bool 1 q) eqn:E; cbn [negb]; [lra|].
  assert (~ 1 <= q) by (rewrite <- Qle_bool_iff; congruence). lra.
Qed.

(** The connected pair with energies 100 and 40 (load balance 100). *)
Lemma load_balance_is_capped_witness :
  exists r,
    GridSimulator.simulate_performance
      (Scenario.topology_of (Scenario.connected_pair 100 40)) = Py.Returned r /\
    GridSimulator.load_balance r <= 100.
Proof.
  eexists. split; [vm_compute; reflexivity|].
  apply (load_balance_is_capped (Scenario.topology_of (Scenario.connected_pair 100 40))).
  vm_compute. reflexivity.
Defined.

(** C2 (the claim at a concrete input).  A generator with energy 100
    joined to a city with energy -100: the path efficiency is
    1 - 200/100 = -1, below 0, and the reported percentage is -100; in
    binary64 and in exact arithmetic alike. *)
Lemma signed_energies_give_negative_path_efficiency :
  (GridSimulator.calculate_path_efficiency
     (Scenario.topology_of
        (Scenario.connected_pair (Binary64.of_Z 100) (Binary64.of_Z (-100))))
   = Py.Returned (Binary64.of_Z (-1)) /\
   SFleb (Binary64.of_Z 0) (Binary64.of_Z (-1)) = false /\
   exists r,
     GridSimulator.simulate_performance
       (Scenario.topology_of
          (Scenario.connected_pair (Binary64.of_Z 100) (Binary64.of_Z (-100))))
     = Py.Returned r /\
     GridSimulator.average_efficiency r = Binary64.of_Z (-100)) /\
  (exists p r,
     GridSimulator.calculate_path_efficiency
       (Scenario.topology_of (Scenario.connected_pair 100 (-100))) = Py.Returned p /\
     p == -1 /\ p < 0 /\
     GridSimulator.simulate_performance
       (Scenario.topology_of (Scenario.connected_pair 100 (-100))) = Py.Returned r /\
     GridSimulator.average_efficiency r == -100).
Proof.
  split.
  - split; [vm_compute; reflexivity|]. split; [reflexivity|].
    eexists. split; vm_compute; reflexivity.
  - do 2 eexists. split; [vm_compute; reflexivity|].
    split; [reflexivity|]. split; [reflexivity|].
    split; [vm_compute; reflexivity|]. reflexivity.
Qed.

End RationalBounds.

(* ===================================================================== *)
(** * The path efficiency and the report, in binary64                    *)
(* ===================================================================== *)

Section Bounds64.

Lemma unit_pos : 0 < Ieee.unit.
Proof. unfold Ieee.unit. apply pow2_pos. pose proof bias_eq. lia. Qed.

Lemma representable_scaled (m u : Z) :
  0 <= m < 2 ^ 53 -> -1074 <= u -> Ieee.representable (m * 2 ^ (u + Ieee.bias)).
Proof. intros Hm Hu. exists m, u. split; [reflexivity|]. split; [exact Hu | exact Hm]. Qed.

Lemma representable_int (k : Z) : 0 <= k < 2 ^ 53 -> Ieee.representable (k * Ieee.unit).
Proof.
  intros Hk. unfold Ieee.unit. replace Ieee.bias with (0 + Ieee.bias) by lia.
  apply representable_scaled; lia.
Qed.

Lemma int_below_overflow (k : Z) : 0 <= k < 2 ^ 53 -> k * Ieee.unit < Ieee.overflow.
Proof.
  intros Hk. pose proof unit_pos as HU. unfold Ieee.overflow, Ieee.unit in *.
  pose proof bias_eq as Hbias.
  change Binary64.emax with 1024. replace (1024 + Ieee.bias) with (53 + 971 + Ieee.bias) by lia.
  rewrite (pow2_add (53 + 971)), (pow2_add 53) by lia.
  assert (0 < 2 ^ 971) by (apply pow2_pos; lia). nia.
Qed.

Lemma representable_zero : Ieee.representable 0 /\ 0 < Ieee.overflow.
Proof.
  pose proof bias_eq as Hbias. split.
  - replace 0 with (0 * 2 ^ (0 + Ieee.bias)) by lia. apply representable_scaled; lia.
  - unfold Ieee.overflow. apply pow2_pos. change Binary64.emax with 1024. lia.
Qed.

Lemma finite_representable (x : spec_float) :
  Ieee.finite x ->
  Ieee.representable (Z.abs (Ieee.sval x)) /\ Z.abs (Ieee.sval x) < Ieee.overflow.
Proof.
  intros [Hv Hfin]. pose proof bias_eq as Hbias.
  destruct x as [s | s | | s m e]; try discriminate Hfin.
  - change (Z.abs (Ieee.sval (S754_zero s))) with 0. exact representable_zero.
  - destruct (valid_finite s m e Hv) as (He & Hd & _).
    destruct (Zdigits2_bounds (Zpos m) ltac:(lia)) as (Hd0 & _ & Hhi).
    pose proof (pow2_le (Zdigits2 (Zpos m)) 53 ltac:(lia)) as Hm.
    pose proof (pow2_pos (e + Ieee.bias) ltac:(lia)) as Hp.
    cbn [Ieee.sval].
    replace (Z.abs _) with (Zpos m * 2 ^ (e + Ieee.bias)) by (destruct s; nia).
    split; [apply representable_scaled; lia|].
    unfold Ieee.overflow. change Binary64.emax with 1024.
    replace (1024 + Ieee.bias) with (53 + (971 + Ieee.bias)) by lia.
    rewrite (pow2_add 53) by lia.
    pose proof (pow2_le (e + Ieee.bias) (971 + Ieee.bias) ltac:(lia)).
    assert (Zpos m * 2 ^ (e + Ieee.bias) < 2 ^ 53 * 2 ^ (e + Ieee.bias))
      by (apply Z.mul_lt_mono_pos_r; lia).
    assert (2 ^ 53 * 2 ^ (e + Ieee.bias) <= 2 ^ 53 * 2 ^ (971 + Ieee.bias))
      by (apply Z.mul_le_mono_nonneg_l; lia).
    lia.
Qed.

Lemma faithful_upper (N D V : Z) (r : spec_float) :
  Ieee.faithful N D r -> Ieee.representable V -> V < Ieee.overflow -> Z.abs N <= V * D ->
  Ieee.finite r /\ Z.abs (Ieee.sval r) <= V.
Proof.
  intros (Hv & _ & _ & _ & Hup & _) HV Hover Hle.
  destruct (Hup V HV Hover Hle) as [Hfin Hb]. split; [split; assumption | exact Hb].
Qed.

Lemma faithful_sign (N D : Z) (r : spec_float) :
  Ieee.faithful N D r -> 0 < D ->
  (0 <= N -> 0 <= Ieee.sval r) /\ (N <= 0 -> Ieee.sval r <= 0).
Proof.
  intros (Hv & _ & Hpos & Hneg & Hup & _) HD.
  destruct (sval_sign r Hv) as (Hp & Hn & _).
  destruct representable_zero as [H0 Hov].
  assert (Hz : N = 0 -> Ieee.sval r = 0).
  { intros ->. destruct (Hup 0 H0 Hov ltac:(cbn; lia)) as [_ Hb]. lia. }
  split; intros HN.
  - destruct (Z.eq_dec N 0) as [E | E]; [rewrite (Hz E); lia|].
    apply Hp, Hpos. lia.
  - destruct (Z.eq_dec N 0) as [E | E]; [rewrite (Hz E); lia|].
    apply Hn, Hneg. lia.
Qed.

Lemma faithful_exact (N : Z) (r : spec_float) :
  Ieee.faithful N 1 r -> Ieee.representable (Z.abs N) -> Z.abs N < Ieee.overflow ->
  Ieee.finite r /\ Ieee.sval r = N.
Proof.
  intros Hf HV Hover.
  destruct (faithful_upper N 1 _ r Hf HV Hover ltac:(lia)) as [Hfin Hle].
  destruct (faithful_sign N 1 r Hf ltac:(lia)) as [Hp Hn].
  destruct Hf as (_ & _ & _ & _ & _ & Hlo).
  destruct (Hlo _ HV ltac:(lia)) as [Hinf | Hge].
  - destruct Hfin as [_ Hfin]. congruence.
  - split; [exact Hfin|]. destruct (Z_le_gt_dec 0 N) as [H0 | H0].
    + specialize (Hp H0). lia.
    + specialize (Hn ltac:(lia)). lia.
Qed.

Lemma of_Z_exact (z : Z) :
  Z.abs z < 2 ^ 53 ->
  Ieee.finite (Binary64.of_Z z) /\ Ieee.sval (Binary64.of_Z z) = z * Ieee.unit.
Proof.
  intros Hz. pose proof unit_pos as HU.
  assert (Habs : Z.abs (z * Ieee.unit) = Z.abs z * Ieee.unit) by (rewrite Z.abs_mul; lia).
  apply faithful_exact.
  - apply of_Z_faithful.
  - fold Ieee.unit. rewrite Habs. apply representable_int. lia.
  - fold Ieee.unit. rewrite Habs. apply int_below_overflow. lia.
Qed.

Lemma one_finite : Ieee.finite (Binary64.of_Z 1) /\ Ieee.sval (Binary64.of_Z 1) = Ieee.unit.
Proof. destruct (of_Z_exact 1 ltac:(cbn; lia)) as [Hf Hs]. split; [exact Hf | lia]. Qed.

Lemma zero_finite : Ieee.finite (Binary64.of_Z 0) /\ Ieee.sval (Binary64.of_Z 0) = 0.
Proof. split; [split; reflexivity | reflexivity]. Qed.

Lemma SFabs_finite (x : spec_float) :
  Ieee.finite x -> Ieee.finite (SFabs x) /\ Ieee.sval (SFabs x) = Z.abs (Ieee.sval x).
Proof.
  intros [Hv Hfin]. pose proof bias_eq as Hbias.
  destruct x as [s | s | | s m e]; try discriminate Hfin.
  - split; [split; reflexivity | reflexivity].
  - destruct (valid_finite s m e Hv) as (He & _).
    pose proof (pow2_pos (e + Ieee.bias) ltac:(lia)) as Hp.
    split; [split; [exact Hv | reflexivity]|]. cbn [SFabs Ieee.sval]. destruct s; nia.
Qed.

Lemma max3_finite (a b c : spec_float) :
  Ieee.finite a -> Ieee.finite b -> Ieee.finite c ->
  Ieee.finite (Py.max3 a b c) /\
  Ieee.sval (Py.max3 a b c) = Z.max (Z.max (Ieee.sval a) (Ieee.sval b)) (Ieee.sval c).
Proof.
  intros Ha Hb Hc. unfold Py.max3. cbn [Py.fltb Binary64.binary64].
  rewrite (SFltb_sval a b Ha Hb).
  destruct (Z.ltb_spec (Ieee.sval a) (Ieee.sval b)) as [Hab | Hab].
  - rewrite (SFltb_sval b c Hb Hc).
    destruct (Z.ltb_spec (Ieee.sval b) (Ieee.sval c)); (split; [assumption | lia]).
  - rewrite (SFltb_sval a c Ha Hc).
    destruct (Z.ltb_spec (Ieee.sval a) (Ieee.sval c)); (split; [assumption | lia]).
Qed.

Lemma nonneg_finite (x : spec_float) :
  valid_binary Binary64.prec Binary64.emax x = true -> Ieee.nonneg x = true ->
  Ieee.finite x /\ 0 <= Ieee.sval x.
Proof.
  intros Hv Hn. destruct x as [s | s | | [|] m e]; try discriminate Hn.
  - split; [split; reflexivity | cbn; lia].
  - split; [split; [exact Hv | reflexivity]|]. apply (sval_sign _ Hv). reflexivity.
Qed.

Lemma nonpos_finite (x : spec_float) :
  valid_binary Binary64.prec Binary64.emax x = true -> Ieee.nonpos x = true ->
  Ieee.finite x /\ Ieee.sval x <= 0.
Proof.
  intros Hv Hn. destruct x as [s | s | | [|] m e]; try discriminate Hn.
  - split; [split; reflexivity | cbn; lia].
  - split; [split; [exact Hv | reflexivity]|]. apply (sval_sign _ Hv). reflexivity.
Qed.

(** The efficiency of a connection between two finite energies is a
    fraction when the two are not of opposite sign; it lies between -1 and
    1 when both are below 2^1023 in magnitude (so that the greater one can
    be doubled). *)
Lemma edge_efficiency_bounds (a b : Node.Node spec_float) :
  Ieee.finite (Node.energy a) -> Ieee.finite (Node.energy b) ->
  let v := Spec.edge_efficiency (a, b) in
  ((0 <= Ieee.sval (Node.energy a) /\ 0 <= Ieee.sval (Node.energy b)) \/
   (Ieee.sval (Node.energy a) <= 0 /\ Ieee.sval (Node.energy b) <= 0) ->
   Ieee.fraction v) /\
  (Z.abs (Ieee.sval (Node.energy a)) < 2 ^ (1023 + Ieee.bias) ->
   Z.abs (Ieee.sval (Node.energy b)) < 2 ^ (1023 + Ieee.bias) ->
   Ieee.finite v /\ - Ieee.unit <= Ieee.sval v <= Ieee.unit).
Proof.
  intros Ha Hb v. pose proof unit_pos as HU. pose proof bias_eq as Hbias.
  unfold Spec.edge_efficiency in v. cbn [fst snd] in v.
  cbn [Py.fsub Py.fdiv Py.fabs Py.of_Z Binary64.binary64] in v.
  set (ea := Node.energy a) in *. set (eb := Node.energy b) in *.
  destruct one_finite as [H1 Hs1].
  destruct (SFabs_finite ea Ha) as [HA HsA]. destruct (SFabs_finite eb Hb) as [HB HsB].
  destruct (max3_finite _ _ _ HA HB H1) as [HM HsM].
  set (M := Py.max3 (SFabs ea) (SFabs eb) (Binary64.of_Z 1)) in *.
  rewrite HsA, HsB, Hs1 in HsM.
  pose proof (SFsub_faithful ea eb Ha Hb) as Hd0.
  set (d0 := SFsub Binary64.prec Binary64.emax ea eb) in *.
  destruct (finite_representable M HM) as [HMr HMo].
  assert (HMpos : 0 < Ieee.sval M) by lia.
  rewrite Z.abs_eq in HMr, HMo by lia.
  (* the quotient, given a bound k * M on the difference *)
  assert (Hq : forall k, (k = 1 \/ k = 2) -> Ieee.finite d0 ->
                 Z.abs (Ieee.sval d0) <= k * Ieee.sval M ->
                 Ieee.finite v /\ (1 - k) * Ieee.unit <= Ieee.sval v <= Ieee.unit).
  { intros k Hk Hd0f Hd0b.
    destruct (SFabs_finite d0 Hd0f) as [Hd Hsd]. set (d := SFabs d0) in *.
    pose proof (SFdiv_faithful d M Hd HM HMpos) as Hqf.
    set (q := SFdiv Binary64.prec Binary64.emax d M) in *.
    assert (Hkr : Ieee.representable (k * Ieee.unit) /\ k * Ieee.unit < Ieee.overflow).
    { split; [apply representable_int | apply int_below_overflow]; cbn; lia. }
    destruct (faithful_upper _ _ (k * Ieee.unit) q Hqf (proj1 Hkr) (proj2 Hkr)) as [Hqfin Hqb].
    { fold Ieee.unit. rewrite Z.abs_mul, (Z.abs_eq Ieee.unit) by lia. nia. }
    destruct (faithful_sign _ _ q Hqf HMpos) as [Hq0 _].
    specialize (Hq0 ltac:(fold Ieee.unit; nia)).
    pose proof (SFsub_faithful _ q H1 Hqfin) as Hvf. rewrite Hs1 in Hvf. fold v in Hvf.
    destruct (faithful_upper _ 1 Ieee.unit v Hvf) as [Hvfin Hvb].
    { replace Ieee.unit with (1 * Ieee.unit) by lia. apply representable_int. cbn. lia. }
    { replace Ieee.unit with (1 * Ieee.unit) by lia. apply int_below_overflow. cbn. lia. }
    { lia. }
    split; [exact Hvfin|].
    destruct (faithful_sign _ 1 v Hvf ltac:(lia)) as [Hv0 _].
    destruct Hk as [-> | ->]; [specialize (Hv0 ltac:(lia)); lia | lia]. }
  split.
  - intros Hsame.
    assert (Hdiff : Z.abs (Ieee.sval ea - Ieee.sval eb) <= Ieee.sval M) by lia.
    destruct (faithful_upper _ 1 (Ieee.sval M) d0 Hd0 HMr HMo ltac:(lia)) as [Hd0f Hd0b].
    destruct (Hq 1 ltac:(auto) Hd0f ltac:(lia)) as [Hvf Hvb].
    split; [exact Hvf | lia].
  - intros HaB HbB.
    assert (Hdiff : Z.abs (Ieee.sval ea - Ieee.sval eb) <= 2 * Ieee.sval M) by lia.
    assert (H2r : Ieee.representable (2 * Ieee.sval M) /\ 2 * Ieee.sval M < Ieee.overflow).
    { destruct (Z.max_spec (Z.max (Z.abs (Ieee.sval ea)) (Z.abs (Ieee.sval eb))) Ieee.unit)
        as [[_ E] | [_ E]]; rewrite E in HsM.
      - rewrite HsM. split; [apply representable_int | apply int_below_overflow]; cbn; lia.
      - destruct HMr as (m & u & Hm & Hu & Hmb). change Ieee.emin with (-1074) in Hu.
        split.
        + exists m, (u + 1). split; [|split; [change Ieee.emin with (-1074); lia | exact Hmb]].
          rewrite Hm. replace (u + 1 + Ieee.bias) with (1 + (u + Ieee.bias)) by lia.
          rewrite (pow2_add 1) by lia. change (2 ^ 1) with 2. ring.
        + unfold Ieee.overflow. change Binary64.emax with 1024.
          replace (1024 + Ieee.bias) with (1 + (1023 + Ieee.bias)) by lia.
          rewrite (pow2_add 1) by lia. change (2 ^ 1) with 2. lia. }
    destruct (faithful_upper _ 1 _ d0 Hd0 (proj1 H2r) (proj2 H2r) ltac:(lia)) as [Hd0f Hd0b].
    destruct (Hq 2 ltac:(auto) Hd0f ltac:(lia)) as [Hvf Hvb].
    split; [exact Hvf | lia].
Qed.

End Bounds64.

Section Averages64.

Lemma sum_bounds (l : list spec_float) : forall (acc : spec_float) (j : Z),
  Ieee.finite acc -> Z.abs (Ieee.sval acc) <= j * Ieee.unit -> 0 <= j ->
  j + Z.of_nat (length l) < 2 ^ 53 ->
  Forall (fun v => Ieee.finite v /\ - Ieee.unit <= Ieee.sval v <= Ieee.unit) l ->
  let s := fold_left (SFadd Binary64.prec Binary64.emax) l acc in
  Ieee.finite s /\ Z.abs (Ieee.sval s) <= (j + Z.of_nat (length l)) * Ieee.unit /\
  (0 <= Ieee.sval acc -> Forall (fun v => 0 <= Ieee.sval v) l -> 0 <= Ieee.sval s).
Proof.
  pose proof unit_pos as HU.
  induction l as [|v l IH]; intros acc j Hacc Hb Hj Hlen Hall; cbn [fold_left length].
  - cbn [length] in Hlen. change (Z.of_nat 0) with 0. rewrite Z.add_0_r.
    split; [exact Hacc|]. split; [exact Hb | auto].
  - apply Forall_cons in Hall as [[Hv Hvb] Hall].
    cbn [length] in Hlen. rewrite Nat2Z.inj_succ in Hlen |- *.
    pose proof (SFadd_faithful acc v Hacc Hv) as Hf.
    destruct (faithful_upper _ 1 ((j + 1) * Ieee.unit) _ Hf) as [Hfin Hle].
    { apply representable_int. lia. }
    { apply int_below_overflow. lia. }
    { lia. }
    destruct (IH _ (j + 1) Hfin Hle ltac:(lia) ltac:(lia) Hall) as (Hs & Hsb & Hs0).
    split; [exact Hs|]. split; [lia|].
    intros Hacc0 Hpos. apply Forall_cons in Hpos as [Hv0 Hpos].
    apply Hs0; [|exact Hpos].
    apply (faithful_sign _ 1 _ Hf); lia.
Qed.

Lemma mean_bounds (total : spec_float) (k n : Z) :
  Ieee.finite total -> Z.abs (Ieee.sval total) <= k * Ieee.unit ->
  0 <= k <= n -> 1 <= n < 2 ^ 53 ->
  let p := SFdiv Binary64.prec Binary64.emax total (Binary64.of_Z n) in
  Ieee.finite p /\ Z.abs (Ieee.sval p) <= Ieee.unit /\
  (0 <= Ieee.sval total -> 0 <= Ieee.sval p).
Proof.
  intros Ht Hb Hk Hn p. pose proof unit_pos as HU.
  destruct (of_Z_exact n ltac:(lia)) as [Hnf Hns].
  assert (Hpos : 0 < Ieee.sval (Binary64.of_Z n)) by (rewrite Hns; nia).
  pose proof (SFdiv_faithful total _ Ht Hnf Hpos) as Hf. fold p in Hf.
  fold Ieee.unit in Hf. rewrite Hns in Hf.
  destruct (faithful_upper _ _ Ieee.unit p Hf) as [Hfin Hle].
  { replace Ieee.unit with (1 * Ieee.unit) by lia. apply representable_int. cbn. lia. }
  { replace Ieee.unit with (1 * Ieee.unit) by lia. apply int_below_overflow. cbn. lia. }
  { rewrite Z.abs_mul, (Z.abs_eq Ieee.unit) by lia.
    assert (Z.abs (Ieee.sval total) <= n * Ieee.unit) by nia.
    rewrite (Z.mul_comm Ieee.unit). apply Z.mul_le_mono_nonneg_r; lia. }
  split; [exact Hfin|]. split; [exact Hle|].
  intros H0. apply (faithful_sign _ _ _ Hf); nia.
Qed.

Lemma percent_bounds (p : spec_float) :
  Ieee.fraction p ->
  let q := SFmul Binary64.prec Binary64.emax p (Binary64.of_Z 100) in
  Ieee.finite q /\ 0 <= Ieee.sval q <= 100 * Ieee.unit.
Proof.
  intros [Hp Hb] q. pose proof unit_pos as HU.
  destruct (of_Z_exact 100 ltac:(cbn; lia)) as [Hcf Hcs].
  pose proof (SFmul_faithful p _ Hp Hcf) as Hf. fold q in Hf. fold Ieee.unit in Hf.
  rewrite Hcs in Hf.
  destruct (faithful_upper _ _ (100 * Ieee.unit) q Hf) as [Hfin Hle].
  { apply representable_int. cbn. lia. }
  { apply int_below_overflow. cbn. lia. }
  { rewrite Z.abs_eq by nia. nia. }
  split; [exact Hfin|].
  destruct (faithful_sign _ _ q Hf HU) as [H0 _]. specialize (H0 ltac:(nia)). lia.
Qed.

Lemma fraction_compares (p : spec_float) :
  Ieee.fraction p ->
  SFleb (Binary64.of_Z 0) p = true /\ SFleb p (Binary64.of_Z 1) = true.
Proof.
  intros [Hp Hb]. destruct one_finite as [H1 Hs1]. destruct zero_finite as [H0 Hs0].
  rewrite (SFleb_sval _ _ H0 Hp), (SFleb_sval _ _ Hp H1), Hs0, Hs1.
  split; apply Z.leb_le; lia.
Qed.

Lemma endpoints_found {F : Type} `{Py.Float F}
    (ns : list (Node.Node F)) (conn : Z * Z) (ab : Node.Node F * Node.Node F) :
  Spec.endpoints ns conn = Some ab <->
  GridSimulator.node_with_item conn.1 ns = Some ab.1 /\
  GridSimulator.node_with_item conn.2 ns = Some ab.2.
Proof.
  unfold Spec.endpoints. destruct ab as [a b]. cbn [fst snd].
  destruct (GridSimulator.node_with_item conn.1 ns) as [a'|]; cbn;
    [|split; [discriminate | intros [E _]; discriminate E]].
  destruct (GridSimulator.node_with_item conn.2 ns) as [b'|]; cbn;
    [|split; [discriminate | intros [_ E]; discriminate E]].
  split; [intros [= -> ->]; auto | intros [[= ->] [= ->]]; reflexivity].
Qed.

Lemma node_with_item_in {F : Type} `{Py.Float F}
    (ns : list (Node.Node F)) (i : Z) (a : Node.Node F) :
  GridSimulator.node_with_item i ns = Some a -> a ∈ ns.
Proof.
  unfold GridSimulator.node_with_item, Py.next. intros Hf.
  apply find_some in Hf as [Hin _]. apply list_elem_of_In, Hin.
Qed.

End Averages64.

Section PathEfficiency64.

Lemma half_is_a_fraction : Ieee.fraction (Py.dec 5 1 (F := spec_float)).
Proof.
  split; [split; vm_compute; reflexivity|].
  split; apply Z.leb_le; vm_compute; reflexivity.
Qed.

(** With at least one connection and fewer than 2^53 of them: if every
    resolved connection contributes a finite value between -1 and 1, the
    path efficiency is finite and between -1 and 1, and it is not negative
    when no contribution is. *)
Lemma path_efficiency_64 (t : GridSimulator.topology spec_float) :
  Z.of_nat (length (GridSimulator.connections t)) < 2 ^ 53 ->
  Forall (fun v => Ieee.finite v /\ - Ieee.unit <= Ieee.sval v <= Ieee.unit)
    (map Spec.edge_efficiency
       (omap (Spec.endpoints (GridSimulator.nodes t)) (GridSimulator.connections t))) ->
  exists p,
    GridSimulator.calculate_path_efficiency t = Py.Returned p /\
    Ieee.finite p /\ Z.abs (Ieee.sval p) <= Ieee.unit /\
    (Forall (fun v => 0 <= Ieee.sval v)
       (map Spec.edge_efficiency
          (omap (Spec.endpoints (GridSimulator.nodes t)) (GridSimulator.connections t))) ->
     0 <= Ieee.sval p).
Proof.
  intros Hlen Hall. pose proof unit_pos as HU.
  destruct (GridSimulator.connections t) as [|c cs] eqn:E.
  - exists (Py.dec 5 1). split; [apply path_efficiency_no_connections, E|].
    destruct half_is_a_fraction as [Hf Hb]. split; [exact Hf|]. split; [lia|]. intros _. lia.
  - eexists. split; [apply (path_efficiency_of_nonempty t c cs E)|].
    cbn [Py.fdiv Py.fadd Py.of_Z Binary64.binary64].
    set (effs := map Spec.edge_efficiency _) in *.
    assert (Hshort : Z.of_nat (length effs) <= Z.of_nat (length (c :: cs))).
    { apply inj_le. unfold effs. rewrite length_map. apply omap_shorter. }
    destruct zero_finite as [H0 Hs0].
    destruct (sum_bounds effs (Binary64.of_Z 0) 0 H0 ltac:(rewrite Hs0; cbn; lia) ltac:(lia)
                ltac:(lia) Hall) as (Hs & Hsb & Hspos).
    rewrite Z.add_0_l in Hsb.
    change (S (length cs)) with (length (c :: cs)).
    destruct (mean_bounds _ _ (Z.of_nat (length (c :: cs))) Hs Hsb ltac:(lia)
                ltac:(cbn [length] in *; lia)) as (Hp & Hpb & Hppos).
    split; [exact Hp|]. split; [exact Hpb|].
    intros Hnn. apply Hppos, Hspos; [rewrite Hs0; lia | exact Hnn].
Qed.

(** When the two ends of every resolved connection carry finite energies
    that are not of opposite sign, the path efficiency is a finite value
    between 0 and 1. *)
Lemma same_sign_fraction (t : GridSimulator.topology spec_float) :
  Z.of_nat (length (GridSimulator.connections t)) < 2 ^ 53 ->
  Forall (fun node => valid_binary Binary64.prec Binary64.emax (Node.energy node) = true)
         (GridSimulator.nodes t) ->
  Forall (fun conn : Z * Z => forall a b,
            GridSimulator.node_with_item conn.1 (GridSimulator.nodes t) = Some a ->
            GridSimulator.node_with_item conn.2 (GridSimulator.nodes t) = Some b ->
            Ieee.same_sign (Node.energy a) (Node.energy b) = true)
         (GridSimulator.connections t) ->
  exists p, GridSimulator.calculate_path_efficiency t = Py.Returned p /\ Ieee.fraction p.
Proof.
  intros Hlen Hvalid Hsame. pose proof unit_pos as HU.
  assert (Hall : Forall (fun v => Ieee.fraction v)
                   (map Spec.edge_efficiency
                      (omap (Spec.endpoints (GridSimulator.nodes t))
                            (GridSimulator.connections t)))).
  { apply Forall_forall. intros v Hv. apply list_elem_of_fmap in Hv as ([a b] & -> & Hab).
    apply list_elem_of_omap in Hab as (conn & Hconn & Hends).
    apply endpoints_found in Hends as [Ha Hb]. cbn [fst snd] in Ha, Hb.
    rewrite Forall_forall in Hsame. specialize (Hsame conn Hconn a b Ha Hb).
    rewrite Forall_forall in Hvalid.
    pose proof (Hvalid a (node_with_item_in _ _ _ Ha)) as Hva.
    pose proof (Hvalid b (node_with_item_in _ _ _ Hb)) as Hvb.
    unfold Ieee.same_sign in Hsame. apply orb_prop in Hsame as [Hs | Hs];
      apply andb_prop in Hs as [Hsa Hsb].
    - destruct (nonneg_finite _ Hva Hsa) as [Hfa Ha0].
      destruct (nonneg_finite _ Hvb Hsb) as [Hfb Hb0].
      apply (edge_efficiency_bounds a b Hfa Hfb). left. split; assumption.
    - destruct (nonpos_finite _ Hva Hsa) as [Hfa Ha0].
      destruct (nonpos_finite _ Hvb Hsb) as [Hfb Hb0].
      apply (edge_efficiency_bounds a b Hfa Hfb). right. split; assumption. }
  destruct (path_efficiency_64 t Hlen) as (p & Hp & Hfin & Hb & Hpos).
  { eapply Forall_impl; [exact Hall|]. intros v [Hf Hv]. split; [exact Hf | lia]. }
  specialize (Hpos ltac:(eapply Forall_impl; [exact Hall|]; intros v [_ Hv]; lia)).
  assert (Hfrac : Ieee.fraction p) by (split; [exact Hfin | lia]).
  exists p. split; [exact Hp | exact Hfrac].
Qed.

(** C2 (as the code has it, in binary64).  When the two ends of every
    connection whose lookups succeed carry finite energies that are not of
    opposite sign, the path efficiency is a fraction: 0 <= p <= 1; the
    percentage p * 100 lies between 0 and 100, and it is what
    [simulate_performance] reports.  ([simulate_performance] returns
    unless the demand cancels the 0.001 added to it, when it raises
    ZeroDivisionError.  The node energies are doubles, and there are fewer
    than 2^53 connections.) *)
Theorem path_efficiency_is_a_fraction_for_same_sign_energies
    (t : GridSimulator.topology spec_float) :
  Z.of_nat (length (GridSimulator.connections t)) < 2 ^ 53 ->
  Forall (fun node => valid_binary Binary64.prec Binary64.emax (Node.energy node) = true)
         (GridSimulator.nodes t) ->
  Forall (fun conn : Z * Z => forall a b,
            GridSimulator.node_with_item conn.1 (GridSimulator.nodes t) = Some a ->
            GridSimulator.node_with_item conn.2 (GridSimulator.nodes t) = Some b ->
            Ieee.same_sign (Node.energy a) (Node.energy b) = true)
         (GridSimulator.connections t) ->
  exists p,
    GridSimulator.calculate_path_efficiency t = Py.Returned p /\
    SFleb (Binary64.of_Z 0) p = true /\ SFleb p (Binary64.of_Z 1) = true /\
    SFleb (Binary64.of_Z 0) (Py.fmul p (Binary64.of_Z 100)) = true /\
    SFleb (Py.fmul p (Binary64.of_Z 100)) (Binary64.of_Z 100) = true /\
    match GridSimulator.simulate_performance t with
    | Py.Returned r => GridSimulator.average_efficiency r = Py.fmul p (Binary64.of_Z 100)
    | Py.Raised e =>
        e = Py.ZeroDivisionError /\
        Py.feqb (Py.fadd (GridSimulator.energy_of GridSimulator.consumers (GridSimulator.nodes t))
                         (Py.dec 1 3))
                (Binary64.of_Z 0) = true
    end.
Proof.
  intros Hlen Hvalid Hsame. pose proof unit_pos as HU.
  destruct (same_sign_fraction t Hlen Hvalid Hsame) as (p & Hp & Hfrac).
  exists p. split; [exact Hp|].
  destruct (fraction_compares p Hfrac) as [Hc0 Hc1].
  split; [exact Hc0|]. split; [exact Hc1|].
  destruct (percent_bounds p Hfrac) as [Hqf Hqb].
  destruct zero_finite as [H0 Hs0]. destruct (of_Z_exact 100 ltac:(cbn; lia)) as [Hcf Hcs].
  cbn [Py.fmul Binary64.binary64].
  rewrite (SFleb_sval _ _ H0 Hqf), (SFleb_sval _ _ Hqf Hcf), Hs0, Hcs.
  split; [apply Z.leb_le; lia|]. split; [apply Z.leb_le; lia|].
  unfold GridSimulator.simulate_performance. rewrite Hp.
  cbn [mbind mret Py.outcome_bind Py.outcome_ret]. unfold Py.truediv.
  destruct (Py.feqb _ _) eqn:Hz; cbn [mbind mret Py.outcome_bind Py.outcome_ret].
  - split; reflexivity.
  - reflexivity.
Qed.

End PathEfficiency64.

(** The generator of 100 joined to the city of 40. *)
Lemma path_efficiency_is_a_fraction_for_same_sign_energies_witness :
  exists p,
    GridSimulator.calculate_path_efficiency
      (Scenario.topology_of
         (Scenario.connected_pair (Binary64.of_Z 100) (Binary64.of_Z 40))) = Py.Returned p /\
    SFleb (Binary64.of_Z 0) p = true /\ SFleb p (Binary64.of_Z 1) = true /\
    SFleb (Binary64.of_Z 0) (Py.fmul p (Binary64.of_Z 100)) = true /\
    SFleb (Py.fmul p (Binary64.of_Z 100)) (Binary64.of_Z 100) = true.
Proof.
  destruct (path_efficiency_is_a_fraction_for_same_sign_energies
              (Scenario.topology_of
                 (Scenario.connected_pair (Binary64.of_Z 100) (Binary64.of_Z 40))))
    as (p & Hp & H0 & H1 & H2 & H3 & _).
  - vm_compute. reflexivity.
  - vm_compute. repeat constructor.
  - vm_compute. repeat constructor; intros a b [= <-] [= <-]; reflexivity.
  - exists p. repeat split; assumption.
Defined.

Section Signed64.

Lemma below_huge (x : spec_float) :
  valid_binary Binary64.prec Binary64.emax x = true ->
  SFltb (SFabs x) Binary64.huge = true ->
  Ieee.finite x /\ Z.abs (Ieee.sval x) < 2 ^ (1023 + Ieee.bias).
Proof.
  intros Hv Hlt. pose proof bias_eq as Hbias.
  assert (Hfin : Ieee.finite x).
  { split; [exact Hv|]. destruct x as [s | s | | s m e]; try reflexivity; discriminate Hlt. }
  split; [exact Hfin|].
  destruct (SFabs_finite x Hfin) as [Ha Hs].
  assert (Hh : Ieee.finite Binary64.huge) by (split; reflexivity).
  rewrite (SFltb_sval _ _ Ha Hh), Hs in Hlt. apply Z.ltb_lt in Hlt.
  replace (2 ^ (1023 + Ieee.bias)) with (Ieee.sval Binary64.huge); [exact Hlt|].
  cbn [Ieee.sval Binary64.huge]. replace (1023 + Ieee.bias) with (52 + (971 + Ieee.bias)) by lia.
  rewrite (pow2_add 52) by lia. lia.
Qed.

(** Energies of any sign: when every node energy is a double of magnitude
    below 2^1023 (about 9e307) and there are fewer than 2^53 connections,
    the path efficiency lies between -1 and 1. *)
Theorem path_efficiency_between_minus_one_and_one
    (t : GridSimulator.topology spec_float) :
  Z.of_nat (length (GridSimulator.connections t)) < 2 ^ 53 ->
  Forall (fun node =>
            valid_binary Binary64.prec Binary64.emax (Node.energy node) = true /\
            SFltb (SFabs (Node.energy node)) Binary64.huge = true)
         (GridSimulator.nodes t) ->
  exists p,
    GridSimulator.calculate_path_efficiency t = Py.Returned p /\
    SFleb (Binary64.of_Z (-1)) p = true /\ SFleb p (Binary64.of_Z 1) = true.
Proof.
  intros Hlen Hnodes. pose proof unit_pos as HU.
  destruct (path_efficiency_64 t Hlen) as (p & Hp & Hfin & Hb & _).
  { apply Forall_forall. intros v Hv. apply list_elem_of_fmap in Hv as ([a b] & -> & Hab).
    apply list_elem_of_omap in Hab as (conn & Hconn & Hends).
    apply endpoints_found in Hends as [Ha Hb]. cbn [fst snd] in Ha, Hb.
    rewrite Forall_forall in Hnodes.
    destruct (Hnodes a (node_with_item_in _ _ _ Ha)) as [Hva Hla].
    destruct (Hnodes b (node_with_item_in _ _ _ Hb)) as [Hvb Hlb].
    destruct (below_huge _ Hva Hla) as [Hfa Hba].
    destruct (below_huge _ Hvb Hlb) as [Hfb Hbb].
    apply (edge_efficiency_bounds a b Hfa Hfb); assumption. }
  exists p. split; [exact Hp|].
  destruct one_finite as [H1 Hs1].
  destruct (of_Z_exact (-1) ltac:(cbn; lia)) as [Hm Hsm].
  rewrite (SFleb_sval _ _ Hm Hfin), (SFleb_sval _ _ Hfin H1), Hs1, Hsm.
  split; apply Z.leb_le; lia.
Qed.

End Signed64.

(** The generator of 100 joined to a city of -100. *)
Lemma path_efficiency_between_minus_one_and_one_witness :
  exists p,
    GridSimulator.calculate_path_efficiency
      (Scenario.topology_of
         (Scenario.connected_pair (Binary64.of_Z 100) (Binary64.of_Z (-100))))
    = Py.Returned p /\
    SFleb (Binary64.of_Z (-1)) p = true /\ SFleb p (Binary64.of_Z 1) = true.
Proof.
  apply (path_efficiency_between_minus_one_and_one
           (Scenario.topology_of
              (Scenario.connected_pair (Binary64.of_Z 100) (Binary64.of_Z (-100))))).
  - vm_compute. reflexivity.
  - repeat (constructor; [split; vm_compute; reflexivity|]). constructor.
Defined.

Section Exact64.

Lemma finite_unique (x y : spec_float) :
  Ieee.finite x -> Ieee.finite y -> Ieee.sval x = Ieee.sval y -> Ieee.sval x <> 0 -> x = y.
Proof.
  intros Hx Hy Heq Hne. pose proof bias_eq as Hbias.
  destruct x as [sx | sx | | sx mx ex]; try (destruct Hx as [_ Hx]; discriminate Hx);
    [cbn in Hne; lia|].
  destruct y as [sy | sy | | sy my ey]; try (destruct Hy as [_ Hy]; discriminate Hy);
    [exfalso; apply Hne; rewrite Heq; reflexivity|].
  destruct (valid_finite sx mx ex (proj1 Hx)) as (Hex & _).
  destruct (valid_finite sy my ey (proj1 Hy)) as (Hey & _).
  pose proof (pow2_pos (ex + Ieee.bias) ltac:(lia)) as Hpx.
  pose proof (pow2_pos (ey + Ieee.bias) ltac:(lia)) as Hpy.
  cbn [Ieee.sval] in Heq.
  assert (Hs : sx = sy) by (destruct sx, sy; try reflexivity; nia).
  subst sy.
  assert (Hv : Zpos mx * 2 ^ (ex + Ieee.bias) = Zpos my * 2 ^ (ey + Ieee.bias))
    by (destruct sx; lia).
  destruct (Z.lt_trichotomy ex ey) as [Hlt | [He | Hgt]].
  - pose proof (canonical_order sx sx mx my ex ey (proj1 Hx) (proj1 Hy) Hlt). lia.
  - subst ey. assert (Zpos mx = Zpos my) by nia. congruence.
  - pose proof (canonical_order sx sx my mx ey ex (proj1 Hy) (proj1 Hx) Hgt). lia.
Qed.

Lemma of_Z_positive (n : Z) :
  0 < n ->
  (exists m e, Binary64.of_Z n = S754_finite false m e) \/
  Binary64.of_Z n = S754_infinity false.
Proof.
  intros Hn. pose proof unit_pos as HU.
  destruct (of_Z_faithful n) as (_ & Hnan & Hpos & _ & _ & Hlo). fold Ieee.unit in *.
  specialize (Hpos ltac:(nia)).
  destruct (Hlo Ieee.unit) as [Hinf | Hge].
  { replace Ieee.unit with (1 * Ieee.unit) at 1 by lia. apply representable_int. cbn. lia. }
  { rewrite Z.abs_eq by nia. nia. }
  - destruct (Binary64.of_Z n) as [s | s | | s m e]; try discriminate.
    cbn in Hpos. subst s. right. reflexivity.
  - destruct (Binary64.of_Z n) as [s | s | | s m e]; try discriminate; cbn in Hge, Hpos.
    + lia.
    + subst s. right. reflexivity.
    + subst s. left. eauto.
Qed.

Lemma has_node_found {F : Type} `{Py.Float F} (i : Z) (ns : list (Node.Node F)) :
  Spec.has_node i ns = match GridSimulator.node_with_item i ns with
                       | Some _ => true
                       | None => false
                       end.
Proof.
  unfold Spec.has_node, GridSimulator.node_with_item, Py.next.
  induction ns as [|x ns IH]; cbn; [reflexivity|].
  destruct (Node.item x =? i); [reflexivity | exact IH].
Qed.

Lemma nothing_resolved {F : Type} `{Py.Float F} (t : GridSimulator.topology F) :
  Invariants.resolved t = [] ->
  omap (Spec.endpoints (GridSimulator.nodes t)) (GridSimulator.connections t) = [].
Proof.
  unfold Invariants.resolved.
  induction (GridSimulator.connections t) as [|conn conns IH]; [reflexivity|].
  cbn [List.filter omap list_omap]. rewrite !has_node_found. unfold Spec.endpoints.
  destruct (GridSimulator.node_with_item conn.1 _) as [a|]; cbn; [|exact IH].
  destruct (GridSimulator.node_with_item conn.2 _) as [b|]; cbn; [discriminate | exact IH].
Qed.

(** When there are connections but none has both its ends among the
    nodes, the path efficiency is (positive) zero, not the 0.5 of a grid
    without connections. *)
Theorem dangling_connections_give_zero_efficiency
    (t : GridSimulator.topology spec_float) :
  GridSimulator.connections t <> [] ->
  Invariants.resolved t = [] ->
  GridSimulator.calculate_path_efficiency t = Py.Returned (Binary64.of_Z 0).
Proof.
  intros Hne Hres. destruct (GridSimulator.connections t) as [|c cs] eqn:E; [congruence|].
  rewrite (path_efficiency_of_nonempty t c cs E). rewrite <- E, (nothing_resolved t Hres).
  cbn [map fold_left Py.fdiv Py.of_Z Binary64.binary64]. f_equal.
  destruct (of_Z_positive (Z.of_nat (S (length cs))) ltac:(lia)) as [(m & e & ->) | ->];
    reflexivity.
Qed.

(** The contribution of a connection between two nodes of the same finite
    energy is exactly 1. *)
Lemma level_edge (a b : Node.Node spec_float) :
  Ieee.is_fin (Node.energy a) = true -> Node.energy a = Node.energy b ->
  Spec.edge_efficiency (a, b) = Binary64.of_Z 1.
Proof.
  intros Hfin Heq. unfold Spec.edge_efficiency. cbn [fst snd]. rewrite <- Heq.
  cbn [Py.fsub Py.fdiv Py.fabs Py.of_Z Binary64.binary64].
  assert (Hd : SFabs (SFsub Binary64.prec Binary64.emax (Node.energy a) (Node.energy a))
               = S754_zero false).
  { destruct (Node.energy a) as [s | s | | s m e]; try discriminate Hfin.
    - destruct s; reflexivity.
    - cbn [SFsub]. rewrite Z.sub_diag. reflexivity. }
  rewrite Hd.
  assert (HM : exists m e, Py.max3 (SFabs (Node.energy a)) (SFabs (Node.energy a))
                             (Binary64.of_Z 1) = S754_finite false m e).
  { unfold Py.max3. cbn [Py.fltb Binary64.binary64].
    destruct (Node.energy a) as [s | s | | s m e]; try discriminate Hfin.
    - cbn. eauto.
    - cbn [SFabs]. destruct (SFltb (S754_finite false m e) (S754_finite false m e));
        destruct (SFltb (S754_finite false m e) (Binary64.of_Z 1)); eauto;
        change (Binary64.of_Z 1) with (S754_finite false 4503599627370496 (-52)); eauto. }
  destruct HM as (m & e & ->). reflexivity.
Qed.

Lemma sum_of_ones (k : nat) : forall (acc : spec_float) (j : Z),
  Ieee.finite acc -> Ieee.sval acc = j * Ieee.unit -> 0 <= j ->
  j + Z.of_nat k < 2 ^ 53 ->
  let s := fold_left (SFadd Binary64.prec Binary64.emax) (repeat (Binary64.of_Z 1) k) acc in
  Ieee.finite s /\ Ieee.sval s = (j + Z.of_nat k) * Ieee.unit.
Proof.
  pose proof unit_pos as HU. destruct one_finite as [H1 Hs1].
  induction k as [|k IH]; intros acc j Hacc Hs Hj Hlen; cbn [repeat fold_left].
  - change (Z.of_nat 0) with 0. rewrite Z.add_0_r. split; assumption.
  - rewrite Nat2Z.inj_succ in Hlen |- *.
    pose proof (SFadd_faithful acc _ Hacc H1) as Hf. rewrite Hs, Hs1 in Hf.
    replace (j * Ieee.unit + Ieee.unit) with ((j + 1) * Ieee.unit) in Hf by ring.
    destruct (faithful_exact _ _ Hf) as [Hfin Hval].
    { rewrite Z.abs_eq by nia. apply representable_int. lia. }
    { rewrite Z.abs_eq by nia. apply int_below_overflow. lia. }
    destruct (IH _ (j + 1) Hfin Hval ltac:(lia) ltac:(lia)) as [Hsf Hsv].
    split; [exact Hsf|]. rewrite Hsv. f_equal. lia.
Qed.

(** When every connection has both its ends among the nodes and joins two
    nodes of the same finite energy, the path efficiency is exactly 1. *)
Theorem level_connections_give_full_efficiency
    (t : GridSimulator.topology spec_float) :
  GridSimulator.connections t <> [] ->
  Z.of_nat (length (GridSimulator.connections t)) < 2 ^ 53 ->
  Forall (fun conn : Z * Z => exists a b,
            GridSimulator.node_with_item conn.1 (GridSimulator.nodes t) = Some a /\
            GridSimulator.node_with_item conn.2 (GridSimulator.nodes t) = Some b /\
            Ieee.is_fin (Node.energy a) = true /\ Node.energy a = Node.energy b)
         (GridSimulator.connections t) ->
  GridSimulator.calculate_path_efficiency t = Py.Returned (Binary64.of_Z 1).
Proof.
  intros Hne Hlen Hall. pose proof unit_pos as HU.
  destruct (GridSimulator.connections t) as [|c cs] eqn:E; [congruence|].
  rewrite (path_efficiency_of_nonempty t c cs E). f_equal.
  assert (Heffs : map Spec.edge_efficiency (omap (Spec.endpoints (GridSimulator.nodes t)) (c :: cs))
                  = repeat (Binary64.of_Z 1) (length (c :: cs))).
  { clear E Hne Hlen. induction Hall as [|conn conns (a & b & Ha & Hb & Hfin & Heq) _ IH];
      [reflexivity|].
    cbn [omap list_omap length repeat]. unfold Spec.endpoints at 1. rewrite Ha, Hb.
    cbn [mbind option_bind mret option_ret map].
    rewrite (level_edge a b Hfin Heq). f_equal. exact IH. }
  rewrite Heffs. cbn [Py.fdiv Py.fadd Py.of_Z Binary64.binary64].
  change (S (length cs)) with (length (c :: cs)).
  set (n := length (c :: cs)) in *.
  destruct zero_finite as [H0 Hs0].
  destruct (sum_of_ones n (Binary64.of_Z 0) 0 H0 ltac:(rewrite Hs0; lia) ltac:(lia)
              ltac:(lia)) as [Hs Hsv].
  rewrite Z.add_0_l in Hsv.
  set (total := fold_left _ _ _) in *.
  destruct (of_Z_exact (Z.of_nat n) ltac:(lia)) as [Hnf Hns].
  assert (Hn1 : 1 <= Z.of_nat n) by (unfold n; cbn [length]; lia).
  pose proof (SFdiv_faithful total _ Hs Hnf ltac:(rewrite Hns; nia)) as Hf.
  fold Ieee.unit in Hf. rewrite Hsv, Hns in Hf.
  destruct one_finite as [H1 Hs1].
  assert (Hr1 : Ieee.representable Ieee.unit /\ Ieee.unit < Ieee.overflow).
  { replace Ieee.unit with (1 * Ieee.unit) by lia.
    split; [apply representable_int | apply int_below_overflow]; cbn; lia. }
  destruct (faithful_upper _ _ Ieee.unit _ Hf (proj1 Hr1) (proj2 Hr1)) as [Hpf Hpb].
  { rewrite Z.abs_eq by nia. lia. }
  destruct (faithful_sign _ _ _ Hf ltac:(nia)) as [Hp0 _]. specialize (Hp0 ltac:(nia)).
  destruct Hf as (_ & _ & _ & _ & _ & Hlo).
  destruct (Hlo Ieee.unit (proj1 Hr1) ltac:(rewrite Z.abs_eq by nia; lia)) as [Hinf | Hge].
  { destruct Hpf as [_ Hpf]. congruence. }
  apply finite_unique; [exact Hpf | exact H1 | lia | lia].
Qed.

End Exact64.

(** The topology with one dangling connection. *)
Lemma dangling_connections_give_zero_efficiency_witness :
  GridSimulator.calculate_path_efficiency Sample64.dangling = Py.Returned (Binary64.of_Z 0).
Proof. apply dangling_connections_give_zero_efficiency; [discriminate | reflexivity]. Defined.

(** The converse fails: a generator at 0 joined to a city at 2^-60 also
    has path efficiency exactly 1, the difference being lost in
    1 - 2^-60. *)
Lemma tiny_difference_still_gives_full_efficiency :
  valid_binary Binary64.prec Binary64.emax (S754_finite false 4503599627370496 (-112)) = true /\
  S754_finite false 4503599627370496 (-112) <> Binary64.of_Z 0 /\
  GridSimulator.calculate_path_efficiency
    {| GridSimulator.nodes :=
         [ {| Node.node_type := "Generator"; Node.size := 50;
              Node.energy := Binary64.of_Z 0; Node.image := None; Node.item := 1 |};
           {| Node.node_type := "City"; Node.size := 50;
              Node.energy := S754_finite false 4503599627370496 (-112);
              Node.image := None; Node.item := 5 |} ];
       GridSimulator.connections := [(1, 5)] |}
  = Py.Returned (Binary64.of_Z 1).
Proof. split; [reflexivity|]. split; [discriminate | vm_compute; reflexivity]. Qed.

(** A generator and a city both at 100, connected. *)
Lemma level_connections_give_full_efficiency_witness :
  GridSimulator.calculate_path_efficiency Sample64.level_pair = Py.Returned (Binary64.of_Z 1).
Proof.
  apply level_connections_give_full_efficiency.
  - discriminate.
  - vm_compute. reflexivity.
  - repeat constructor. eexists _, _. repeat split; reflexivity.
Defined.

Section Report64.

Lemma scaled_below_overflow (m u : Z) :
  0 <= m < 2 ^ 53 -> - Ieee.bias <= u <= 971 -> m * 2 ^ (u + Ieee.bias) < Ieee.overflow.
Proof.
  intros Hm Hu. pose proof bias_eq as Hbias. unfold Ieee.overflow.
  change Binary64.emax with 1024.
  replace (1024 + Ieee.bias) with (53 + (971 + Ieee.bias)) by lia.
  rewrite (pow2_add 53) by lia.
  pose proof (pow2_pos (u + Ieee.bias) ltac:(lia)) as Hp.
  pose proof (pow2_le (u + Ieee.bias) (971 + Ieee.bias) ltac:(lia)) as Hle.
  assert (m * 2 ^ (u + Ieee.bias) < 2 ^ 53 * 2 ^ (u + Ieee.bias))
    by (apply Z.mul_lt_mono_pos_r; lia).
  assert (2 ^ 53 * 2 ^ (u + Ieee.bias) <= 2 ^ 53 * 2 ^ (971 + Ieee.bias))
    by (apply Z.mul_le_mono_nonneg_l; lia).
  lia.
Qed.

(** A sum of fewer than 2^53 doubles between 0 and 2^c, c <= 971, does not
    overflow. *)
Lemma sum_of_nonneg (c : Z) (l : list spec_float) :
  -1074 <= c <= 971 ->
  forall (acc : spec_float) (j : Z),
  Ieee.finite acc -> 0 <= Ieee.sval acc <= j * 2 ^ (c + Ieee.bias) -> 0 <= j ->
  j + Z.of_nat (length l) < 2 ^ 53 ->
  Forall (fun v => Ieee.finite v /\ 0 <= Ieee.sval v <= 2 ^ (c + Ieee.bias)) l ->
  let s := fold_left (SFadd Binary64.prec Binary64.emax) l acc in
  Ieee.finite s /\ 0 <= Ieee.sval s <= (j + Z.of_nat (length l)) * 2 ^ (c + Ieee.bias).
Proof.
  intros Hc. pose proof bias_eq as Hbias.
  induction l as [|v l IH]; intros acc j Hacc Hb Hj Hlen Hall; cbn [fold_left length].
  - change (Z.of_nat 0) with 0. rewrite Z.add_0_r. split; assumption.
  - apply Forall_cons in Hall as [[Hv Hvb] Hall].
    cbn [length] in Hlen. rewrite Nat2Z.inj_succ in Hlen |- *.
    pose proof (SFadd_faithful acc v Hacc Hv) as Hf.
    destruct (faithful_upper _ 1 ((j + 1) * 2 ^ (c + Ieee.bias)) _ Hf) as [Hfin Hle].
    { apply representable_scaled; lia. }
    { apply scaled_below_overflow; lia. }
    { rewrite Z.abs_eq by lia. lia. }
    destruct (faithful_sign _ 1 _ Hf ltac:(lia)) as [Hpos _]. specialize (Hpos ltac:(lia)).
    destruct (IH _ (j + 1) Hfin ltac:(lia) ltac:(lia) ltac:(lia) Hall) as (Hs & Hsb).
    split; [exact Hs|]. replace (j + Z.succ (Z.of_nat (length l)))
      with (j + 1 + Z.of_nat (length l)) by lia. exact Hsb.
Qed.

Lemma moderate_energy (x : spec_float) :
  valid_binary Binary64.prec Binary64.emax x = true ->
  SFleb (Binary64.of_Z 0) x = true -> SFltb x Binary64.large = true ->
  Ieee.nonneg x = true /\ Ieee.finite x /\ 0 <= Ieee.sval x <= 2 ^ (970 + Ieee.bias).
Proof.
  intros Hv H0 H1. pose proof bias_eq as Hbias.
  assert (Hn : Ieee.nonneg x = true).
  { destruct x as [s | [|] | | [|] m e]; try reflexivity;
      try discriminate H0; discriminate H1. }
  split; [exact Hn|]. destruct (nonneg_finite x Hv Hn) as [Hfin Hpos].
  split; [exact Hfin|]. split; [exact Hpos|].
  assert (Hl : Ieee.finite Binary64.large) by (split; reflexivity).
  rewrite (SFltb_sval _ _ Hfin Hl) in H1. apply Z.ltb_lt in H1.
  replace (2 ^ (970 + Ieee.bias)) with (Ieee.sval Binary64.large); [lia|].
  cbn [Ieee.sval Binary64.large]. replace (970 + Ieee.bias) with (52 + (918 + Ieee.bias)) by lia.
  rewrite (pow2_add 52) by lia. lia.
Qed.

Lemma energy_of_bounds (types : list string) (ns : list (Node.Node spec_float)) :
  Z.of_nat (length ns) < 2 ^ 53 ->
  Forall (fun node =>
            Ieee.finite (Node.energy node) /\
            0 <= Ieee.sval (Node.energy node) <= 2 ^ (970 + Ieee.bias)) ns ->
  let total := GridSimulator.energy_of types ns in
  Ieee.finite total /\ 0 <= Ieee.sval total <= 2 ^ (1023 + Ieee.bias) - 2 ^ (970 + Ieee.bias).
Proof.
  intros Hlen Hall total. pose proof bias_eq as Hbias.
  unfold total, GridSimulator.energy_of, Py.sum. cbn [Py.fadd Py.of_Z Binary64.binary64].
  set (chosen := List.filter _ ns).
  assert (Hshort : (length chosen <= length ns)%nat) by apply List.filter_length_le.
  destruct zero_finite as [H0 Hs0].
  destruct (sum_of_nonneg 970 (map Node.energy chosen) ltac:(lia) (Binary64.of_Z 0) 0 H0
              ltac:(rewrite Hs0; lia) ltac:(lia)) as [Hfin Hb].
  { rewrite length_map. lia. }
  { apply Forall_forall. intros v Hv. apply list_elem_of_fmap in Hv as (node & -> & Hin).
    rewrite Forall_forall in Hall. apply Hall.
    apply list_elem_of_In in Hin. apply List.filter_In in Hin as [Hin _].
    apply list_elem_of_In, Hin. }
  split; [exact Hfin|]. rewrite length_map, Z.add_0_l in Hb.
  pose proof (pow2_pos (970 + Ieee.bias) ltac:(lia)) as Hp.
  replace (1023 + Ieee.bias) with (53 + (970 + Ieee.bias)) by lia.
  rewrite (pow2_add 53) by lia.
  assert (Z.of_nat (length chosen) * 2 ^ (970 + Ieee.bias)
          <= (2 ^ 53 - 1) * 2 ^ (970 + Ieee.bias))
    by (apply Z.mul_le_mono_nonneg_r; lia).
  lia.
Qed.

Lemma milli_is_small :
  Ieee.finite (Py.dec 1 3 (F := spec_float)) /\
  0 < Ieee.sval (Py.dec 1 3 (F := spec_float)) <= Ieee.unit.
Proof.
  split; [split; vm_compute; reflexivity|].
  split; [apply Z.ltb_lt | apply Z.leb_le]; vm_compute; reflexivity.
Qed.

(** The report on a grid of moderate, non-negative energies.  When there
    are fewer than 2^53 nodes and connections and every energy is a double
    in [0, 2^970), [simulate_performance] returns a report in which the
    output delivered lies between zero and the energy generated, the demand
    is not negative and the load balance lies between 0 and 100. *)
Theorem report_is_bounded_for_nonnegative_energies
    (t : GridSimulator.topology spec_float) :
  Z.of_nat (length (GridSimulator.nodes t)) < 2 ^ 53 ->
  Z.of_nat (length (GridSimulator.connections t)) < 2 ^ 53 ->
  Forall (fun node =>
            valid_binary Binary64.prec Binary64.emax (Node.energy node) = true /\
            SFleb (Binary64.of_Z 0) (Node.energy node) = true /\
            SFltb (Node.energy node) Binary64.large = true)
         (GridSimulator.nodes t) ->
  exists r,
    GridSimulator.simulate_performance t = Py.Returned r /\
    SFleb (Binary64.of_Z 0) (GridSimulator.total_energy_output r) = true /\
    SFleb (GridSimulator.total_energy_output r)
          (GridSimulator.energy_of GridSimulator.producers (GridSimulator.nodes t)) = true /\
    SFleb (Binary64.of_Z 0) (GridSimulator.total_energy_demand r) = true /\
    SFleb (Binary64.of_Z 0) (GridSimulator.load_balance r) = true /\
    SFleb (GridSimulator.load_balance r) (Binary64.of_Z 100) = true.
Proof.
  intros Hnodes Hconns Hall. pose proof bias_eq as Hbias. pose proof unit_pos as HU.
  assert (Hmod : Forall (fun node =>
                   Ieee.nonneg (Node.energy node) = true /\ Ieee.finite (Node.energy node) /\
                   0 <= Ieee.sval (Node.energy node) <= 2 ^ (970 + Ieee.bias))
                 (GridSimulator.nodes t)).
  { eapply Forall_impl; [exact Hall|]. intros node (Hv & H0 & H1).
    apply moderate_energy; assumption. }
  destruct (same_sign_fraction t Hconns) as (p & Hp & Hpf & Hpb).
  { eapply Forall_impl; [exact Hall|]. intros node (Hv & _). exact Hv. }
  { apply Forall_forall. intros conn _ a b Ha Hb. rewrite Forall_forall in Hmod.
    destruct (Hmod a (node_with_item_in _ _ _ Ha)) as (Hna & _).
    destruct (Hmod b (node_with_item_in _ _ _ Hb)) as (Hnb & _).
    unfold Ieee.same_sign. rewrite Hna, Hnb. reflexivity. }
  assert (Hbounded : Forall (fun node =>
                       Ieee.finite (Node.energy node) /\
                       0 <= Ieee.sval (Node.energy node) <= 2 ^ (970 + Ieee.bias))
                     (GridSimulator.nodes t)).
  { eapply Forall_impl; [exact Hmod|]. intros node (_ & H). exact H. }
  destruct (energy_of_bounds GridSimulator.producers _ Hnodes Hbounded) as [Hsf Hsb].
  destruct (energy_of_bounds GridSimulator.consumers _ Hnodes Hbounded) as [Hdf Hdb].
  unfold GridSimulator.simulate_performance. rewrite Hp.
  cbn [mbind mret Py.outcome_bind Py.outcome_ret]. unfold Py.truediv.
  set (supply := GridSimulator.energy_of GridSimulator.producers _) in *.
  set (demand := GridSimulator.energy_of GridSimulator.consumers _) in *.
  destruct milli_is_small as [Hmf Hmb].
  set (milli := Py.dec 1 3) in *.
  cbn [Py.fadd Py.fmul Py.fdiv Py.feqb Py.of_Z Binary64.binary64].
  set (divisor := SFadd Binary64.prec Binary64.emax demand milli).
  destruct zero_finite as [H0 Hs0]. destruct one_finite as [H1 Hs1].
  pose proof (pow2_pos (970 + Ieee.bias) ltac:(lia)) as Hp970.
  pose proof (pow2_le Ieee.bias (970 + Ieee.bias) ltac:(lia)) as Hle970.
  fold Ieee.unit in Hle970.
  (* the divisor is finite and positive *)
  pose proof (SFadd_faithful demand milli Hdf Hmf) as Hf. fold divisor in Hf.
  destruct (faithful_upper _ 1 (1 * 2 ^ (1023 + Ieee.bias)) _ Hf) as [Hvf _].
  { apply representable_scaled; lia. }
  { replace (1 * 2 ^ (1023 + Ieee.bias)) with (2 ^ 52 * 2 ^ (971 + Ieee.bias)).
    - apply scaled_below_overflow; [|lia].
      split; [apply Z.lt_le_incl, pow2_pos; lia | apply pow2_lt; lia].
    - replace (1023 + Ieee.bias) with (52 + (971 + Ieee.bias)) by lia.
      rewrite (pow2_add 52) by lia. lia. }
  { rewrite Z.abs_eq by lia. lia. }
  assert (Hvpos : 0 < Ieee.sval divisor).
  { destruct (faithful_sign _ 1 _ Hf ltac:(lia)) as [Hpos _]. specialize (Hpos ltac:(lia)).
    destruct (finite_representable milli Hmf) as [Hrep _].
    destruct Hf as (_ & _ & _ & _ & _ & Hlo).
    destruct (Hlo _ Hrep ltac:(rewrite !Z.abs_eq by lia; lia)) as [Hinf | Hge].
    - destruct Hvf as [_ Hvf]. congruence.
    - rewrite Z.abs_eq in Hge by lia. lia. }
  rewrite (SFeqb_sval _ _ Hvf H0), Hs0.
  replace (Ieee.sval divisor =? 0) with false by (symmetry; apply Z.eqb_neq; lia).
  eexists. split; [reflexivity|].
  cbn [GridSimulator.total_energy_output GridSimulator.total_energy_demand
       GridSimulator.load_balance].
  (* the output delivered *)
  pose proof (SFmul_faithful supply p Hsf Hpf) as Hm. fold Ieee.unit in Hm.
  destruct (finite_representable supply Hsf) as [Hsrep Hsov].
  rewrite Z.abs_eq in Hsrep, Hsov by lia.
  destruct (faithful_upper _ _ (Ieee.sval supply) _ Hm Hsrep Hsov) as [Hof Hob].
  { rewrite Z.abs_eq by nia. apply Z.mul_le_mono_nonneg_l; lia. }
  destruct (faithful_sign _ _ _ Hm HU) as [Hopos _]. specialize (Hopos ltac:(nia)).
  rewrite (SFleb_sval _ _ H0 Hof), (SFleb_sval _ _ Hof Hsf), (SFleb_sval _ _ H0 Hdf), Hs0.
  split; [apply Z.leb_le; lia|]. split; [apply Z.leb_le; lia|].
  split; [apply Z.leb_le; lia|].
  (* the load balance *)
  pose proof (SFdiv_faithful supply divisor Hsf Hvf Hvpos) as Hq.
  set (q := SFdiv Binary64.prec Binary64.emax supply divisor) in *.
  assert (Hcap : Ieee.fraction (Py.min2 (Binary64.of_Z 1) q)).
  { unfold Py.min2. cbn [Py.fltb Binary64.binary64].
    destruct (faithful_sign _ _ _ Hq Hvpos) as [Hqpos _].
    specialize (Hqpos ltac:(apply Z.mul_nonneg_nonneg; unfold Ieee.unit in HU; lia)).
    assert (Hqinf : Ieee.is_fin q = false -> q = S754_infinity false).
    { intros Eq. destruct Hq as (_ & Hqn & Hqs & _ & Hup & _).
      destruct representable_zero as [Hz Hov].
      destruct (Z.eq_dec (Ieee.sval supply) 0) as [E | E].
      - destruct (Hup 0 Hz Hov ltac:(rewrite E; cbn; lia)) as [Hfin _]. congruence.
      - assert (HN : 0 < Ieee.sval supply * 2 ^ Ieee.bias)
          by (apply Z.mul_pos_pos; [lia | exact HU]).
        specialize (Hqs HN).
        destruct q as [s | s | | s m e]; try discriminate. cbn in Hqs. subst s. reflexivity. }
    destruct (Ieee.is_fin q) eqn:Eq.
    - assert (Hqf : Ieee.finite q) by (split; [apply Hq | exact Eq]).
      rewrite (SFltb_sval _ _ Hqf H1), Hs1.
      destruct (Z.ltb_spec (Ieee.sval q) Ieee.unit) as [Hlt | Hge].
      + split; [exact Hqf | lia].
      + split; [exact H1 | lia].
    - rewrite (Hqinf eq_refl). change (SFltb (S754_infinity false) (Binary64.of_Z 1)) with false.
      split; [exact H1 | lia]. }
  destruct (percent_bounds _ Hcap) as [Hlf Hlb].
  destruct (of_Z_exact 100 ltac:(cbn; lia)) as [Hcf Hcs].
  rewrite (SFleb_sval _ _ H0 Hlf), (SFleb_sval _ _ Hlf Hcf), Hs0, Hcs.
  split; apply Z.leb_le; lia.
Qed.

End Report64.

(** A generator of 100 and a city of 40, not connected. *)
Lemma report_is_bounded_for_nonnegative_energies_witness :
  exists r,
    GridSimulator.simulate_performance Sample64.unconnected = Py.Returned r /\
    SFleb (Binary64.of_Z 0) (GridSimulator.total_energy_output r) = true /\
    SFleb (GridSimulator.total_energy_output r)
          (GridSimulator.energy_of GridSimulator.producers
             (GridSimulator.nodes Sample64.unconnected)) = true /\
    SFleb (Binary64.of_Z 0) (GridSimulator.total_energy_demand r) = true /\
    SFleb (Binary64.of_Z 0) (GridSimulator.load_balance r) = true /\
    SFleb (GridSimulator.load_balance r) (Binary64.of_Z 100) = true.
Proof.
  apply (report_is_bounded_for_nonnegative_energies Sample64.unconnected).
  - vm_compute. reflexivity.
  - vm_compute. reflexivity.
  - repeat (constructor; [repeat split; vm_compute; reflexivity|]). constructor.
Defined.

(* ===================================================================== *)
(** * grid_simulation.py: what its simulator guarantees                   *)
(* ===================================================================== *)

Section IndexErrors.
Context {F : Type} `{Py.Float F} `{Builtins.Sqrt F}.

Lemma getitem_returns {A : Type} (l : list A) (i : Z) :
  Builtins.index_ok (length l) i = true -> exists x, Builtins.getitem l i = Py.Returned x.
Proof.
  unfold Builtins.index_ok, Builtins.getitem. intros Hi.
  apply andb_true_iff in Hi as [Hlo Hhi]. apply Z.leb_le in Hlo. apply Z.ltb_lt in Hhi.
  set (j := if i <? 0 then i + Z.of_nat (length l) else i).
  assert (Hj : 0 <= j < Z.of_nat (length l)).
  { unfold j. destruct (i <? 0) eqn:E; [apply Z.ltb_lt in E | apply Z.ltb_ge in E]; lia. }
  replace ((0 <=? j) && (j <? Z.of_nat (length l))) with true
    by (symmetry; apply andb_true_iff; split; [apply Z.leb_le | apply Z.ltb_lt]; lia).
  destruct (lookup_lt_is_Some_2 l (Z.to_nat j) ltac:(lia)) as [x Hx].
  rewrite Hx. eauto.
Qed.

Lemma getitem_raises {A : Type} (l : list A) (i : Z) :
  Builtins.index_ok (length l) i = false -> Builtins.getitem l i = Py.Raised Py.IndexError.
Proof.
  unfold Builtins.index_ok, Builtins.getitem. intros Hi.
  set (j := if i <? 0 then i + Z.of_nat (length l) else i).
  destruct ((0 <=? j) && (j <? Z.of_nat (length l))) eqn:Hj; [|reflexivity].
  exfalso. apply andb_true_iff in Hj as [Hlo Hhi].
  apply Z.leb_le in Hlo. apply Z.ltb_lt in Hhi.
  apply andb_false_iff in Hi as [Hi | Hi];
    [apply Z.leb_gt in Hi | apply Z.ltb_ge in Hi];
    unfold j in *; destruct (i <? 0) eqn:E;
    [apply Z.ltb_lt in E | apply Z.ltb_ge in E | apply Z.ltb_lt in E | apply Z.ltb_ge in E];
    lia.
Qed.

End IndexErrors.

Section LineFaults.

Lemma of_Z_finite (z : Z) :
  Z.abs z <= 2 ^ 1023 -> Ieee.is_fin (Binary64.of_Z z) = true.
Proof.
  intros Hz. pose proof bias_eq as Hbias. pose proof unit_pos as HU.
  destruct (faithful_upper _ _ (1 * 2 ^ (1023 + Ieee.bias)) _ (of_Z_faithful z))
    as [[_ Hfin] _]; [| | |exact Hfin].
  - apply representable_scaled; lia.
  - replace (1 * 2 ^ (1023 + Ieee.bias)) with (2 ^ 52 * 2 ^ (971 + Ieee.bias)).
    + apply scaled_below_overflow; [|lia].
      split; [apply Z.lt_le_incl, pow2_pos; lia | apply pow2_lt; lia].
    + replace (1023 + Ieee.bias) with (52 + (971 + Ieee.bias)) by lia.
      rewrite (pow2_add 52) by lia. lia.
  - rewrite (pow2_add 1023) by lia. fold Ieee.unit.
    rewrite Z.abs_mul, (Z.abs_eq Ieee.unit) by lia. nia.
Qed.

Lemma getitem_member {A : Type} (l : list A) (i : Z) (x : A) :
  Builtins.getitem l i = Py.Returned x -> x ∈ l.
Proof.
  unfold Builtins.getitem. destruct (_ && _); [|discriminate].
  destruct (l !! _) as [y|] eqn:E; [|discriminate].
  intros [= <-]. eapply list_elem_of_lookup_2, E.
Qed.

Lemma moderate_coordinates (ns : list grid_simulation.node) (i : Z) :
  Forall LineLoss.moderate ns ->
  Z.abs (LineLoss.coordinates ns i).1 <= 2 ^ 510 /\
  Z.abs (LineLoss.coordinates ns i).2 <= 2 ^ 510.
Proof.
  intros Hall. unfold LineLoss.coordinates.
  destruct (Builtins.getitem ns i) as [[[ty x] y]|e] eqn:E.
  - rewrite Forall_forall in Hall. apply (Hall _ (getitem_member _ _ _ E)).
  - cbn. split; apply Z.lt_le_incl, pow2_pos; lia.
Qed.

Lemma squared_length_nonneg (ns : list grid_simulation.node) (c : Z * Z) :
  0 <= LineLoss.squared_length ns c.
Proof.
  unfold LineLoss.squared_length. rewrite !Z.pow_2_r.
  apply Z.add_nonneg_nonneg; apply Z.square_nonneg.
Qed.

Lemma moderate_never_overflows (ns : list grid_simulation.node) (c : Z * Z) :
  Forall LineLoss.moderate ns -> LineLoss.fault ns c <> Some Py.OverflowError.
Proof.
  intros Hall. unfold LineLoss.fault.
  destruct (_ && _); [|discriminate].
  rewrite of_Z_finite; [discriminate|].
  pose proof (squared_length_nonneg ns c) as H0. rewrite Z.abs_eq by exact H0.
  unfold LineLoss.squared_length.
  destruct (moderate_coordinates ns c.1 Hall) as [Hx1 Hy1].
  destruct (moderate_coordinates ns c.2 Hall) as [Hx2 Hy2].
  set (x1 := (LineLoss.coordinates ns c.1).1) in *.
  set (y1 := (LineLoss.coordinates ns c.1).2) in *.
  set (x2 := (LineLoss.coordinates ns c.2).1) in *.
  set (y2 := (LineLoss.coordinates ns c.2).2) in *.
  assert (Hp : 2 ^ 1023 = 2 * (2 ^ 511 * 2 ^ 511)).
  { rewrite <- (pow2_add 511 511) by lia. rewrite <- pow2_succ by lia. reflexivity. }
  assert (H511 : 2 ^ 511 = 2 * 2 ^ 510) by (rewrite <- pow2_succ by lia; reflexivity).
  assert (Hb : forall a b, Z.abs a <= 2 ^ 510 -> Z.abs b <= 2 ^ 510 ->
                           (b - a) ^ 2 <= 2 ^ 511 * 2 ^ 511).
  { intros a b Ha Hb. rewrite Z.pow_2_r.
    assert (Hd : Z.abs (b - a) <= 2 ^ 511) by lia.
    rewrite <- (Z.abs_square (b - a)). apply Z.mul_le_mono_nonneg; lia. }
  pose proof (Hb x1 x2 Hx1 Hx2). pose proof (Hb y1 y2 Hy1 Hy2). lia.
Qed.

Lemma line_loss_loop_outcome (ns : list grid_simulation.node) (conns : list (Z * Z)) :
  forall total : spec_float,
  match grid_simulation.line_loss_loop ns conns total with
  | Py.Returned _ => Forall (fun c => LineLoss.fault ns c = None) conns
  | Py.Raised e =>
      exists pre c post,
        conns = (pre ++ c :: post)%list /\
        Forall (fun c => LineLoss.fault ns c = None) pre /\
        LineLoss.fault ns c = Some e
  end.
Proof.
  induction conns as [|[s e] rest IH]; intros total; [constructor|].
  cbn [grid_simulation.line_loss_loop].
  assert (Hfault : forall x, LineLoss.fault ns (s, e) = Some x ->
            exists pre c post, (s, e) :: rest = (pre ++ c :: post)%list /\
              Forall (fun c => LineLoss.fault ns c = None) pre /\
              LineLoss.fault ns c = Some x).
  { intros x Hx. exists [], (s, e), rest. split; [reflexivity|]. split; [constructor | exact Hx]. }
  pose proof (squared_length_nonneg ns (s, e)) as Hnn.
  unfold LineLoss.fault, LineLoss.squared_length, LineLoss.coordinates in Hfault, Hnn |- *.
  cbn [fst snd] in Hfault, Hnn.
  destruct (Builtins.index_ok (length ns) s) eqn:Hs.
  - destruct (getitem_returns ns s Hs) as [[[st sx] sy] Hgs]. rewrite Hgs in Hfault, Hnn |- *.
    cbn [mbind Py.outcome_bind].
    destruct (Builtins.index_ok (length ns) e) eqn:He.
    + destruct (getitem_returns ns e He) as [[[et ex] ey] Hge]. rewrite Hge in Hfault, Hnn |- *.
      cbn [mbind Py.outcome_bind andb fst snd] in Hfault, Hnn |- *.
      unfold Builtins.math_sqrt, binary64_sqrt.
      set (n := (ex - sx) ^ 2 + (ey - sy) ^ 2) in *.
      destruct (Ieee.is_fin (Binary64.of_Z n)) eqn:Hfin.
      * replace (n <? 0) with false by (symmetry; apply Z.ltb_ge; exact Hnn).
        cbn [mbind Py.outcome_bind]. unfold Py.truediv_int.
        change (100 =? 0) with false. cbn [mbind Py.outcome_bind].
        match goal with |- context [grid_simulation.line_loss_loop ns rest ?acc] =>
          specialize (IH acc); destruct (grid_simulation.line_loss_loop ns rest acc) as [v|x]
        end.
        -- constructor; [|exact IH]. unfold LineLoss.fault, LineLoss.squared_length,
             LineLoss.coordinates. cbn [fst snd]. rewrite Hs, He, Hgs, Hge. cbn [andb fst snd].
           fold n. rewrite Hfin. reflexivity.
        -- destruct IH as (pre & c & post & -> & Hpre & Hc).
           exists ((s, e) :: pre), c, post. split; [reflexivity|]. split; [|exact Hc].
           constructor; [|exact Hpre]. unfold LineLoss.fault, LineLoss.squared_length,
             LineLoss.coordinates. cbn [fst snd]. rewrite Hs, He, Hgs, Hge. cbn [andb fst snd].
           fold n. rewrite Hfin. reflexivity.
      * cbn [mbind Py.outcome_bind]. apply Hfault. reflexivity.
    + rewrite (getitem_raises ns e He). cbn [mbind Py.outcome_bind].
      apply Hfault. reflexivity.
  - rewrite (getitem_raises ns s Hs). cbn [mbind Py.outcome_bind]. apply Hfault. reflexivity.
Qed.

(** [calculate_line_loss] of grid_simulation.py, in binary64.  It returns
    exactly when no connection is at fault: both indices of every
    connection lie in [-len(nodes), len(nodes)) (negative ones count from
    the end of the node list) and the squared distance of its two nodes is
    not too large for a float.  Otherwise it raises what the first
    connection at fault raises: IndexError for an index out of range,
    OverflowError for a squared distance too large; with all coordinates
    of magnitude at most 2^510 that is always IndexError. *)
Theorem line_loss_raises_at_the_first_fault (t : grid_simulation.topology) :
  match grid_simulation.calculate_line_loss (F := spec_float) t with
  | Py.Returned _ =>
      Forall (fun c => LineLoss.fault (grid_simulation.nodes t) c = None)
             (grid_simulation.connections t)
  | Py.Raised e =>
      (exists pre c post,
         grid_simulation.connections t = (pre ++ c :: post)%list /\
         Forall (fun c => LineLoss.fault (grid_simulation.nodes t) c = None) pre /\
         LineLoss.fault (grid_simulation.nodes t) c = Some e) /\
      (e = Py.IndexError \/ e = Py.OverflowError) /\
      (Forall LineLoss.moderate (grid_simulation.nodes t) -> e = Py.IndexError)
  end.
Proof.
  unfold grid_simulation.calculate_line_loss.
  pose proof (line_loss_loop_outcome (grid_simulation.nodes t) (grid_simulation.connections t)
                (Py.of_Z 0)) as Hloop.
  destruct (grid_simulation.line_loss_loop _ _ _) as [v|e]; [exact Hloop|].
  split; [exact Hloop|]. destruct Hloop as (pre & c & post & _ & _ & Hc).
  assert (Hkind : e = Py.IndexError \/ e = Py.OverflowError).
  { unfold LineLoss.fault in Hc. destruct (_ && _); [|left; congruence].
    destruct (Ieee.is_fin _); [discriminate | right; congruence]. }
  split; [exact Hkind|]. intros Hmod. destruct Hkind as [-> | ->]; [reflexivity|].
  exfalso. exact (moderate_never_overflows _ c Hmod Hc).
Qed.

(** Two nodes 10^200 apart: the squared distance 10^400 does not fit a
    float, and [calculate_line_loss] raises OverflowError. *)
Lemma distant_nodes_overflow :
  grid_simulation.calculate_line_loss (F := spec_float)
    {| grid_simulation.nodes := [("Generator", 0, 0); ("City", 10 ^ 200, 0)];
       grid_simulation.connections := [(0, 1)] |}
  = Py.Raised Py.OverflowError.
Proof. vm_compute. reflexivity. Qed.

End LineFaults.

(** The two optional suggestions are different from the three fixed ones
    and from each other. *)
Lemma optional_suggestions_are_new :
  (grid_simulation.generator_suggestion ∉ grid_simulation.base_suggestions) /\
  (grid_simulation.segmentation_suggestion ∉ grid_simulation.base_suggestions) /\
  grid_simulation.generator_suggestion <> grid_simulation.segmentation_suggestion.
Proof.
  repeat split; try discriminate;
    intros Hin; apply list_elem_of_In in Hin; cbn in Hin; intuition discriminate.
Qed.

(** [generate_security_suggestions] always starts with the three fixed
    suggestions; it includes the generator-site suggestion exactly when
    some node is a Generator, and the segmentation suggestion exactly when
    there are more than five connections. *)
Theorem suggestions_follow_the_topology (t : grid_simulation.topology) :
  take 3 (grid_simulation.generate_security_suggestions t)
    = grid_simulation.base_suggestions /\
  (grid_simulation.generator_suggestion ∈ grid_simulation.generate_security_suggestions t
   <-> exists n, n ∈ grid_simulation.nodes t /\ n.1.1 = "Generator") /\
  (grid_simulation.segmentation_suggestion ∈ grid_simulation.generate_security_suggestions t
   <-> (5 < length (grid_simulation.connections t))%nat).
Proof.
  destruct optional_suggestions_are_new as (Hg & Hs & Hgs).
  unfold grid_simulation.generate_security_suggestions.
  assert (Hex : existsb (fun n : grid_simulation.node => String.eqb n.1.1 "Generator")
                  (grid_simulation.nodes t) = true
                <-> exists n, n ∈ grid_simulation.nodes t /\ n.1.1 = "Generator").
  { rewrite existsb_exists. split; intros (n & Hin & Hn); exists n.
    - split; [apply list_elem_of_In, Hin | apply String.eqb_eq, Hn].
    - split; [apply list_elem_of_In, Hin | apply String.eqb_eq, Hn]. }
  destruct (existsb _ (grid_simulation.nodes t)) eqn:Egen;
    destruct (5 <? length (grid_simulation.connections t))%nat eqn:Econn;
    (split; [reflexivity|]); rewrite ?elem_of_app, ?list_elem_of_singleton;
    [apply Nat.ltb_lt in Econn | apply Nat.ltb_ge in Econn
    | apply Nat.ltb_lt in Econn | apply Nat.ltb_ge in Econn];
    split; split; intros Hx;
    repeat match goal with
           | Hx : _ \/ _ |- _ => destruct Hx as [Hx | Hx]
           end;
    try (apply Hex; reflexivity); try lia; try tauto; try congruence;
    try (apply Hex in Hx; discriminate Hx).
Qed.
Section LegacyBounds.
Local Open Scope Q_scope.

Lemma Q_lt_of_not_le_bool (a b : Q) : Qle_bool a b = false -> b < a.
Proof.
  intros E. apply Qnot_le_lt. intros Hle. apply Qle_bool_iff in Hle. congruence.
Qed.

Lemma inject_Z_eq (x y : Z) : inject_Z x == inject_Z y -> x = y.
Proof. unfold Qeq. cbn. lia. Qed.

Lemma inject_nat_nonneg (n : nat) : 0 <= inject_Z (Z.of_nat n).
Proof. change 0 with (inject_Z 0). rewrite <- Zle_Qle. lia. Qed.

(** [calculate_vulnerability_score] is 5 + 0.1 per node + 0.2 per
    connection + 0.5 per Generator or Substation, capped at 10: it is never
    below 5 (the lower clamp at 0 never applies) and never above 10. *)
Theorem vulnerability_score_between_5_and_10 (t : grid_simulation.topology) :
  let n := inject_Z (Z.of_nat (length (grid_simulation.nodes t))) in
  let m := inject_Z (Z.of_nat (length (grid_simulation.connections t))) in
  let c := inject_Z (Z.of_nat (length
             (List.filter
                (fun x : grid_simulation.node => Py.str_in x.1.1 ["Generator"; "Substation"])
                (grid_simulation.nodes t)))) in
  let raw := 5 + n * (1 # 10) + m * (2 # 10) + c * (5 # 10) in
  5 <= grid_simulation.calculate_vulnerability_score t <= 10 /\
  (raw <= 10 -> grid_simulation.calculate_vulnerability_score t == raw) /\
  (10 <= raw -> grid_simulation.calculate_vulnerability_score t == 10).
Proof.
  intros n m c raw. unfold grid_simulation.calculate_vulnerability_score.
  fold n m c.
  set (score := Py.fadd _ (Py.fmul (Py.of_Z _) (Py.dec 5 1))).
  assert (Hscore : score == raw).
  { unfold score, raw, Py.dec. cbn [Py.fadd Py.fmul Py.fdiv Py.of_Z Rational.rational].
    fold n m c. change (inject_Z 5) with 5.
    assert (inject_Z 1 / inject_Z (10 ^ Z.of_nat 1) == 1 # 10) as -> by reflexivity.
    assert (inject_Z 2 / inject_Z (10 ^ Z.of_nat 1) == 2 # 10) as -> by reflexivity.
    assert (inject_Z 5 / inject_Z (10 ^ Z.of_nat 1) == 5 # 10) as -> by reflexivity.
    ring. }
  assert (Hraw : 5 <= raw).
  { pose proof (inject_nat_nonneg (length (grid_simulation.nodes t))).
    pose proof (inject_nat_nonneg (length (grid_simulation.connections t))).
    pose proof (inject_nat_nonneg (length
      (List.filter (fun x : grid_simulation.node => Py.str_in x.1.1 ["Generator"; "Substation"])
         (grid_simulation.nodes t)))).
    unfold raw. fold n m c in H, H0, H1. nra. }
  unfold Py.min2, Builtins.max2. cbn [Py.fltb Py.of_Z Rational.rational].
  change (inject_Z 0) with 0. change (inject_Z 10) with 10.
  destruct (Qle_bool 0 score) eqn:E0; cbn [negb].
  - destruct (Qle_bool score 10) eqn:E10; cbn [negb].
    + apply Qle_bool_iff in E10. repeat split; intros; lra.
    + apply Q_lt_of_not_le_bool in E10. repeat split; intros; lra.
  - apply Q_lt_of_not_le_bool in E0. lra.
Qed.

Lemma fold_add_nonneg (l : list Z) : forall acc : Z,
  (0 <= acc)%Z -> Forall (fun z => 0 <= z)%Z l -> (0 <= fold_left Z.add l acc)%Z.
Proof.
  induction l as [|z l IH]; intros acc Hacc Hall; [exact Hacc|].
  apply Forall_cons in Hall as [Hz Hall]. cbn [fold_left]. apply IH; [lia | exact Hall].
Qed.

Lemma total_generation_nonneg (ns : list grid_simulation.node) :
  (0 <= grid_simulation.total_generation ns)%Z.
Proof.
  apply fold_add_nonneg; [lia|]. apply Forall_forall. intros z Hz.
  apply list_elem_of_In, in_map_iff in Hz as (x & <- & _). lia.
Qed.

Lemma total_consumption_nonneg (ns : list grid_simulation.node) :
  (0 <= grid_simulation.total_consumption ns)%Z.
Proof.
  apply fold_add_nonneg; [lia|]. apply Forall_forall. intros z Hz.
  apply list_elem_of_In, in_map_iff in Hz as (x & <- & _).
  destruct (String.eqb x.1.1 "City"); lia.
Qed.

(** What [calculate_load_balance] returns, with generation [g] and
    consumption [c]. *)
Lemma load_balance_value (t : grid_simulation.topology) :
  let g := grid_simulation.total_generation (grid_simulation.nodes t) in
  let c := grid_simulation.total_consumption (grid_simulation.nodes t) in
  exists v,
    grid_simulation.calculate_load_balance (F := Q) t = Py.Returned v /\
    ((g = 0)%Z -> v == 0) /\
    ((0 < g)%Z -> v == (1 - inject_Z (Z.abs (g - c)) / inject_Z g) * 100).
Proof.
  intros g c. unfold grid_simulation.calculate_load_balance. fold g c.
  pose proof (total_generation_nonneg (grid_simulation.nodes t)) as Hg. fold g in Hg.
  destruct (0 <? g)%Z eqn:E.
  - apply Z.ltb_lt in E. unfold Py.truediv_int.
    replace (g =? 0)%Z with false by (symmetry; apply Z.eqb_neq; lia).
    eexists. split; [reflexivity|]. split; [lia|]. intros _. reflexivity.
  - apply Z.ltb_ge in E. eexists. split; [reflexivity|].
    split; [intros _; reflexivity | lia].
Qed.

(** [calculate_load_balance] always returns.  The value never exceeds 100;
    it is 0 when there is no Generator; with a Generator it is 100 exactly
    when consumption (300 per City, 100 per Building) equals generation
    (1000 per Generator), and negative exactly when consumption is more
    than twice the generation. *)
Theorem legacy_load_balance_shape (t : grid_simulation.topology) :
  let g := grid_simulation.total_generation (grid_simulation.nodes t) in
  let c := grid_simulation.total_consumption (grid_simulation.nodes t) in
  exists v,
    grid_simulation.calculate_load_balance (F := Q) t = Py.Returned v /\
    v <= 100 /\
    ((g = 0)%Z -> v == 0) /\
    ((0 < g)%Z -> (v == 100 <-> c = g) /\ (v < 0 <-> (2 * g < c)%Z)).
Proof.
  intros g c. destruct (load_balance_value t) as (v & Hret & H0 & Hpos).
  fold g c in H0, Hpos. exists v. split; [exact Hret|].
  pose proof (total_generation_nonneg (grid_simulation.nodes t)) as Hg. fold g in Hg.
  pose proof (total_consumption_nonneg (grid_simulation.nodes t)) as Hc. fold c in Hc.
  assert (Hshape : (0 < g)%Z ->
            v <= 100 /\ (v == 100 <-> c = g) /\ (v < 0 <-> (2 * g < c)%Z)).
  { intros Hgpos. specialize (Hpos Hgpos).
    set (a := inject_Z (Z.abs (g - c))) in *. set (G := inject_Z g) in *.
    assert (HG : 0 < G) by (unfold G; change 0 with (inject_Z 0); rewrite <- Zlt_Qlt; lia).
    assert (Ha : 0 <= a) by (unfold a; change 0 with (inject_Z 0); rewrite <- Zle_Qle; lia).
    assert (Hq0 : 0 <= a / G) by (apply Qle_shift_div_l; lra).
    assert (Hmul : a / G * G == a) by (field; lra).
    assert (Hzero : a / G == 0 <-> c = g).
    { split.
      - intros Hz. assert (Ha0 : a == 0) by (rewrite <- Hmul, Hz; ring).
        unfold a in Ha0. change 0 with (inject_Z 0) in Ha0.
        apply inject_Z_eq in Ha0. lia.
      - intros ->. unfold a. rewrite Z.sub_diag. reflexivity. }
    assert (Hone : 1 < a / G <-> (2 * g < c)%Z).
    { split.
      - intros Hlt. destruct (Z_lt_le_dec (2 * g) c) as [Hyes | Hno]; [exact Hyes|].
        exfalso. assert (Hle : a <= G) by (unfold a, G; rewrite <- Zle_Qle; lia).
        assert (a / G <= 1) by (apply Qle_shift_div_r; lra). lra.
      - intros Hlt. apply Qlt_shift_div_l; [exact HG|].
        assert (G < a) by (unfold a, G; rewrite <- Zlt_Qlt; lia). lra. }
    split; [lra|]. split.
    - rewrite <- Hzero. split; intros; lra.
    - rewrite <- Hone. split; intros; lra. }
  split.
  - destruct (Z.eq_dec g 0%Z) as [Hz | Hnz]; [rewrite (H0 Hz); lra | apply Hshape; lia].
  - split; [exact H0|]. intros Hgpos. apply Hshape, Hgpos.
Qed.

(** With no connection and at least one node, [simulate_performance] of
    grid_simulation.py raises ZeroDivisionError exactly when the node
    outputs (Generator 1000, Substation 500, City -300, Building -100, any
    other type 0) add up to zero; otherwise it returns that sum as the
    total output and the mean of the node efficiencies as the average
    efficiency. *)
Theorem balanced_grid_divides_by_zero (sqrt_Q : Builtins.Sqrt Q)
    (t : grid_simulation.topology) :
  grid_simulation.connections t = [] ->
  grid_simulation.nodes t <> [] ->
  ((grid_simulation.node_totals (grid_simulation.nodes t)).1 = 0%Z ->
   grid_simulation.simulate_performance t = Py.Raised Py.ZeroDivisionError) /\
  ((grid_simulation.node_totals (grid_simulation.nodes t)).1 <> 0%Z ->
   exists r,
     grid_simulation.simulate_performance t = Py.Returned r /\
     grid_simulation.total_energy_output r
       == inject_Z (grid_simulation.node_totals (grid_simulation.nodes t)).1 /\
     grid_simulation.average_efficiency r
       == inject_Z (grid_simulation.node_totals (grid_simulation.nodes t)).2
          / inject_Z (Z.of_nat (length (grid_simulation.nodes t)))).
Proof.
  intros Hconn Hnodes.
  unfold grid_simulation.simulate_performance, grid_simulation.calculate_line_loss.
  rewrite Hconn. cbn [grid_simulation.line_loss_loop mbind mret Py.outcome_bind Py.outcome_ret].
  destruct (grid_simulation.node_totals (grid_simulation.nodes t)) as [out eff].
  cbn [fst snd].
  destruct (grid_simulation.nodes t) as [|n0 ns] eqn:En; [congruence|].
  unfold Py.truediv_int.
  replace (Z.of_nat (length (n0 :: ns)) =? 0)%Z with false
    by (symmetry; apply Z.eqb_neq; cbn [length]; lia).
  cbn [mbind mret Py.outcome_bind Py.outcome_ret]. unfold Py.truediv.
  cbn [Py.feqb Py.fsub Py.of_Z Rational.rational].
  split.
  - intros ->. reflexivity.
  - intros Hout.
    replace (Qeq_bool (inject_Z out - inject_Z 0) (inject_Z 0)) with false.
    2:{ symmetry. apply not_true_is_false. intros Heq. apply Qeq_bool_iff in Heq.
        change (inject_Z 0) with 0 in Heq.
        assert (Hz : inject_Z out == inject_Z 0) by (change (inject_Z 0) with 0; lra).
        apply inject_Z_eq in Hz. contradiction. }
    cbn [mbind mret Py.outcome_bind Py.outcome_ret].
    destruct (load_balance_value {| grid_simulation.nodes := n0 :: ns;
                                    grid_simulation.connections := [] |})
      as (v & Hv & _).
    assert (Ht : t = {| grid_simulation.nodes := n0 :: ns;
                        grid_simulation.connections := [] |})
      by (destruct t; cbn in *; congruence).
    rewrite Ht. rewrite Hv. cbn [mbind mret Py.outcome_bind Py.outcome_ret].
    eexists. split; [reflexivity|].
    cbn [grid_simulation.total_energy_output grid_simulation.average_efficiency
         Py.fmul Py.fdiv Py.fsub Py.of_Z Rational.rational].
    change (inject_Z 0) with 0. change (inject_Z 1) with 1.
    split; [ring|].
    field. split.
    + intros Hz. change 0 with (inject_Z 0) in Hz. apply inject_Z_eq in Hz.
      cbn [length] in Hz. lia.
    + intros Hz. change 0 with (inject_Z 0) in Hz. apply inject_Z_eq in Hz. contradiction.
Qed.

End LegacyBounds.

(** One Generator, three Cities and one Building: 1000 - 900 - 100 = 0. *)
Lemma balanced_grid_divides_by_zero_witness :
  grid_simulation.simulate_performance (F := Q) (H0 := fun n => Py.Returned (inject_Z (Z.sqrt n)))
    {| grid_simulation.nodes :=
         [("Generator", 0, 0); ("City", 100, 0); ("City", 200, 0); ("City", 300, 0);
          ("Building", 400, 0)];
       grid_simulation.connections := [] |}
  = Py.Raised Py.ZeroDivisionError.
Proof.
  apply (balanced_grid_divides_by_zero (fun n => Py.Returned (inject_Z (Z.sqrt n)))
           {| grid_simulation.nodes :=
                [("Generator", 0, 0); ("City", 100, 0); ("City", 200, 0); ("City", 300, 0);
                 ("Building", 400, 0)];
              grid_simulation.connections := [] |}).
  - reflexivity.
  - discriminate.
  - vm_compute. reflexivity.
Defined.

(* ===================================================================== *)
(** * More invariants of every editing session                            *)
(* ===================================================================== *)

Section CanvasGrowth.

Lemma grown_refl (c : Tk.Canvas) : Growth.grown_from c c.
Proof. split; [lia | auto]. Qed.

Lemma grown_trans (c1 c2 c3 : Tk.Canvas) :
  Growth.grown_from c1 c2 -> Growth.grown_from c2 c3 -> Growth.grown_from c1 c3.
Proof.
  intros [H12 K12] [H23 K23]. split; [lia|]. intros k Hk.
  destruct (K23 k Hk) as [Hk2 | Hk2]; [|right; lia].
  destruct (K12 k Hk2) as [Hk1 | Hk1]; [left; exact Hk1 | right; lia].
Qed.

Lemma grown_create (sh : Tk.shape) (tags : list Tk.tag) (c : Tk.Canvas) :
  Growth.grown_from c (Tk.create sh tags c).2 /\
  Tk.next_id (Tk.create sh tags c).2 = Tk.next_id c + 1.
Proof.
  split; [|reflexivity]. split; [cbn; lia|]. intros k. unfold Invariants.on_canvas. cbn.
  destruct (decide (Tk.next_id c = k)) as [<- | Hne].
  - intros _. right. lia.
  - rewrite lookup_insert_ne by exact Hne. auto.
Qed.

Lemma grown_set_line_coords (i x1 y1 x2 y2 : Z) (c : Tk.Canvas) :
  Growth.grown_from c (Tk.set_line_coords i x1 y1 x2 y2 c).
Proof.
  split; [cbn; lia|]. intros k. unfold Invariants.on_canvas. cbn.
  rewrite lookup_alter. destruct (decide (i = k)) as [-> | Hne]; [|auto].
  destruct (Tk.items c !! k); cbn; auto.
Qed.

Lemma grown_delete (i : Z) (c : Tk.Canvas) : Growth.grown_from c (Tk.delete i c).
Proof.
  split; [cbn; lia|]. intros k. unfold Invariants.on_canvas. cbn.
  destruct (decide (i = k)) as [-> | Hne].
  - rewrite lookup_delete_eq. discriminate.
  - rewrite lookup_delete_ne by exact Hne. auto.
Qed.

Lemma grown_delete_tag (t : Tk.tag) (c : Tk.Canvas) : Growth.grown_from c (Tk.delete_tag t c).
Proof.
  split; [cbn; lia|]. intros k. unfold Invariants.on_canvas. cbn.
  destruct (base.filter _ (Tk.items c) !! k) as [it|] eqn:E; [|discriminate].
  apply map_lookup_filter_Some in E as [E _]. rewrite E. auto.
Qed.

Lemma grown_fold {A : Type} (f : Tk.Canvas -> A -> Tk.Canvas) (l : list A) :
  (forall c a, Growth.grown_from c (f c a) /\ Tk.next_id (f c a) = Tk.next_id c) ->
  forall c, Growth.grown_from c (fold_left f l c) /\ Tk.next_id (fold_left f l c) = Tk.next_id c.
Proof.
  intros Hf. induction l as [|a l IH]; intros c; [split; [apply grown_refl | reflexivity]|].
  cbn [fold_left]. destruct (IH (f c a)) as [Hg Hn]. destruct (Hf c a) as [Hg1 Hn1].
  split; [eapply grown_trans; eassumption | congruence].
Qed.

Lemma grown_init {F : Type} `{Py.Float F} (image_opens : string -> bool)
    (node_type : string) (x y : Z) (e : F) (c : Tk.Canvas) :
  Growth.grown_from c (Node.init image_opens node_type x y e c).2 /\
  Tk.next_id (Node.init image_opens node_type x y e c).2 = Tk.next_id c + 2.
Proof.
  unfold Node.init, Node.draw.
  destruct (Node.load_image image_opens node_type); cbn [fst snd].
  - destruct (grown_create (Tk.Image x y) [Tk.TagType node_type; Tk.TagNode] c) as [G1 N1].
    destruct (Tk.create_image x y _ c) as [item c1] eqn:E1.
    unfold Tk.create_image in E1. rewrite E1 in G1, N1. cbn [snd] in G1, N1.
    destruct (grown_create (Tk.Text (x + 50 / 2) (y + 50 + 10))
                [Tk.TagEnergy; Tk.TagEnergyOf item] c1) as [G2 N2].
    destruct (Tk.create_text _ _ _ c1) as [label c2] eqn:E2.
    unfold Tk.create_text in E2. rewrite E2 in G2, N2. cbn [snd] in *.
    split; [eapply grown_trans; eassumption | lia].
  - destruct (grown_create (Tk.Rectangle x y (x + 50) (y + 50))
                [Tk.TagType node_type; Tk.TagNode] c) as [G1 N1].
    destruct (Tk.create_rectangle x y _ _ _ c) as [item c1] eqn:E1.
    unfold Tk.create_rectangle in E1. rewrite E1 in G1, N1. cbn [snd] in G1, N1.
    destruct (grown_create (Tk.Text (x + 50 / 2) (y + 50 + 10))
                [Tk.TagEnergy; Tk.TagEnergyOf item] c1) as [G2 N2].
    destruct (Tk.create_text _ _ _ c1) as [label c2] eqn:E2.
    unfold Tk.create_text in E2. rewrite E2 in G2, N2. cbn [snd] in *.
    split; [eapply grown_trans; eassumption | lia].
Qed.

Lemma coords_on_canvas (i : Z) (c : Tk.Canvas) :
  Tk.coords i c <> [] <-> Invariants.on_canvas i c = true.
Proof.
  unfold Tk.coords, Invariants.on_canvas. destruct (Tk.items c !! i) as [it|].
  - split; [reflexivity|]. intros _. destruct (Tk.item_shape it); discriminate.
  - split; [congruence | discriminate].
Qed.

End CanvasGrowth.
Section StepEffects.
Context {F : Type} `{Py.Float F}.
Variable image_opens : string -> bool.
Variable find_overlapping : Tk.Canvas -> list Z -> list Z.

Lemma grown_update_connections (item x y : Z) (c : Tk.Canvas) :
  Growth.grown_from c (GridApp.update_connections find_overlapping item x y c).
Proof.
  unfold GridApp.update_connections. apply grown_fold. intros c' conn.
  destruct (Tk.coords conn c') as [|c0 [|c1 [|c2 [|c3 [|]]]]];
    try (split; [apply grown_refl | reflexivity]).
  destruct ((c0 =? x) && (c1 =? y));
    (split; [apply grown_set_line_coords | reflexivity]).
Qed.

Lemma grown_delete_all (l : list Z) (c : Tk.Canvas) :
  Growth.grown_from c (fold_left (fun c conn => Tk.delete conn c) l c).
Proof.
  apply (grown_fold (fun c conn => Tk.delete conn c)). intros c' conn.
  split; [apply grown_delete | reflexivity].
Qed.

Lemma has_node_of_find (item : Z) (ns : list (Node.Node F)) (k : nat) (node : Node.Node F) :
  list_find (fun n => Node.item n = item) ns = Some (k, node) ->
  Spec.has_node item ns = true.
Proof.
  intros Hfind. apply list_find_Some in Hfind as (Hk & Hitem & _).
  unfold Spec.has_node. apply existsb_exists. exists node.
  split; [apply list_elem_of_In, (list_elem_of_lookup_2 _ k), Hk | apply Z.eqb_eq, Hitem].
Qed.

(** What one action can do to the canvas, to the keys of [node_coords] and
    to the connections. *)
Lemma step_effect (app app' : GridApp.GridApp F) :
  Editor.step image_opens find_overlapping app app' ->
  Growth.grown_from (GridApp.canvas app) (GridApp.canvas app') /\
  (forall k, is_Some (GridApp.node_coords app' !! k) ->
     is_Some (GridApp.node_coords app !! k) \/
     Spec.has_node k (GridApp.nodes app) = true \/
     Tk.next_id (GridApp.canvas app) <= k < Tk.next_id (GridApp.canvas app')) /\
  (forall conn, In conn (GridApp.connections app') ->
     In conn (GridApp.connections app) \/
     (conn.1 <> conn.2 /\
      Invariants.on_canvas conn.1 (GridApp.canvas app) = true /\
      Invariants.on_canvas conn.2 (GridApp.canvas app) = true)).
Proof.
  intros Hstep. destruct Hstep as
    [app ty | app app' x y Hret | app app' item x y Hret | app app' item Hret
    | app app' a b Hret | app app' item Hret | app app' current answer Hret].
  - cbn. split; [apply grown_refl|]. split; auto.
  - unfold GridApp.add_node in Hret.
    pose proof (init_takes_next_id image_opens (GridApp.node_type_var app)
                  (Py.round_div x GridApp.GRID_SIZE * GridApp.GRID_SIZE)
                  (Py.round_div y GridApp.GRID_SIZE * GridApp.GRID_SIZE)
                  (Py.of_Z 0) (GridApp.canvas app)) as [Hitem _].
    pose proof (grown_init image_opens (GridApp.node_type_var app)
                  (Py.round_div x GridApp.GRID_SIZE * GridApp.GRID_SIZE)
                  (Py.round_div y GridApp.GRID_SIZE * GridApp.GRID_SIZE)
                  (Py.of_Z 0) (GridApp.canvas app)) as [Hgrown Hnext].
    destruct (Node.init _ _ _ _ _ _) as [new_node canvas']. cbn [fst snd] in *.
    destruct (Node.item new_node =? 0); injection Hret as <-;
      cbn [GridApp.canvas GridApp.node_coords GridApp.connections GridApp.grid_topology
           GridSimulator.connections];
      (split; [exact Hgrown|]); (split; [|auto]).
    + auto.
    + intros k Hk. rewrite Hitem in Hk.
      destruct (decide (Tk.next_id (GridApp.canvas app) = k)) as [<- | Hne].
      * right. right. lia.
      * rewrite lookup_insert_ne in Hk by exact Hne. auto.
  - unfold GridApp.update_node_position in Hret.
    destruct (list_find _ _) as [[k node]|] eqn:Hfind.
    + pose proof (grown_init image_opens (Node.node_type node) x y (Node.energy node)
                    (GridApp.canvas app)) as [Hgrown _].
      destruct (Node.init _ _ _ _ _ _) as [new_node canvas']. cbn [snd] in Hgrown.
      injection Hret as <-.
      cbn [GridApp.canvas GridApp.node_coords GridApp.connections GridApp.grid_topology
           GridSimulator.connections].
      split; [eapply grown_trans; [exact Hgrown | apply grown_update_connections]|].
      split; [|auto]. intros j Hj.
      destruct (decide (item = j)) as [<- | Hne].
      * right. left. eapply has_node_of_find, Hfind.
      * rewrite lookup_insert_ne in Hj by exact Hne. auto.
    + injection Hret as <-.
      cbn [GridApp.canvas GridApp.node_coords GridApp.connections GridApp.grid_topology
           GridSimulator.connections].
      split; [apply grown_update_connections|]. split; auto.
  - unfold GridApp.remove_node, GridApp.remove_connections in Hret. injection Hret as <-.
    cbn [GridApp.canvas GridApp.node_coords GridApp.connections GridApp.grid_topology
         GridSimulator.connections].
    split; [|split].
    + eapply grown_trans; [|apply grown_delete_all].
      eapply grown_trans; [apply grown_delete | apply grown_delete_tag].
    + intros k [v Hk]. apply lookup_delete_Some in Hk as [_ Hk]. left. eauto.
    + intros conn Hin. apply filter_In in Hin as [Hin _]. left. exact Hin.
  - unfold GridApp.add_connection in Hret.
    destruct (negb (a =? b)) eqn:Hab;
      [|injection Hret as <-; split; [apply grown_refl | split; auto]].
    apply negb_true_iff, Z.eqb_neq in Hab.
    pose proof (coords_on_canvas a (GridApp.canvas app)) as Ha.
    pose proof (coords_on_canvas b (GridApp.canvas app)) as Hb.
    destruct (Tk.coords a (GridApp.canvas app)) as [|s0 [|s1 srest]];
      try (injection Hret as <-; split; [apply grown_refl | split; auto]).
    destruct (Tk.coords b (GridApp.canvas app)) as [|e0 [|e1 erest]];
      try (injection Hret as <-; split; [apply grown_refl | split; auto]).
    injection Hret as <-.
    cbn [GridApp.canvas GridApp.node_coords GridApp.connections GridApp.grid_topology
         GridSimulator.connections].
    split; [apply grown_create|]. split; [auto|].
    intros conn Hin. apply in_app_iff in Hin as [Hin | [<- | []]]; [left; exact Hin|].
    right. cbn [fst snd]. split; [exact Hab|].
    split; [apply Ha | apply Hb]; discriminate.
  - unfold GridApp.remove_connection in Hret. injection Hret as <-.
    cbn [GridApp.canvas GridApp.node_coords GridApp.connections GridApp.grid_topology
         GridSimulator.connections].
    split; [apply grown_delete|]. split; [auto|].
    intros conn Hin. apply filter_In in Hin as [Hin _]. left. exact Hin.
  - unfold GridApp.set_node_energy in Hret.
    destruct current as [|item rest]; [discriminate Hret|].
    destruct (list_find _ _) as [[i node]|];
      [|injection Hret as <-; split; [apply grown_refl | split; auto]].
    destruct answer as [energy|];
      [|injection Hret as <-; split; [apply grown_refl | split; auto]].
    injection Hret as <-. cbn. split; [apply grown_refl | split; auto].
Qed.

Lemma has_node_below (k nid : Z) (ns : list (Node.Node F)) :
  Forall (fun n => Node.item n < nid) ns -> Spec.has_node k ns = true -> k < nid.
Proof.
  intros Hall Hhas. unfold Spec.has_node in Hhas.
  apply existsb_exists in Hhas as (n & Hin & Hn). apply Z.eqb_eq in Hn. subst k.
  rewrite Forall_forall in Hall. apply Hall, list_elem_of_In, Hin.
Qed.

Lemma step_keeps_ids_handed_out (app app' : GridApp.GridApp F) :
  Editor.step image_opens find_overlapping app app' ->
  Editor.items_fresh app -> Invariants.ids_handed_out app ->
  Invariants.ids_handed_out app'.
Proof.
  intros Hstep [_ Hbelow] (Hone & Hcanvas & Hconns & Hcoords).
  destruct (step_effect app app' Hstep) as ([Hnext Hitems] & Hkeys & Hends).
  split; [lia|]. split; [|split].
  - intros k Hk. destruct (Hitems k Hk) as [Hold | Hnew]; [|lia].
    specialize (Hcanvas k Hold). lia.
  - apply Forall_forall. intros conn Hin. apply list_elem_of_In in Hin.
    destruct (Hends conn Hin) as [Hold | (_ & Ha & Hb)].
    + rewrite Forall_forall in Hconns.
      destruct (Hconns conn (proj2 (list_elem_of_In _ _) Hold)). lia.
    + pose proof (Hcanvas _ Ha). pose proof (Hcanvas _ Hb). lia.
  - intros k Hk. destruct (Hkeys k Hk) as [Hold | [Hnode | Hnew]]; [| |lia].
    + specialize (Hcoords k Hold). lia.
    + pose proof (has_node_below k _ _ Hbelow Hnode). lia.
Qed.



End StepEffects.
(* ===================================================================== *)
(** * The editing operations, one by one                                  *)
(* ===================================================================== *)



Section Snapping.






End Snapping.

Section Operations.
Context {F : Type} `{Py.Float F}.
Variable image_opens : string -> bool.
Variable find_overlapping : Tk.Canvas -> list Z -> list Z.



End Operations.


Section Operations2.
Context {F : Type} `{Py.Float F}.
Variable find_overlapping : Tk.Canvas -> list Z -> list Z.

Lemma find_after_update (ns : list (Node.Node F)) : forall (i : nat) (n n' : Node.Node F),
  ns !! i = Some n -> Node.item n' = Node.item n ->
  (forall j y, ns !! j = Some y -> (j < i)%nat -> Node.item y <> Node.item n) ->
  GridSimulator.node_with_item (Node.item n) (<[i := n']> ns) = Some n' /\
  forall k, k <> Node.item n ->
    GridSimulator.node_with_item k (<[i := n']> ns) = GridSimulator.node_with_item k ns.
Proof.
  unfold GridSimulator.node_with_item, Py.next.
  induction ns as [|a ns IH]; intros i n n' Hi Hitem Hfirst; [discriminate Hi|].
  destruct i as [|i]; cbn.
  - cbn in Hi. injection Hi as Ha. subst a. rewrite Hitem, Z.eqb_refl. split; [reflexivity|].
    intros k Hk.
    replace (Node.item n =? k) with false by (symmetry; apply Z.eqb_neq; congruence).
    reflexivity.
  - cbn in Hi. destruct (IH i n n' Hi Hitem) as [IH1 IH2].
    { intros j y Hj Hlt. apply (Hfirst (S j) y Hj). lia. }
    pose proof (Hfirst O a eq_refl ltac:(lia)) as Ha.
    replace (Node.item a =? Node.item n) with false by (symmetry; apply Z.eqb_neq, Ha).
    split; [exact IH1|]. intros k Hk.
    destruct (Node.item a =? k); [reflexivity | apply IH2, Hk].
Qed.

(** Setting the energy of an item a node carries returns, and the node
    then found under that item has the new energy, whatever its value; the
    items and types of all nodes, the lookup of every other item, the
    connections and the canvas are unchanged. *)
Theorem set_energy_then_lookup (app : GridApp.GridApp F) (item : Z) (rest : list Z) (e : F) :
  Spec.has_node item (GridApp.nodes app) = true ->
  exists app',
    GridApp.set_node_energy (item :: rest) (Some e) app = Py.Returned app' /\
    (exists n, GridSimulator.node_with_item item (GridApp.nodes app') = Some n /\
               Node.energy n = e) /\
    map Node.item (GridApp.nodes app') = map Node.item (GridApp.nodes app) /\
    map Node.node_type (GridApp.nodes app') = map Node.node_type (GridApp.nodes app) /\
    (forall k, k <> item ->
       GridSimulator.node_with_item k (GridApp.nodes app')
       = GridSimulator.node_with_item k (GridApp.nodes app)) /\
    GridApp.connections app' = GridApp.connections app /\
    GridApp.canvas app' = GridApp.canvas app.
Proof.
  intros Hhas. unfold GridApp.set_node_energy.
  assert (Hfound : exists i node,
            list_find (fun n => Node.item n = item) (GridApp.nodes app) = Some (i, node)).
  { unfold Spec.has_node in Hhas. apply existsb_exists in Hhas as (n & Hin & Hn).
    apply Z.eqb_eq in Hn. apply list_elem_of_In in Hin.
    destruct (list_find_elem_of (fun n => Node.item n = item) _ n Hin Hn) as [[i node] Hf].
    eauto. }
  destruct Hfound as (i & node & Hfind). rewrite Hfind.
  apply list_find_Some in Hfind as (Hi & Hitem & Hfirst).
  eexists. split; [reflexivity|].
  cbn [GridApp.nodes GridApp.connections GridApp.canvas GridApp.grid_topology
       GridSimulator.nodes GridSimulator.connections].
  destruct (find_after_update (GridApp.nodes app) i node (Node.update_energy e node) Hi
              eq_refl) as [Hlook Hothers].
  { intros j y Hj Hlt. rewrite Hitem. exact (Hfirst j y Hj Hlt). }
  rewrite Hitem in Hlook, Hothers.
  split; [exists (Node.update_energy e node); split; [exact Hlook | reflexivity]|].
  split.
  { change (map Node.item ?l) with (Node.item <$> l). rewrite list_fmap_insert.
    apply list_insert_id. rewrite list_lookup_fmap, Hi. reflexivity. }
  split.
  { change (map Node.node_type ?l) with (Node.node_type <$> l). rewrite list_fmap_insert.
    apply list_insert_id. rewrite list_lookup_fmap, Hi. reflexivity. }
  split; [exact Hothers|]. split; reflexivity.
Qed.

(** Deleting a canvas item with [remove_connection] removes no connection
    whose two ends are other items still on the canvas: when that holds of
    all of them (as when the item is a connection's line), the connection
    list and the nodes are exactly as before. *)
Theorem remove_connection_keeps_the_edges (app : GridApp.GridApp F) (item : Z) :
  Forall (fun conn : Z * Z =>
            conn.1 <> item /\ conn.2 <> item /\
            Invariants.on_canvas conn.1 (GridApp.canvas app) = true /\
            Invariants.on_canvas conn.2 (GridApp.canvas app) = true)
         (GridApp.connections app) ->
  exists app',
    GridApp.remove_connection item app = Py.Returned app' /\
    GridApp.connections app' = GridApp.connections app /\
    GridApp.nodes app' = GridApp.nodes app /\
    Invariants.on_canvas item (GridApp.canvas app') = false.
Proof.
  intros Hall. unfold GridApp.remove_connection. eexists. split; [reflexivity|].
  cbn [GridApp.nodes GridApp.connections GridApp.canvas GridApp.grid_topology
       GridSimulator.nodes GridSimulator.connections].
  split; [|split; [reflexivity|]].
  - apply forallb_filter_id, forallb_forall. intros [a b] Hin.
    rewrite Forall_forall in Hall.
    destruct (Hall (a, b) (proj2 (list_elem_of_In _ _) Hin)) as (Ha & Hb & Hca & Hcb).
    cbn [fst snd] in *. unfold Tk.find_withid, Tk.delete, Invariants.on_canvas in *.
    cbn [Tk.items] in *.
    rewrite !lookup_delete_ne by congruence.
    destruct (Tk.items (GridApp.canvas app) !! a); [|discriminate].
    destruct (Tk.items (GridApp.canvas app) !! b); [reflexivity | discriminate].
  - unfold Invariants.on_canvas, Tk.delete. cbn [Tk.items]. rewrite lookup_delete_eq.
    reflexivity.
Qed.

(** [add_connection] between two different items that are on the canvas
    returns having appended that pair after the existing connections,
    whether or not the pair is already there and whether or not the items
    are nodes; it draws one new line, from 25 right of and below the first
    item's position to 25 right of and below the second's, and changes
    neither the nodes nor [node_coords]. *)
Theorem add_connection_appends (app : GridApp.GridApp F) (a b : Z) :
  a <> b ->
  Invariants.on_canvas a (GridApp.canvas app) = true ->
  Invariants.on_canvas b (GridApp.canvas app) = true ->
  exists app' ax ay arest bx byy brest,
    GridApp.add_connection a b app = Py.Returned app' /\
    GridApp.connections app' = (GridApp.connections app ++ [(a, b)])%list /\
    GridApp.nodes app' = GridApp.nodes app /\
    GridApp.node_coords app' = GridApp.node_coords app /\
    Tk.coords a (GridApp.canvas app) = ax :: ay :: arest /\
    Tk.coords b (GridApp.canvas app) = bx :: byy :: brest /\
    Tk.coords (Tk.next_id (GridApp.canvas app)) (GridApp.canvas app')
      = [ax + 25; ay + 25; bx + 25; byy + 25] /\
    Tk.next_id (GridApp.canvas app') = Tk.next_id (GridApp.canvas app) + 1.
Proof.
  intros Hab Ha Hb. unfold GridApp.add_connection.
  replace (negb (a =? b)) with true by (symmetry; apply negb_true_iff, Z.eqb_neq, Hab).
  unfold Invariants.on_canvas in Ha, Hb. unfold Tk.coords.
  destruct (Tk.items (GridApp.canvas app) !! a) as [ia|] eqn:Ea; [|discriminate].
  destruct (Tk.items (GridApp.canvas app) !! b) as [ib|] eqn:Eb; [|discriminate].
  assert (Hsa : exists ax ay arest, Tk.shape_coords (Tk.item_shape ia) = ax :: ay :: arest)
    by (destruct (Tk.item_shape ia); cbn; eauto).
  assert (Hsb : exists bx byy brest, Tk.shape_coords (Tk.item_shape ib) = bx :: byy :: brest)
    by (destruct (Tk.item_shape ib); cbn; eauto).
  destruct Hsa as (ax & ay & arest & Hsa). destruct Hsb as (bx & byy & brest & Hsb).
  rewrite Hsa, Hsb. eexists. exists ax, ay, arest, bx, byy, brest.
  split; [reflexivity|]. cbn. rewrite lookup_insert_eq. cbn.
  repeat split; reflexivity.
Qed.

(** [remove_node] of an item that no node carries, no connection has at an
    end and [node_coords] has no entry for returns normally, raising
    nothing, with the nodes, the connections and [node_coords] as they
    were. *)
Theorem remove_absent_node_changes_nothing (app : GridApp.GridApp F) (N : Z) :
  Spec.has_node N (GridApp.nodes app) = false ->
  List.filter (Spec.references N) (GridApp.connections app) = [] ->
  GridApp.node_coords app !! N = None ->
  exists app',
    GridApp.remove_node find_overlapping N app = Py.Returned app' /\
    GridApp.nodes app' = GridApp.nodes app /\
    GridApp.connections app' = GridApp.connections app /\
    GridApp.node_coords app' = GridApp.node_coords app.
Proof.
  intros Hnode Hrefs Hkey.
  destruct (remove_node_returns find_overlapping N app) as (app' & Hret & Hn & Hc & Hk).
  exists app'. split; [exact Hret|]. rewrite Hn, Hc, Hk. split; [|split].
  - apply forallb_filter_id, forallb_forall. intros n Hin.
    apply negb_true_iff. apply not_true_is_false. intros Heq.
    unfold Spec.has_node in Hnode.
    assert (existsb (fun node => Node.item node =? N) (GridApp.nodes app) = true)
      by (apply existsb_exists; eauto).
    congruence.
  - apply forallb_filter_id, forallb_forall. intros [s e] Hin.
    destruct (Spec.references N (s, e)) eqn:Hr.
    + assert (Hin' : In (s, e) (List.filter (Spec.references N) (GridApp.connections app)))
        by (apply filter_In; split; assumption).
      rewrite Hrefs in Hin'. destruct Hin'.
    + unfold Spec.references in Hr. cbn [fst snd] in Hr.
      apply orb_false_iff in Hr as [-> ->]. reflexivity.
  - apply delete_id. exact Hkey.
Qed.

End Operations2.
(** The connected pair again: setting the generator's energy to 7;
    deleting the connection's line (item 5); connecting the generator's
    picture (item 1) to its own label (item 2); removing item 99. *)
Lemma set_energy_then_lookup_witness :
  exists app',
    GridApp.set_node_energy [1] (Some (Binary64.of_Z 7))
      (Scenario.app_of (Scenario.connected_pair (Binary64.of_Z 100) (Binary64.of_Z 40)))
      = Py.Returned app' /\
    exists n, GridSimulator.node_with_item 1 (GridApp.nodes app') = Some n /\
              Node.energy n = Binary64.of_Z 7.
Proof.
  destruct (set_energy_then_lookup
              (Scenario.app_of (Scenario.connected_pair (Binary64.of_Z 100) (Binary64.of_Z 40)))
              1 [] (Binary64.of_Z 7)) as (app' & Hret & Hlook & _).
  - vm_compute. reflexivity.
  - exists app'. split; [exact Hret | exact Hlook].
Defined.

Lemma remove_connection_keeps_the_edges_witness :
  exists app',
    GridApp.remove_connection 5
      (Scenario.app_of (Scenario.connected_pair (Binary64.of_Z 100) (Binary64.of_Z 40)))
      = Py.Returned app' /\
    GridApp.connections app' = [(1, 3)].
Proof.
  destruct (remove_connection_keeps_the_edges
              (Scenario.app_of (Scenario.connected_pair (Binary64.of_Z 100) (Binary64.of_Z 40)))
              5) as (app' & Hret & Hconn & _).
  - vm_compute. constructor; [|constructor].
    repeat split; try discriminate; reflexivity.
  - exists app'. split; [exact Hret | exact Hconn].
Defined.

Lemma add_connection_appends_witness :
  exists app',
    GridApp.add_connection 1 2
      (Scenario.app_of (Scenario.connected_pair (Binary64.of_Z 100) (Binary64.of_Z 40)))
      = Py.Returned app' /\
    GridApp.connections app' = [(1, 3); (1, 2)] /\
    Spec.has_node 2 (GridApp.nodes app') = false.
Proof.
  destruct (add_connection_appends
              (Scenario.app_of (Scenario.connected_pair (Binary64.of_Z 100) (Binary64.of_Z 40)))
              1 2) as (app' & ax & ay & arest & bx & byy & brest & Hret & Hconn & Hnodes & _).
  - discriminate.
  - vm_compute. reflexivity.
  - vm_compute. reflexivity.
  - exists app'. split; [exact Hret|]. split; [exact Hconn|].
    rewrite Hnodes. vm_compute. reflexivity.
Defined.

Lemma remove_absent_node_changes_nothing_witness :
  exists app',
    GridApp.remove_node Scenario.find_overlapping 99
      (Scenario.app_of (Scenario.connected_pair (Binary64.of_Z 100) (Binary64.of_Z 40)))
      = Py.Returned app' /\
    GridApp.connections app' = [(1, 3)].
Proof.
  destruct (remove_absent_node_changes_nothing Scenario.find_overlapping
              (Scenario.app_of (Scenario.connected_pair (Binary64.of_Z 100) (Binary64.of_Z 40)))
              99) as (app' & Hret & _ & Hconn & _).
  - vm_compute. reflexivity.
  - vm_compute. reflexivity.
  - vm_compute. reflexivity.
  - exists app'. split; [exact Hret | exact Hconn].
Defined.

(* ===================================================================== *)
(** * The event handlers                                                  *)
(* ===================================================================== *)

Section Handlers.
Context {F : Type} `{Py.Float F}.
Variable image_opens : string -> bool.
Variable find_overlapping : Tk.Canvas -> list Z -> list Z.
Variable find_closest : Tk.Canvas -> Z -> Z -> list Z.

Lemma click_keeps_modes (x y : Z) (w w' : Shell.Window F) :
  Shell.on_canvas_click image_opens find_overlapping find_closest x y w = Py.Returned w' ->
  Shell.modes w' = Shell.modes w.
Proof.
  unfold Shell.on_canvas_click, Shell.handle_connection_click, Shell.handle_delete_click,
    Shell.handle_delete_connection_click, Shell.handle_node_click.
  destruct (Shell.closest find_closest x y w) as [item|e];
    cbn [mbind mret Py.outcome_bind Py.outcome_ret].
  2:{ destruct (Shell.connection_mode w), (Shell.delete_mode w),
        (Shell.delete_connection_mode w); discriminate. }
  intros Hret.
  destruct (Shell.connection_mode w) eqn:Ec.
  { destruct (Shell.connection_start w) as [start|].
    - destruct (GridApp.add_connection start item (Shell.app w)) as [app'|e];
        cbn in Hret; [|discriminate]. injection Hret as <-. unfold Shell.modes. cbn. congruence.
    - injection Hret as <-. unfold Shell.modes. cbn. congruence. }
  destruct (Shell.delete_mode w) eqn:Ed.
  { destruct (bool_decide _).
    - destruct (GridApp.remove_node _ _ _) as [app'|e]; cbn in Hret; [|discriminate].
      injection Hret as <-. unfold Shell.modes. cbn. congruence.
    - injection Hret as <-. unfold Shell.modes. congruence. }
  destruct (Shell.delete_connection_mode w) eqn:Edc.
  { destruct (bool_decide _).
    - destruct (GridApp.remove_connection _ _) as [app'|e]; cbn in Hret; [|discriminate].
      injection Hret as <-. unfold Shell.modes. cbn. congruence.
    - injection Hret as <-. unfold Shell.modes. congruence. }
  destruct (TkEvents.is_image _ _).
  - injection Hret as <-. unfold Shell.modes. cbn. congruence.
  - destruct (GridApp.add_node _ _ _ _) as [app'|e]; cbn in Hret; [|discriminate].
    injection Hret as <-. unfold Shell.modes. cbn. congruence.
Qed.

Lemma drag_keeps_modes (x y : Z) (w w' : Shell.Window F) :
  Shell.on_drag x y w = Py.Returned w' -> Shell.modes w' = Shell.modes w.
Proof.
  unfold Shell.on_drag. destruct (Shell.dragged w); intros [= <-]; reflexivity.
Qed.

Lemma release_keeps_modes (x y : Z) (w w' : Shell.Window F) :
  Shell.on_release image_opens find_overlapping x y w = Py.Returned w' -> Shell.modes w' = Shell.modes w.
Proof.
  unfold Shell.on_release. destruct (Shell.dragged w).
  - destruct (GridApp.update_node_position _ _ _ _ _ _) as [app'|e]; cbn;
      [|discriminate]. intros [= <-]. reflexivity.
  - cbn. intros [= <-]. reflexivity.
Qed.

(** Whatever the user does (mode buttons, type choices, clicks, drags,
    releases, Set Energy, Simulate, Security Check, grid redraws, in any
    order), at most one of connection mode, delete-node mode and
    delete-connection mode is on. *)
Theorem modes_are_exclusive (w : Shell.Window F) :
  Shell.reachable image_opens find_overlapping find_closest w ->
  Shell.one_mode_at_most w = true.
Proof.
  unfold Shell.reachable. intros Hreach.
  pattern w. eapply rtc_ind_r; [| |exact Hreach]; [reflexivity|].
  intros w1 w2 _ Hev IH.
  assert (Hmodes : forall a b : Shell.Window F,
            Shell.modes b = Shell.modes a -> Shell.one_mode_at_most a = true ->
            Shell.one_mode_at_most b = true).
  { intros a b Hm. unfold Shell.modes in Hm. injection Hm as H1 H2 H3.
    unfold Shell.one_mode_at_most. rewrite H1, H2, H3. auto. }
  destruct Hev as [w1 | w1 | w1 | w1 | w1 w2 x y Hret | w1 w2 x y Hret | w1 w2 x y Hret
                  | w1 app' current answer Hret | w1 width height | w1 node_type | w1 text].
  - reflexivity.
  - unfold Shell.one_mode_at_most. cbn. destruct (Shell.connection_mode w1); reflexivity.
  - unfold Shell.one_mode_at_most. cbn. destruct (Shell.delete_mode w1); reflexivity.
  - unfold Shell.one_mode_at_most. cbn.
    destruct (Shell.delete_connection_mode w1); reflexivity.
  - exact (Hmodes _ _ (click_keeps_modes x y w1 w2 Hret) IH).
  - exact (Hmodes _ _ (drag_keeps_modes x y w1 w2 Hret) IH).
  - exact (Hmodes _ _ (release_keeps_modes x y w1 w2 Hret) IH).
  - exact (Hmodes _ _ eq_refl IH).
  - exact (Hmodes _ _ eq_refl IH).
  - exact (Hmodes _ _ eq_refl IH).
  - exact (Hmodes _ _ eq_refl IH).
Qed.

End Handlers.

(** Two mode buttons pressed one after the other. *)
Lemma modes_are_exclusive_witness :
  Shell.one_mode_at_most
    (Shell.toggle_delete_mode (Shell.toggle_connection_mode (Shell.setup (F := spec_float))))
  = true.
Proof.
  apply (modes_are_exclusive Scenario.image_opens Scenario.find_overlapping
           Pointer.find_closest).
  apply (rtc_l _ _ (Shell.toggle_connection_mode Shell.setup)); [apply Shell.ev_connection_mode|].
  apply rtc_once. apply Shell.ev_delete_mode.
Defined.

Section Positions.
Context {F : Type} `{Py.Float F}.
Variable image_opens : string -> bool.
Variable find_overlapping : Tk.Canvas -> list Z -> list Z.
Variable find_closest : Tk.Canvas -> Z -> Z -> list Z.

Lemma on_grid_insert (m : gmap Z (Z * Z)) (k x y : Z) :
  Invariants.on_grid m -> x mod GridApp.GRID_SIZE = 0 -> y mod GridApp.GRID_SIZE = 0 ->
  Invariants.on_grid (<[k := (x, y)]> m).
Proof.
  intros Hm Hx Hy j p Hj. apply lookup_insert_Some in Hj as [[_ <-] | [_ Hj]].
  - split; assumption.
  - exact (Hm j p Hj).
Qed.

Lemma on_grid_delete (m : gmap Z (Z * Z)) (k : Z) :
  Invariants.on_grid m -> Invariants.on_grid (delete k m).
Proof. intros Hm j p Hj. apply lookup_delete_Some in Hj as [_ Hj]. exact (Hm j p Hj). Qed.

Lemma snapped_on_grid (p : Z) :
  (Py.round_div p GridApp.GRID_SIZE * GridApp.GRID_SIZE) mod GridApp.GRID_SIZE = 0.
Proof. apply Z.mod_mul. unfold GridApp.GRID_SIZE. lia. Qed.

Lemma add_node_on_grid (x y : Z) (a a' : GridApp.GridApp F) :
  GridApp.add_node image_opens x y a = Py.Returned a' ->
  Invariants.on_grid (GridApp.node_coords a) -> Invariants.on_grid (GridApp.node_coords a').
Proof.
  unfold GridApp.add_node. destruct (Node.init _ _ _ _ _ _) as [new_node canvas'].
  destruct (Node.item new_node =? 0); intros [= <-] Hm; cbn [GridApp.node_coords].
  - exact Hm.
  - apply on_grid_insert; [exact Hm | apply snapped_on_grid..].
Qed.

Lemma update_node_position_on_grid (item x y : Z) (a a' : GridApp.GridApp F) :
  GridApp.update_node_position image_opens find_overlapping item x y a = Py.Returned a' ->
  x mod GridApp.GRID_SIZE = 0 -> y mod GridApp.GRID_SIZE = 0 ->
  Invariants.on_grid (GridApp.node_coords a) -> Invariants.on_grid (GridApp.node_coords a').
Proof.
  unfold GridApp.update_node_position. destruct (list_find _ _) as [[k node]|].
  - destruct (Node.init _ _ _ _ _ _) as [new_node canvas'].
    intros [= <-] Hx Hy Hm. cbn [GridApp.node_coords]. apply on_grid_insert; assumption.
  - intros [= <-] _ _ Hm. exact Hm.
Qed.

Lemma add_connection_node_coords (a b : Z) (app app' : GridApp.GridApp F) :
  GridApp.add_connection a b app = Py.Returned app' ->
  GridApp.node_coords app' = GridApp.node_coords app.
Proof.
  unfold GridApp.add_connection. intros Hadd.
  destruct (negb (a =? b)); [|injection Hadd as <-; reflexivity].
  destruct (Tk.coords a _) as [|s0 [|s1 srest]];
    try (injection Hadd as <-; reflexivity).
  destruct (Tk.coords b _) as [|e0 [|e1 erest]];
    try (injection Hadd as <-; reflexivity).
Qed.

Lemma click_on_grid (x y : Z) (w w' : Shell.Window F) :
  Shell.on_canvas_click image_opens find_overlapping find_closest x y w = Py.Returned w' ->
  Invariants.on_grid (GridApp.node_coords (Shell.app w)) ->
  Invariants.on_grid (GridApp.node_coords (Shell.app w')).
Proof.
  unfold Shell.on_canvas_click, Shell.handle_connection_click, Shell.handle_delete_click,
    Shell.handle_delete_connection_click, Shell.handle_node_click.
  destruct (Shell.closest find_closest x y w) as [item|e];
    cbn [mbind mret Py.outcome_bind Py.outcome_ret].
  2:{ destruct (Shell.connection_mode w), (Shell.delete_mode w),
        (Shell.delete_connection_mode w); discriminate. }
  intros Hret Hm.
  destruct (Shell.connection_mode w).
  { destruct (Shell.connection_start w) as [start|].
    - destruct (GridApp.add_connection start item (Shell.app w)) as [app'|e] eqn:Eadd;
        cbn in Hret; [|discriminate]. injection Hret as <-. cbn [Shell.app].
      rewrite (add_connection_node_coords _ _ _ _ Eadd). exact Hm.
    - injection Hret as <-. exact Hm. }
  destruct (Shell.delete_mode w).
  { destruct (bool_decide _).
    - destruct (GridApp.remove_node _ _ _) as [app'|e] eqn:Erem; cbn in Hret; [|discriminate].
      injection Hret as <-. cbn [Shell.app Shell.with_app].
      unfold GridApp.remove_node, GridApp.remove_connections in Erem.
      injection Erem as <-. cbn [GridApp.node_coords]. apply on_grid_delete, Hm.
    - injection Hret as <-. exact Hm. }
  destruct (Shell.delete_connection_mode w).
  { destruct (bool_decide _).
    - unfold GridApp.remove_connection in Hret. cbn in Hret. injection Hret as <-. exact Hm.
    - injection Hret as <-. exact Hm. }
  destruct (TkEvents.is_image _ _).
  - injection Hret as <-. exact Hm.
  - destruct (GridApp.add_node _ _ _ _) as [app'|e] eqn:Eadd; cbn in Hret; [|discriminate].
    injection Hret as <-. cbn [Shell.app Shell.with_app].
    exact (add_node_on_grid x y _ _ Eadd Hm).
Qed.

(** Whatever the user does, every position recorded in [node_coords] is a
    point of the grid: both coordinates are multiples of 50. *)
Theorem recorded_positions_stay_on_the_grid (w : Shell.Window F) :
  Shell.reachable image_opens find_overlapping find_closest w ->
  Shell.positions_on_grid w.
Proof.
  unfold Shell.reachable, Shell.positions_on_grid. intros Hreach.
  change (Invariants.on_grid (GridApp.node_coords (Shell.app w))).
  pattern w. eapply rtc_ind_r; [| |exact Hreach].
  - intros k p Hk. cbn in Hk. rewrite lookup_empty in Hk. discriminate Hk.
  - intros w1 w2 _ Hev IH.
    destruct Hev as [w1 | w1 | w1 | w1 | w1 w2 x y Hret | w1 w2 x y Hret | w1 w2 x y Hret
                    | w1 app' current answer Hret | w1 width height | w1 node_type | w1 text];
      try exact IH.
    + exact (click_on_grid x y w1 w2 Hret IH).
    + unfold Shell.on_drag in Hret. destruct (Shell.dragged w1); injection Hret as <-; exact IH.
    + unfold Shell.on_release in Hret. destruct (Shell.dragged w1) as [item|].
      * destruct (GridApp.update_node_position _ _ _ _ _ _) as [app'|e] eqn:Eupd;
          cbn in Hret; [|discriminate]. injection Hret as <-. cbn [Shell.app].
        exact (update_node_position_on_grid _ _ _ _ _ Eupd (snapped_on_grid x)
                 (snapped_on_grid y) IH).
      * cbn in Hret. injection Hret as <-. exact IH.
    + cbn [Shell.app Shell.with_app]. unfold GridApp.set_node_energy in Hret.
      destruct current as [|item rest]; [discriminate Hret|].
      destruct (list_find _ _) as [[i node]|]; [|injection Hret as <-; exact IH].
      destruct answer; injection Hret as <-; exact IH.
Qed.

(** Two clicks in connection mode, the first with no start item pending:
    they return and amount to one [add_connection] of the item under the
    first click to the item under the second, after which no start item is
    pending and the mode is still on.  When both clicks hit the same item
    the application is left exactly as it was. *)
Theorem two_clicks_make_one_connection (w : Shell.Window F)
    (x1 y1 x2 y2 a b : Z) (rest1 rest2 : list Z) :
  Shell.connection_mode w = true ->
  Shell.connection_start w = None ->
  find_closest (GridApp.canvas (Shell.app w)) x1 y1 = a :: rest1 ->
  find_closest (GridApp.canvas (Shell.app w)) x2 y2 = b :: rest2 ->
  exists w1 w2 app2,
    Shell.on_canvas_click image_opens find_overlapping find_closest x1 y1 w
      = Py.Returned w1 /\
    Shell.on_canvas_click image_opens find_overlapping find_closest x2 y2 w1
      = Py.Returned w2 /\
    GridApp.add_connection a b (Shell.app w) = Py.Returned app2 /\
    Shell.app w2 = app2 /\
    Shell.connection_start w2 = None /\
    Shell.connection_mode w2 = true /\
    (a = b -> Shell.app w2 = Shell.app w).
Proof.
  intros Hmode Hstart Ha Hb.
  assert (Hadd : exists app2, GridApp.add_connection a b (Shell.app w) = Py.Returned app2).
  { unfold GridApp.add_connection. destruct (negb (a =? b)); [|eauto].
    destruct (Tk.coords a _) as [|s0 [|s1 srest]]; eauto.
    destruct (Tk.coords b _) as [|e0 [|e1 erest]]; eauto. }
  destruct Hadd as [app2 Hadd].
  unfold Shell.on_canvas_click at 1. rewrite Hmode.
  unfold Shell.handle_connection_click, Shell.closest. rewrite Ha, Hstart.
  cbn [mbind mret Py.outcome_bind Py.outcome_ret].
  eexists. exists (
    {| Shell.app := app2; Shell.drag_data := Shell.drag_data w;
       Shell.connection_mode := Shell.connection_mode w;
       Shell.delete_mode := Shell.delete_mode w;
       Shell.delete_connection_mode := Shell.delete_connection_mode w;
       Shell.connection_start := None;
       Shell.output_label := Shell.output_label w |}), app2.
  split; [reflexivity|].
  unfold Shell.on_canvas_click, Shell.handle_connection_click, Shell.closest.
  cbn [Shell.connection_mode Shell.app Shell.connection_start]. rewrite Hmode, Hb.
  cbn [mbind mret Py.outcome_bind Py.outcome_ret]. rewrite Hadd.
  cbn [mbind mret Py.outcome_bind Py.outcome_ret Shell.app Shell.connection_start
       Shell.connection_mode Shell.drag_data Shell.delete_mode
       Shell.delete_connection_mode Shell.output_label].
  repeat split; try reflexivity; try assumption.
  intros ->. unfold GridApp.add_connection in Hadd. rewrite Z.eqb_refl in Hadd.
  injection Hadd as <-. reflexivity.
Qed.

End Positions.

(** A start-up, then one click that adds a node at (50, 50). *)
Lemma recorded_positions_stay_on_the_grid_witness :
  Shell.reachable Scenario.image_opens Scenario.find_overlapping Pointer.find_closest
    Pointer.first_node /\
  GridApp.node_coords (Shell.app Pointer.first_node) !! 5 = Some (50, 50) /\
  Shell.positions_on_grid Pointer.first_node.
Proof.
  assert (Hreach : Shell.reachable Scenario.image_opens Scenario.find_overlapping
                     Pointer.find_closest Pointer.first_node).
  { apply (rtc_l _ _ Pointer.started); [apply Shell.ev_draw_grid|].
    apply rtc_once. apply (Shell.ev_click _ _ _ _ _ 60 60). vm_compute. reflexivity. }
  split; [exact Hreach|]. split; [vm_compute; reflexivity|].
  exact (recorded_positions_stay_on_the_grid _ _ _ _ Hreach).
Defined.

(** In the connected pair, a click on the city and then one on the
    generator. *)
Lemma two_clicks_make_one_connection_witness :
  Shell.connection_mode Pointer.connecting = true /\
  Shell.connection_start Pointer.connecting = None /\
  exists w1 w2 app2,
    Shell.on_canvas_click Scenario.image_opens Scenario.find_overlapping
      Pointer.find_closest 300 100 Pointer.connecting = Py.Returned w1 /\
    Shell.on_canvas_click Scenario.image_opens Scenario.find_overlapping
      Pointer.find_closest 100 100 w1 = Py.Returned w2 /\
    GridApp.add_connection 3 1 (Shell.app Pointer.connecting) = Py.Returned app2 /\
    Shell.app w2 = app2 /\
    Shell.connection_start w2 = None /\
    Shell.connection_mode w2 = true /\
    (3 = 1 -> Shell.app w2 = Shell.app Pointer.connecting).
Proof.
  split; [reflexivity|]. split; [reflexivity|].
  apply (two_clicks_make_one_connection Scenario.image_opens Scenario.find_overlapping
           Pointer.find_closest Pointer.connecting 300 100 100 100 3 1 [] []);
    vm_compute; reflexivity.
Defined.

(* ===================================================================== *)
(** * What the report measures                                            *)
(* ===================================================================== *)

Section Substations.
Context {F : Type} `{Py.Float F}.

Lemma node_with_item_skips (i : Z) (n n' : Node.Node F) (l1 l2 : list (Node.Node F)) :
  Node.item n <> i -> Node.item n' <> i ->
  GridSimulator.node_with_item i (l1 ++ n' :: l2)
  = GridSimulator.node_with_item i (l1 ++ n :: l2).
Proof.
  intros Hn Hn'. unfold GridSimulator.node_with_item, Py.next.
  induction l1 as [|m l1 IH]; cbn [app List.find].
  - apply Z.eqb_neq in Hn, Hn'. rewrite Hn, Hn'. reflexivity.
  - destruct (Node.item m =? i); [reflexivity | exact IH].
Qed.

Lemma efficiency_loop_same_lookups (ns ns' : list (Node.Node F)) (conns : list (Z * Z)) :
  Forall (fun conn => GridSimulator.node_with_item conn.1 ns' = GridSimulator.node_with_item conn.1 ns
                      /\ GridSimulator.node_with_item conn.2 ns' = GridSimulator.node_with_item conn.2 ns)
         conns ->
  forall acc, GridSimulator.efficiency_loop ns' conns acc = GridSimulator.efficiency_loop ns conns acc.
Proof.
  induction 1 as [|[a b] conns [Ha Hb] _ IH]; intros acc; cbn [GridSimulator.efficiency_loop].
  - reflexivity.
  - cbn [fst snd] in Ha, Hb. rewrite Ha, Hb.
    destruct (GridSimulator.node_with_item a ns) as [sa|]; [|apply IH].
    destruct (GridSimulator.node_with_item b ns) as [sb|]; [|apply IH].
    destruct (GridSimulator.connection_efficiency sa sb) as [e|e];
      cbn [mbind Py.outcome_bind]; [apply IH | reflexivity].
Qed.

Lemma energy_of_skips (types : list string) (n n' : Node.Node F) (l1 l2 : list (Node.Node F)) :
  Py.str_in (Node.node_type n) types = false ->
  Py.str_in (Node.node_type n') types = false ->
  GridSimulator.energy_of types (l1 ++ n' :: l2) = GridSimulator.energy_of types (l1 ++ n :: l2).
Proof.
  intros Hn Hn'. unfold GridSimulator.energy_of.
  rewrite !List.filter_app. cbn [List.filter]. rewrite Hn, Hn'. reflexivity.
Qed.

(** The energy of a substation that no connection touches is ignored:
    whatever it is set to, [simulate_performance] gives the same outcome,
    the same report or the same error. *)
Theorem idle_substation_energy_is_ignored
    (l1 l2 : list (Node.Node F)) (conns : list (Z * Z)) (n : Node.Node F) (e : F) :
  Node.node_type n = "Substation" ->
  Forall (fun conn : Z * Z => conn.1 <> Node.item n /\ conn.2 <> Node.item n) conns ->
  GridSimulator.simulate_performance
    {| GridSimulator.nodes := l1 ++ Node.update_energy e n :: l2;
       GridSimulator.connections := conns |}
  = GridSimulator.simulate_performance
      {| GridSimulator.nodes := l1 ++ n :: l2; GridSimulator.connections := conns |}.
Proof.
  intros Hty Hfree. unfold GridSimulator.simulate_performance.
  cbn [GridSimulator.nodes GridSimulator.connections].
  rewrite !(energy_of_skips _ n (Node.update_energy e n))
    by (cbn [Node.update_energy Node.node_type]; rewrite Hty; reflexivity).
  replace (GridSimulator.calculate_path_efficiency
             {| GridSimulator.nodes := l1 ++ Node.update_energy e n :: l2;
                GridSimulator.connections := conns |})
    with (GridSimulator.calculate_path_efficiency
            {| GridSimulator.nodes := l1 ++ n :: l2; GridSimulator.connections := conns |});
    [reflexivity|].
  unfold GridSimulator.calculate_path_efficiency.
  cbn [GridSimulator.nodes GridSimulator.connections].
  destruct conns as [|c cs]; [reflexivity|].
  rewrite (efficiency_loop_same_lookups (l1 ++ n :: l2) (l1 ++ Node.update_energy e n :: l2));
    [reflexivity|].
  eapply Forall_impl; [exact Hfree|]. intros conn [H1 H2].
  split; apply node_with_item_skips; cbn [Node.update_energy Node.item]; congruence.
Qed.

End Substations.

(** A generator, a substation and a city; the substation is set to 75. *)
Lemma idle_substation_energy_is_ignored_witness :
  GridSimulator.simulate_performance
    {| GridSimulator.nodes :=
         [Sample.generator] ++ Node.update_energy 75%Q Sample.substation :: [Sample.city];
       GridSimulator.connections := [(1, 5)] |}
  = GridSimulator.simulate_performance
      {| GridSimulator.nodes := [Sample.generator] ++ Sample.substation :: [Sample.city];
         GridSimulator.connections := [(1, 5)] |}.
Proof.
  apply (idle_substation_energy_is_ignored [Sample.generator] [Sample.city] [(1, 5)]
           Sample.substation 75%Q).
  - reflexivity.
  - repeat constructor; cbn; lia.
Defined.

(* ===================================================================== *)
(** * The window: ids stay fresh, and the grid is redrawn, not piled up   *)
(* ===================================================================== *)

Section CanvasOnly.

Lemma grown_alter (f : Tk.canvas_item -> Tk.canvas_item) (i : Z) (c : Tk.Canvas) :
  Growth.grown_from c {| Tk.next_id := Tk.next_id c; Tk.items := alter f i (Tk.items c) |}.
Proof.
  split; [cbn; lia|]. intros k. unfold Invariants.on_canvas. cbn.
  rewrite lookup_alter. destruct (decide (i = k)) as [-> | Hne]; [|auto].
  destruct (Tk.items c !! k); cbn; auto.
Qed.

Lemma grown_fmap (f : Tk.canvas_item -> Tk.canvas_item) (c : Tk.Canvas) :
  Growth.grown_from c {| Tk.next_id := Tk.next_id c; Tk.items := f <$> Tk.items c |}.
Proof.
  split; [cbn; lia|]. intros k. unfold Invariants.on_canvas. cbn.
  rewrite lookup_fmap. destruct (Tk.items c !! k); cbn; auto.
Qed.

Lemma grown_set_point_tag (t : Tk.tag) (x y : Z) (c : Tk.Canvas) :
  Growth.grown_from c (TkEvents.set_point_tag t x y c).
Proof.
  unfold TkEvents.set_point_tag. destruct (TkEvents.first_with_tag t c).
  - apply grown_alter.
  - apply grown_refl.
Qed.

Lemma grown_creates (tags : list Tk.tag) (l : list Tk.shape) : forall c,
  Growth.grown_from c (fold_left (fun c sh => (Tk.create sh tags c).2) l c).
Proof.
  induction l as [|sh l IH]; intros c; [apply grown_refl|].
  cbn [fold_left]. eapply grown_trans; [apply grown_create | apply IH].
Qed.

(** Creating grid lines on a canvas whose ids were handed out: the count
    of grid items grows by the number of lines, and the other items stay. *)
Lemma creates_add_grid_items (l : list Tk.shape) : forall c,
  (forall k, Invariants.on_canvas k c = true -> k < Tk.next_id c) ->
  let c' := fold_left (fun c sh => (Tk.create sh [Tk.TagGrid] c).2) l c in
  (length (Tk.find_withtag Tk.TagGrid c')
   = length (Tk.find_withtag Tk.TagGrid c) + length l)%nat /\
  forall k it, Tk.has_tag Tk.TagGrid it = false ->
               (Tk.items c' !! k = Some it <-> Tk.items c !! k = Some it).
Proof.
  induction l as [|sh l IH]; intros c Hbelow; cbn [fold_left length].
  - split; [lia | tauto].
  - assert (Hfresh : Tk.items c !! Tk.next_id c = None).
    { destruct (Tk.items c !! Tk.next_id c) as [it|] eqn:E; [|reflexivity].
      assert (Hon : Invariants.on_canvas (Tk.next_id c) c = true).
      { unfold Invariants.on_canvas. rewrite E. reflexivity. }
      specialize (Hbelow _ Hon). lia. }
    assert (Hbelow1 : forall k, Invariants.on_canvas k (Tk.create sh [Tk.TagGrid] c).2 = true ->
                                k < Tk.next_id (Tk.create sh [Tk.TagGrid] c).2).
    { intros k Hk. destruct (grown_create sh [Tk.TagGrid] c) as [[_ Hitems] Hnext].
      destruct (Hitems k Hk) as [Hold | Hnew]; [specialize (Hbelow k Hold)|]; lia. }
    destruct (IH _ Hbelow1) as [Hcount Hothers]. split.
    + rewrite Hcount. unfold Tk.find_withtag. rewrite !length_fmap, !length_map_to_list.
      cbn [Tk.create snd Tk.items].
      rewrite map_filter_insert_True by (cbn; apply bool_decide_eq_true; constructor).
      rewrite map_size_insert_None; [lia|].
      apply map_lookup_filter_None. left. exact Hfresh.
    + intros k it Hit. rewrite (Hothers k it Hit). cbn [Tk.create snd Tk.items].
      destruct (decide (Tk.next_id c = k)) as [<- | Hne].
      * rewrite lookup_insert_eq, Hfresh. split; [|discriminate].
        intros [= <-]. cbn in Hit. apply bool_decide_eq_false in Hit.
        exfalso. apply Hit. constructor.
      * rewrite lookup_insert_ne by exact Hne. tauto.
Qed.

Lemma no_grid_after_delete (c : Tk.Canvas) :
  Tk.find_withtag Tk.TagGrid (Tk.delete_tag Tk.TagGrid c) = [].
Proof.
  unfold Tk.find_withtag, Tk.delete_tag. cbn [Tk.items].
  replace (base.filter _ (base.filter _ (Tk.items c))) with (∅ : gmap Z Tk.canvas_item);
    [rewrite map_to_list_empty; reflexivity|].
  symmetry. apply map_empty. intros k. apply map_lookup_filter_None.
  destruct (base.filter _ (Tk.items c) !! k) as [it|] eqn:E; [right | left; reflexivity].
  intros it' [= <-]. apply map_lookup_filter_Some in E as [_ E]. cbn in *. congruence.
Qed.

End CanvasOnly.

Section WindowIds.
Context {F : Type} `{Py.Float F}.
Variable image_opens : string -> bool.
Variable find_overlapping : Tk.Canvas -> list Z -> list Z.
Variable find_closest : Tk.Canvas -> Z -> Z -> list Z.

Lemma canvas_change_keeps_ids (a : GridApp.GridApp F) (c' : Tk.Canvas) :
  Growth.grown_from (GridApp.canvas a) c' ->
  Editor.items_fresh a /\ Invariants.ids_handed_out a ->
  Editor.items_fresh (Shell.with_canvas a c') /\
  Invariants.ids_handed_out (Shell.with_canvas a c').
Proof.
  intros [Hnext Hitems] [[Hnodup Hbelow] (Hone & Hcanvas & Hconns & Hcoords)].
  split; [split; [exact Hnodup|]|split; [|split; [|split]]]; cbn.
  - eapply Forall_impl; [exact Hbelow|]. cbn. intros n Hn. lia.
  - lia.
  - intros k Hk. destruct (Hitems k Hk) as [Hold | Hnew]; [specialize (Hcanvas k Hold)|]; lia.
  - eapply Forall_impl; [exact Hconns|]. cbn. intros conn [H1 H2]. lia.
  - intros k Hk. specialize (Hcoords k Hk). lia.
Qed.

Lemma editor_step_keeps_ids (a a' : GridApp.GridApp F) :
  Editor.step image_opens find_overlapping a a' ->
  Editor.items_fresh a /\ Invariants.ids_handed_out a ->
  Editor.items_fresh a' /\ Invariants.ids_handed_out a'.
Proof.
  intros Hstep [Hfresh Hids]. split.
  - exact (step_keeps_items_fresh image_opens find_overlapping a a' Hstep Hfresh).
  - exact (step_keeps_ids_handed_out image_opens find_overlapping a a' Hstep Hfresh Hids).
Qed.

Lemma event_keeps_ids (w w' : Shell.Window F) :
  Shell.event image_opens find_overlapping find_closest w w' ->
  Editor.items_fresh (Shell.app w) /\ Invariants.ids_handed_out (Shell.app w) ->
  Editor.items_fresh (Shell.app w') /\ Invariants.ids_handed_out (Shell.app w').
Proof.
  intros Hev IH.
  destruct Hev as [w | w | w | w | w w' x y Hret | w w' x y Hret | w w' x y Hret
                  | w app' current answer Hret | w width height | w node_type | w text];
    try exact IH.
  - unfold Shell.on_canvas_click, Shell.handle_connection_click, Shell.handle_delete_click,
      Shell.handle_delete_connection_click, Shell.handle_node_click in Hret.
    destruct (Shell.closest find_closest x y w) as [item|e];
      cbn [mbind mret Py.outcome_bind Py.outcome_ret] in Hret.
    2:{ destruct (Shell.connection_mode w), (Shell.delete_mode w),
          (Shell.delete_connection_mode w); discriminate. }
    destruct (Shell.connection_mode w).
    { destruct (Shell.connection_start w) as [start|].
      - destruct (GridApp.add_connection start item (Shell.app w)) as [app'|e] eqn:Eop;
          cbn in Hret; [|discriminate]. injection Hret as <-. cbn [Shell.app].
        exact (editor_step_keeps_ids _ _ (Editor.step_add_connection _ _ _ _ _ _ Eop) IH).
      - injection Hret as <-. exact IH. }
    destruct (Shell.delete_mode w).
    { destruct (bool_decide _).
      - destruct (GridApp.remove_node _ _ _) as [app'|e] eqn:Eop; cbn in Hret; [|discriminate].
        injection Hret as <-. cbn [Shell.app Shell.with_app].
        exact (editor_step_keeps_ids _ _ (Editor.step_remove_node _ _ _ _ _ Eop) IH).
      - injection Hret as <-. exact IH. }
    destruct (Shell.delete_connection_mode w).
    { destruct (bool_decide _).
      - destruct (GridApp.remove_connection _ _) as [app'|e] eqn:Eop; cbn in Hret; [|discriminate].
        injection Hret as <-. cbn [Shell.app Shell.with_app].
        exact (editor_step_keeps_ids _ _ (Editor.step_remove_connection _ _ _ _ _ Eop) IH).
      - injection Hret as <-. exact IH. }
    destruct (TkEvents.is_image _ _).
    + injection Hret as <-. exact IH.
    + destruct (GridApp.add_node _ _ _ _) as [app'|e] eqn:Eop; cbn in Hret; [|discriminate].
      injection Hret as <-. cbn [Shell.app Shell.with_app].
      exact (editor_step_keeps_ids _ _ (Editor.step_add_node _ _ _ _ _ _ Eop) IH).
  - unfold Shell.on_drag in Hret. destruct (Shell.dragged w); injection Hret as <-; [|exact IH].
    cbn [Shell.app]. apply canvas_change_keeps_ids; [|exact IH].
    eapply grown_trans; [apply grown_alter | apply grown_fmap].
  - unfold Shell.on_release in Hret. destruct (Shell.dragged w) as [item|].
    + destruct (GridApp.update_node_position _ _ _ _ _ _) as [app'|e] eqn:Eop;
        cbn in Hret; [|discriminate]. injection Hret as <-. cbn [Shell.app].
      apply (editor_step_keeps_ids _ _ (Editor.step_update_node_position _ _ _ _ _ _ _ Eop)).
      apply canvas_change_keeps_ids; [|exact IH].
      eapply grown_trans; [apply grown_alter | apply grown_set_point_tag].
    + cbn in Hret. injection Hret as <-. exact IH.
  - cbn [Shell.app Shell.with_app].
    exact (editor_step_keeps_ids _ _ (Editor.step_set_node_energy _ _ _ _ _ _ Hret) IH).
  - cbn [Shell.draw_grid Shell.app Shell.with_app]. apply canvas_change_keeps_ids; [|exact IH].
    eapply grown_trans; [apply grown_delete_tag | apply grown_creates].
Qed.

Lemma reachable_window_ids (w : Shell.Window F) :
  Shell.reachable image_opens find_overlapping find_closest w ->
  Editor.items_fresh (Shell.app w) /\ Invariants.ids_handed_out (Shell.app w).
Proof.
  unfold Shell.reachable. intros Hreach.
  pattern w. eapply rtc_ind_r; [| |exact Hreach].
  - split; [split; constructor|]. split; [cbn; lia|].
    split; [intros k Hk; discriminate Hk|]. split; [constructor|].
    intros k [v Hk]. cbn in Hk. rewrite lookup_empty in Hk. discriminate Hk.
  - intros w1 w2 _ Hev IH. exact (event_keeps_ids w1 w2 Hev IH).
Qed.

(** At any point of a session, a redraw of the grid (as after a resize)
    leaves exactly the lines of the new grid tagged "grid", however many
    there were before, and every item that is not a grid line is on the
    canvas afterwards exactly if it was before. *)
Theorem redraw_replaces_the_grid (w : Shell.Window F) (width height : Z) :
  Shell.reachable image_opens find_overlapping find_closest w ->
  let before := GridApp.canvas (Shell.app w) in
  let after := GridApp.canvas (Shell.app (Shell.draw_grid width height w)) in
  length (Tk.find_withtag Tk.TagGrid after) = length (Shell.grid_lines width height) /\
  forall k it, Tk.has_tag Tk.TagGrid it = false ->
               (Tk.items after !! k = Some it <-> Tk.items before !! k = Some it).
Proof.
  intros Hreach before after.
  destruct (reachable_window_ids w Hreach) as [_ (_ & Hbelow & _)]. fold before in Hbelow.
  assert (Hbelow' : forall k, Invariants.on_canvas k (Tk.delete_tag Tk.TagGrid before) = true ->
                              k < Tk.next_id (Tk.delete_tag Tk.TagGrid before)).
  { intros k Hk. destruct (grown_delete_tag Tk.TagGrid before) as [_ Hitems].
    destruct (Hitems k Hk) as [Hold | Hnew]; [exact (Hbelow k Hold) | cbn in Hnew; lia]. }
  destruct (creates_add_grid_items (Shell.grid_lines width height) _ Hbelow')
    as [Hcount Hothers].
  rewrite no_grid_after_delete in Hcount. split; [exact Hcount|].
  intros k it Hit. etransitivity; [exact (Hothers k it Hit)|].
  cbn [Tk.delete_tag Tk.items]. rewrite map_lookup_filter_Some. cbn. tauto.
Qed.

End WindowIds.

(** A second redraw, on a wider canvas, of the window with one node. *)
Lemma redraw_replaces_the_grid_witness :
  length (Tk.find_withtag Tk.TagGrid
            (GridApp.canvas (Shell.app (Shell.draw_grid 200 100 Pointer.first_node))))
  = length (Shell.grid_lines 200 100) /\
  forall k it, Tk.has_tag Tk.TagGrid it = false ->
    (Tk.items (GridApp.canvas (Shell.app (Shell.draw_grid 200 100 Pointer.first_node))) !! k
       = Some it
     <-> Tk.items (GridApp.canvas (Shell.app Pointer.first_node)) !! k = Some it).
Proof.
  apply (redraw_replaces_the_grid Scenario.image_opens Scenario.find_overlapping
           Pointer.find_closest Pointer.first_node 200 100).
  apply (rtc_l _ _ Pointer.started); [apply Shell.ev_draw_grid|].
  apply rtc_once. apply (Shell.ev_click _ _ _ _ _ 60 60). vm_compute. reflexivity.
Defined.
